(** * Transcript normalisation and comparison ([analysis.py])

    A shallow embedding of the normaliser/comparator of [analysis.py]:
    [normalize_data], [get_similarity] and the per-identifier row of the
    report, together with the parts of the Python run time they rest on
    (JSON values, the numeric tower with binary64 floats, [statistics.mean],
    [round], [set] and [difflib.SequenceMatcher]).

    Conventions.
    - A Python [float] is an IEEE 754 binary64 number: [spec_float] with
      [prec = 53] and [emax = 1024]; every operation is the correctly rounded
      one of the standard library's [SpecFloat].
    - A Python [int] is a [Z]; [bool] is its subclass with [True = 1].
    - A Python [str] is its sequence of code points.
    - A raised exception is a value [Raise e] of the result type [res];
      [try ... except Exception] is a match on it. *)

From Stdlib Require Import ZArith QArith Lia List String Ascii Bool.
From Stdlib Require Import Floats.SpecFloat.
From stdpp Require Import base option gmap list sorting.

Set Warnings "-register-all".

Local Open Scope Z_scope.

(** ** Binary64 floats *)

Module F64.

Definition prec : Z := 53.
Definition emax : Z := 1024.

Definition float := spec_float.

Definition add : float -> float -> float := SFadd prec emax.
Definition sub : float -> float -> float := SFsub prec emax.
Definition mul : float -> float -> float := SFmul prec emax.
Definition div : float -> float -> float := SFdiv prec emax.
Definition abs : float -> float := SFabs.
Definition leb : float -> float -> bool := SFleb.
Definition eqb : float -> float -> bool := SFeqb.

Definition is_finite (x : float) : bool :=
  match x with
  | S754_zero _ | S754_finite _ _ _ => true
  | S754_infinity _ | S754_nan => false
  end.

(** The nearest float of an integer (ties to even); an infinity when the
    integer is out of range. *)
Definition of_Z (z : Z) : float := binary_normalize prec emax z 0 false.

(** The nearest float of the fraction [a / b]. *)
Definition of_frac (a : Z) (b : positive) : float :=
  match a with
  | Z0 => S754_zero false
  | _ =>
      let '(mz, ez, lz) :=
        SFdiv_core_binary prec emax (Z.abs a) 0 (Zpos b) 0 in
      binary_round_aux prec emax (a <? 0) mz ez lz
  end.

Definition zero : float := S754_zero false.
Definition one : float := Eval vm_compute in of_Z 1.
Definition two : float := Eval vm_compute in of_Z 2.
Definition hundred : float := Eval vm_compute in of_Z 100.
Definition thousand : float := Eval vm_compute in of_Z 1000.

(** The decimal literal [n / 10^k], as [json.load] and the Python parser
    read it: the nearest float. *)
Definition dec (n : Z) (k : nat) : float :=
  of_frac n (Z.to_pos (10 ^ Z.of_nat k)).

(** The exact value of a finite float, as a fraction. *)
Definition to_Q (x : float) : Q :=
  match x with
  | S754_finite s m e =>
      let n := if s then Zneg m else Zpos m in
      match e with
      | Zneg p => Qmake n (Pos.pow 2 p)
      | _ => Qmake (n * 2 ^ e) 1
      end
  | _ => 0%Q
  end.

End F64.

Abbreviation float := F64.float.

(** ** Exceptions and results *)

Inductive exn : Set :=
| TypeError
| AttributeError
| KeyError
| IndexError
| OverflowError
| ZeroDivisionError
| StatisticsError.

Inductive res (A : Type) : Type :=
| Ok (a : A)
| Raise (e : exn).
Arguments Ok {A} a.
Arguments Raise {A} e.

Definition bind {A B} (c : res A) (k : A -> res B) : res B :=
  match c with
  | Ok a => k a
  | Raise e => Raise e
  end.

Notation "'let*' x ':=' c 'in' k" := (bind c (fun x => k))
  (at level 10, x name, c at level 100, k at level 200).
Notation "'let*' ' p ':=' c 'in' k" := (bind c (fun p => k))
  (at level 10, p strict pattern, c at level 100, k at level 200).

Fixpoint mapM {A B} (f : A -> res B) (l : list A) : res (list B) :=
  match l with
  | [] => Ok []
  | x :: l' => let* y := f x in let* ys := mapM f l' in Ok (y :: ys)
  end.

(** ** JSON values, as [json.load] returns them *)

Definition char := N.
Definition str := list char.

Definition lit (s : string) : str := map N_of_ascii (list_ascii_of_string s).
Arguments lit s%_string : simpl never.

(** An object is kept as the list of its items; a key is looked up from the
    front, and a loaded object has no key twice. *)
Inductive json : Type :=
| JNull
| JBool (b : bool)
| JInt (z : Z)
| JFloat (f : float)
| JStr (s : str)
| JList (l : list json)
| JDict (d : list (str * json)).

Definition str_eqb (s t : str) : bool := bool_decide (s = t).

Fixpoint lookup_key (k : str) (d : list (str * json)) : option json :=
  match d with
  | [] => None
  | (k', v) :: d' => if str_eqb k k' then Some v else lookup_key k d'
  end.

(** ** Builtins *)

(** [bool(x)] *)
Definition truthy (x : json) : bool :=
  match x with
  | JNull => false
  | JBool b => b
  | JInt z => negb (z =? 0)
  | JFloat f => match f with S754_zero _ => false | _ => true end
  | JStr s => match s with [] => false | _ => true end
  | JList l => match l with [] => false | _ => true end
  | JDict d => match d with [] => false | _ => true end
  end.

(** [x.get(k, default)] *)
Definition py_get (x : json) (k : str) (dflt : json) : res json :=
  match x with
  | JDict d => Ok (default dflt (lookup_key k d))
  | _ => Raise AttributeError
  end.

(** [x[0]] *)
Definition py_first (x : json) : res json :=
  match x with
  | JList l => match l with [] => Raise IndexError | v :: _ => Ok v end
  | JStr s => match s with [] => Raise IndexError | c :: _ => Ok (JStr [c]) end
  | JDict _ => Raise KeyError
  | _ => Raise TypeError
  end.

(** [x[-1]] *)
Definition py_last (x : json) : res json :=
  match x with
  | JList l => match last l with None => Raise IndexError | Some v => Ok v end
  | JStr s => match last s with None => Raise IndexError | Some c => Ok (JStr [c]) end
  | JDict _ => Raise KeyError
  | _ => Raise TypeError
  end.

(** [len(x)] *)
Definition py_len (x : json) : res Z :=
  match x with
  | JList l => Ok (Z.of_nat (length l))
  | JStr s => Ok (Z.of_nat (length s))
  | JDict d => Ok (Z.of_nat (length d))
  | _ => Raise TypeError
  end.

(** [for w in x]: the items an iteration yields. *)
Definition py_iter (x : json) : res (list json) :=
  match x with
  | JList l => Ok l
  | JStr s => Ok (map (fun c => JStr [c]) s)
  | JDict d => Ok (map (fun kv => JStr (fst kv)) d)
  | _ => Raise TypeError
  end.

Fixpoint is_prefix (s t : str) : bool :=
  match s, t with
  | [], _ => true
  | c :: s', d :: t' => (c =? d)%N && is_prefix s' t'
  | _ :: _, [] => false
  end.

Fixpoint is_infix (s t : str) : bool :=
  is_prefix s t || match t with [] => false | _ :: t' => is_infix s t' end.

(** [k in x] for a string [k] *)
Definition py_in (k : str) (x : json) : res bool :=
  match x with
  | JDict d => Ok (bool_decide (is_Some (lookup_key k d)))
  | JList l =>
      Ok (existsb (fun v => match v with JStr s => str_eqb k s | _ => false end) l)
  | JStr s => Ok (is_infix k s)
  | _ => Raise TypeError
  end.

(** ** The numeric tower *)

Inductive num : Type :=
| NInt (z : Z)
| NFloat (f : float).

Definition as_num (x : json) : option num :=
  match x with
  | JBool b => Some (NInt (if b then 1 else 0))
  | JInt z => Some (NInt z)
  | JFloat f => Some (NFloat f)
  | _ => None
  end.

Definition of_num (n : num) : json :=
  match n with
  | NInt z => JInt z
  | NFloat f => JFloat f
  end.

(** [float(z)] for an int: [OverflowError] when out of range. *)
Definition float_of_int (z : Z) : res float :=
  let f := F64.of_Z z in
  if F64.is_finite f then Ok f else Raise OverflowError.

Definition to_float (n : num) : res float :=
  match n with
  | NInt z => float_of_int z
  | NFloat f => Ok f
  end.

(** [a / b] for two ints. *)
Definition int_truediv (a b : Z) : res float :=
  match b with
  | Z0 => Raise ZeroDivisionError
  | Zpos p =>
      let f := F64.of_frac a p in
      if F64.is_finite f then Ok f else Raise OverflowError
  | Zneg p =>
      let f := F64.of_frac (- a) p in
      if F64.is_finite f then Ok f else Raise OverflowError
  end.

Definition float_op (op : float -> float -> float) (a b : num) : res num :=
  let* x := to_float a in let* y := to_float b in Ok (NFloat (op x y)).

Definition num_sub (a b : num) : res num :=
  match a, b with
  | NInt x, NInt y => Ok (NInt (x - y))
  | _, _ => float_op F64.sub a b
  end.

Definition num_mul (a b : num) : res num :=
  match a, b with
  | NInt x, NInt y => Ok (NInt (x * y))
  | _, _ => float_op F64.mul a b
  end.

Definition float_is_zero (f : float) : bool :=
  match f with S754_zero _ => true | _ => false end.

Definition num_truediv (a b : num) : res num :=
  match a, b with
  | NInt x, NInt y => let* f := int_truediv x y in Ok (NFloat f)
  | _, _ =>
      let* x := to_float a in
      let* y := to_float b in
      if float_is_zero y then Raise ZeroDivisionError
      else Ok (NFloat (F64.div x y))
  end.

Definition num_abs (a : num) : num :=
  match a with
  | NInt x => NInt (Z.abs x)
  | NFloat f => NFloat (F64.abs f)
  end.

(** [x - y], [x / y] on JSON values: numbers only. *)
Definition py_sub (x y : json) : res json :=
  match as_num x, as_num y with
  | Some a, Some b => let* r := num_sub a b in Ok (of_num r)
  | _, _ => Raise TypeError
  end.

Definition py_truediv (x y : json) : res json :=
  match as_num x, as_num y with
  | Some a, Some b => let* r := num_truediv a b in Ok (of_num r)
  | _, _ => Raise TypeError
  end.

(** [round(x, ndigits)] for [ndigits >= 0]: an int is returned as it is; a
    finite float is rounded, on its exact value, to the nearest multiple of
    [10^-ndigits] (ties to even), and the nearest float of that decimal is
    returned. *)
Definition round_half_even (q : Q) : Z :=
  let n := Qnum q in
  let d := Zpos (Qden q) in
  let fl := n / d in
  let r := n mod d in
  match (2 * r ?= d) with
  | Lt => fl
  | Gt => fl + 1
  | Eq => if Z.even fl then fl else fl + 1
  end.

Definition float_round (f : float) (ndigits : nat) : float :=
  match f with
  | S754_finite s _ _ =>
      let scale := Z.to_pos (10 ^ Z.of_nat ndigits) in
      let r := round_half_even (Qmult (F64.to_Q f) (inject_Z (Zpos scale))) in
      match r with
      | Z0 => S754_zero s
      | _ => F64.of_frac r scale
      end
  | _ => f
  end.

Definition num_round (a : num) (ndigits : nat) : num :=
  match a with
  | NInt x => NInt x
  | NFloat f => NFloat (float_round f ndigits)
  end.

(** ** Hashable values and [set]

    A [set] holds one element per class of [==] among hashable values.  Numbers
    compare by exact value across [bool], [int] and [float] ([True == 1 ==
    1.0], [0.0 == -0.0]); a number is therefore keyed by its value [m * 2^e]
    with [m] odd (or [0]).  [json.load] returns one shared object for every
    [NaN] literal, so that all of them are one element of a set.  Lists and
    objects are unhashable. *)

Inductive hkey : Type :=
| HNone
| HNum (m e : Z)
| HInf (s : bool)
| HNaN
| HStr (s : str).

Fixpoint odd_part (p : positive) : positive * Z :=
  match p with
  | xO p' => let '(m, k) := odd_part p' in (m, k + 1)
  | _ => (p, 0)
  end.

Definition key_of_dyadic (s : bool) (m : positive) (e : Z) : hkey :=
  let '(m', k) := odd_part m in
  HNum (if s then Zneg m' else Zpos m') (e + k).

Definition key_of_int (z : Z) : hkey :=
  match z with
  | Z0 => HNum 0 0
  | Zpos p => key_of_dyadic false p 0
  | Zneg p => key_of_dyadic true p 0
  end.

Definition key_of_float (f : float) : hkey :=
  match f with
  | S754_zero _ => HNum 0 0
  | S754_infinity s => HInf s
  | S754_nan => HNaN
  | S754_finite s m e => key_of_dyadic s m e
  end.

(** The key under which [x] enters a set: [TypeError] when unhashable. *)
Definition py_key (x : json) : res hkey :=
  match x with
  | JNull => Ok HNone
  | JBool b => Ok (key_of_int (if b then 1 else 0))
  | JInt z => Ok (key_of_int z)
  | JFloat f => Ok (key_of_float f)
  | JStr s => Ok (HStr s)
  | JList _ | JDict _ => Raise TypeError
  end.

#[global] Instance hkey_eq_dec : EqDecision hkey.
Proof. solve_decision. Defined.

Definition hkey_enc (k : hkey) : unit + (Z * Z) + bool + unit + list N :=
  match k with
  | HNone => inl (inl (inl (inl tt)))
  | HNum m e => inl (inl (inl (inr (m, e))))
  | HInf s => inl (inl (inr s))
  | HNaN => inl (inr tt)
  | HStr s => inr s
  end.

Definition hkey_dec (x : unit + (Z * Z) + bool + unit + list N) : hkey :=
  match x with
  | inl (inl (inl (inl _))) => HNone
  | inl (inl (inl (inr (m, e)))) => HNum m e
  | inl (inl (inr s)) => HInf s
  | inl (inr _) => HNaN
  | inr s => HStr s
  end.

#[global] Instance hkey_countable : Countable hkey.
Proof.
  apply (inj_countable' hkey_enc hkey_dec).
  intros []; reflexivity.
Defined.

(** [set(xs)]: the elements are added in order; the first unhashable one
    raises. *)
Fixpoint py_set (xs : list json) : res (gset hkey) :=
  match xs with
  | [] => Ok ∅
  | x :: xs' =>
      let* k := py_key x in
      let* s := py_set xs' in
      Ok ({[ k ]} ∪ s)
  end.

(** ** [statistics.mean]

    Every item is turned into an exact ratio ([_exact_ratio]); a value that is
    not a number raises [TypeError].  When an infinity or a NaN is among the
    data the sum is the float sum of those items alone; otherwise it is the
    exact sum, as a fraction.  The result type is [float] as soon as one item
    is a float, [int] otherwise; an [int] result that is not integral is
    returned as a float. *)

Inductive ratio_item : Type :=
| Exact (q : Q) (is_float : bool)
| NonFinite (f : float).

Definition exact_ratio (x : json) : res ratio_item :=
  match x with
  | JBool b => Ok (Exact (inject_Z (if b then 1 else 0)) false)
  | JInt z => Ok (Exact (inject_Z z) false)
  | JFloat f =>
      if F64.is_finite f then Ok (Exact (F64.to_Q f) true) else Ok (NonFinite f)
  | _ => Raise TypeError
  end.

Definition item_is_float (i : ratio_item) : bool :=
  match i with
  | Exact _ b => b
  | NonFinite _ => true
  end.

(** [partials[None]]: [0 + x1 + x2 + ...] over the non-finite items. *)
Fixpoint nonfinite_sum (acc : option float) (l : list ratio_item) : option float :=
  match l with
  | [] => acc
  | NonFinite f :: l' =>
      nonfinite_sum (Some (match acc with None => f | Some a => F64.add a f end)) l'
  | Exact _ _ :: l' => nonfinite_sum acc l'
  end.

Fixpoint exact_sum (l : list ratio_item) : Q :=
  match l with
  | [] => 0%Q
  | Exact q _ :: l' => Qplus q (exact_sum l')
  | NonFinite _ :: l' => exact_sum l'
  end.

(** [float(Fraction(n, d))], that is [n / d] on ints. *)
Definition float_of_fraction (q : Q) : res float :=
  int_truediv (Qnum q) (Zpos (Qden q)).

Definition statistics_mean (data : list json) : res num :=
  let* items := mapM exact_ratio data in
  let n := Z.of_nat (length items) in
  if n <? 1 then Raise StatisticsError
  else
    match nonfinite_sum None items with
    | Some total =>
        let* r := num_truediv (NFloat total) (NInt n) in Ok r
    | None =>
        let mean := Qdiv (exact_sum items) (inject_Z n) in
        let mean := Qred mean in
        if existsb item_is_float items then
          let* f := float_of_fraction mean in Ok (NFloat f)
        else if Pos.eqb (Qden mean) 1 then Ok (NInt (Qnum mean))
        else let* f := float_of_fraction mean in Ok (NFloat f)
    end.

(** ** [normalize_data] *)

(** The normalised transcript [norm]; the fields a provider may fill with
    any JSON value are kept as JSON values. *)
Record norm : Type := Norm {
  text : json;
  start : json;
  end_ : json;
  duration : json;
  confidence : json;
  speakers : Z;
  word_count : Z
}.

Definition set_text (v : json) (n : norm) : norm :=
  Norm v (start n) (end_ n) (duration n) (confidence n) (speakers n) (word_count n).
Definition set_start (v : json) (n : norm) : norm :=
  Norm (text n) v (end_ n) (duration n) (confidence n) (speakers n) (word_count n).
Definition set_end (v : json) (n : norm) : norm :=
  Norm (text n) (start n) v (duration n) (confidence n) (speakers n) (word_count n).
Definition set_duration (v : json) (n : norm) : norm :=
  Norm (text n) (start n) (end_ n) v (confidence n) (speakers n) (word_count n).
Definition set_confidence (v : json) (n : norm) : norm :=
  Norm (text n) (start n) (end_ n) (duration n) v (speakers n) (word_count n).
Definition set_speakers (v : Z) (n : norm) : norm :=
  Norm (text n) (start n) (end_ n) (duration n) (confidence n) v (word_count n).
Definition set_word_count (v : Z) (n : norm) : norm :=
  Norm (text n) (start n) (end_ n) (duration n) (confidence n) (speakers n) v.

Definition norm_init : norm :=
  {| text := JStr [];
     start := JFloat F64.zero;
     end_ := JFloat F64.zero;
     duration := JFloat F64.zero;
     confidence := JFloat F64.zero;
     speakers := 0;
     word_count := 0 |}.

(** [statistics.mean(confs) * 100] *)
Definition mean_percent (confs : list json) : res json :=
  let* m := statistics_mean confs in
  let* c := num_mul m (NInt 100) in
  Ok (of_num c).

(** [set(val(w) for w in ws if cond(w))], the items taken one at a time. *)
Fixpoint set_comprehension (cond : json -> res bool) (val : json -> res json)
    (ws : list json) (acc : gset hkey) : res (gset hkey) :=
  match ws with
  | [] => Ok acc
  | w :: ws' =>
      let* c := cond w in
      if c then
        let* v := val w in
        let* k := py_key v in
        set_comprehension cond val ws' (acc ∪ {[ k ]})
      else set_comprehension cond val ws' acc
  end.

(** [len(speakers) if speakers else 1] *)
Definition speaker_count (s : gset hkey) : Z :=
  if decide (s = ∅) then 1 else Z.of_nat (size s).

Definition get_speaker (w : json) : res json := py_get w (lit "speaker") JNull.

Definition openai_branch (data : json) (n : norm) : res (norm * json) :=
  let* t := py_get data (lit "text") (JStr []) in
  let n := set_text t n in
  let* words := py_get data (lit "words") (JList []) in
  let* n :=
    if truthy words then
      let* w0 := py_first words in
      let* s := py_get w0 (lit "start") (JInt 0) in
      let n := set_start s n in
      let* wl := py_last words in
      let* e := py_get wl (lit "end") (JInt 0) in
      let n := set_end e n in
      let* ws := py_iter words in
      let* confs := mapM (fun w => py_get w (lit "confidence") (JFloat F64.one)) ws in
      let* c := if truthy (JList confs) then mean_percent confs else Ok (JInt 0) in
      Ok (set_confidence c n)
    else Ok n in
  Ok (set_speakers 1 n, words).

(** [data.get("results", {}).get("channels", [{}])[0].get("alternatives",
    [{}])[0]] *)
Definition deepgram_alt (data : json) : res json :=
  let* results := py_get data (lit "results") (JDict []) in
  let* channels := py_get results (lit "channels") (JList [JDict []]) in
  let* channel := py_first channels in
  let* alternatives := py_get channel (lit "alternatives") (JList [JDict []]) in
  py_first alternatives.

Definition deepgram_branch (data : json) (n : norm) : res (norm * json) :=
  let* alt := deepgram_alt data in
  let* t := py_get alt (lit "transcript") (JStr []) in
  let n := set_text t n in
  let* words := py_get alt (lit "words") (JList []) in
  let* n :=
    if truthy words then
      let* w0 := py_first words in
      let* s := py_get w0 (lit "start") (JInt 0) in
      let n := set_start s n in
      let* wl := py_last words in
      let* e := py_get wl (lit "end") (JInt 0) in
      let n := set_end e n in
      let* ws := py_iter words in
      let* spk := set_comprehension (py_in (lit "speaker")) get_speaker ws ∅ in
      let n := set_speakers (speaker_count spk) n in
      let* confs := mapM (fun w => py_get w (lit "confidence") (JInt 0)) ws in
      let* c := mean_percent confs in
      Ok (set_confidence c n)
    else Ok n in
  Ok (n, words).

Definition is_not_none (x : json) : bool :=
  match x with JNull => false | _ => true end.

Definition assemblyai_branch (data : json) (n : norm) : res (norm * json) :=
  let* t := py_get data (lit "text") (JStr []) in
  let n := set_text t n in
  let* words := py_get data (lit "words") (JList []) in
  let* n :=
    if truthy words then
      let* w0 := py_first words in
      let* s0 := py_get w0 (lit "start") (JInt 0) in
      let* s := py_truediv s0 (JFloat F64.thousand) in
      let n := set_start s n in
      let* wl := py_last words in
      let* e0 := py_get wl (lit "end") (JInt 0) in
      let* e := py_truediv e0 (JFloat F64.thousand) in
      let n := set_end e n in
      let* ws := py_iter words in
      let* spk :=
        set_comprehension
          (fun w => let* v := get_speaker w in Ok (is_not_none v))
          get_speaker ws ∅ in
      let n := set_speakers (speaker_count spk) n in
      let* confs := mapM (fun w => py_get w (lit "confidence") (JInt 0)) ws in
      let* c := mean_percent confs in
      Ok (set_confidence c n)
    else Ok n in
  Ok (n, words).

Definition OpenAI : str := lit "OpenAI".
Definition Deepgram : str := lit "Deepgram".
Definition AssemblyAI : str := lit "AssemblyAI".

(** The body of the [try] block. *)
Definition normalize_try (data : json) (provider : str) : res norm :=
  let* '(n, words) :=
    if str_eqb provider OpenAI then openai_branch data norm_init
    else if str_eqb provider Deepgram then deepgram_branch data norm_init
    else if str_eqb provider AssemblyAI then assemblyai_branch data norm_init
    else Ok (norm_init, JList []) in
  let* wc := py_len words in
  let n := set_word_count wc n in
  let* d := py_sub (end_ n) (start n) in
  Ok (set_duration d n).

(** A line printed on the console. *)
Inductive line : Type :=
| ErrorParseando (provider : str) (e : exn).

(** [normalize_data(data, provider)]: the value returned and the lines
    printed. *)
Definition normalize_data (data : json) (provider : str) : option norm * list line :=
  if negb (truthy data) then (None, [])
  else
    match normalize_try data provider with
    | Ok n => (Some n, [])
    | Raise e => (None, [ErrorParseando provider e])
    end.

(** ** [difflib.SequenceMatcher(None, a, b)]

    The matcher of CPython's [difflib], for two strings, with [isjunk = None]
    (no junk) and [autojunk = True].  Indices are Python ints. *)

Module Difflib.

Definition region : Type := Z * Z * Z * Z.   (* alo, ahi, blo, bhi *)
Definition block : Type := Z * Z * Z.        (* i, j, k *)

Record matcher : Type := Matcher {
  seq_a : str;
  seq_b : str;
  b2j : gmap char (list Z);
  bjunk : gset char
}.

Definition enumerate {A} (l : list A) : list (Z * A) :=
  imap (fun i x => (Z.of_nat i, x)) l.

(** [b2j.setdefault(elt, []).append(i)] *)
Definition b2j_append (m : gmap char (list Z)) (ie : Z * char) : gmap char (list Z) :=
  <[ ie.2 := default [] (m !! ie.2) ++ [ie.1] ]> m.

(** [__chain_b]: the positions of every element of [b], the popular elements
    purged when [b] has 200 elements or more. *)
Definition chain_b (b : str) : gmap char (list Z) :=
  let b2j := foldl b2j_append ∅ (enumerate b) in
  let n := Z.of_nat (length b) in
  if 200 <=? n then
    let ntest := n / 100 + 1 in
    let popular : gset char :=
      dom (filter (fun kv => ntest < Z.of_nat (length kv.2)) b2j) in
    set_fold (fun elt m => delete elt m) b2j popular
  else b2j.

Definition new_matcher (a b : str) : matcher :=
  {| seq_a := a; seq_b := b; b2j := chain_b b; bjunk := ∅ |}.

Definition at_ (s : str) (i : Z) : option char :=
  if i <? 0 then None else s !! Z.to_nat i.

Section FindLongestMatch.
Variable sm : matcher.
Variables alo ahi blo bhi : Z.

(** [for j in b2j.get(a[i], nothing)], with its [continue] and [break]. *)
Fixpoint row_loop (i : Z) (j2len : gmap Z Z) (js : list Z)
    (newj2len : gmap Z Z) (best : block) : gmap Z Z * block :=
  match js with
  | [] => (newj2len, best)
  | j :: js' =>
      if j <? blo then row_loop i j2len js' newj2len best
      else if bhi <=? j then (newj2len, best)
      else
        let k := default 0 (j2len !! (j - 1)) + 1 in
        let newj2len := <[ j := k ]> newj2len in
        let best := if best.2 <? k then (i - k + 1, j - k + 1, k) else best in
        row_loop i j2len js' newj2len best
  end.

(** [for i in range(alo, ahi)] *)
Fixpoint rows_loop (rows : list Z) (j2len : gmap Z Z) (best : block) : block :=
  match rows with
  | [] => best
  | i :: rows' =>
      let js := default [] (c ← at_ (seq_a sm) i; b2j sm !! c) in
      let '(newj2len, best) := row_loop i j2len js ∅ best in
      rows_loop rows' newj2len best
  end.

Definition isbjunk (c : option char) : bool :=
  match c with
  | Some c => bool_decide (c ∈ bjunk sm)
  | None => false
  end.

Definition same_elt (x y : option char) : bool :=
  match x, y with
  | Some c, Some d => (c =? d)%N
  | _, _ => false
  end.

(** [while besti > alo and bestj > blo and (not) isbjunk(b[bestj-1]) and
    a[besti-1] == b[bestj-1]]; it runs at most [besti - alo] times. *)
Fixpoint extend_left (n : nat) (junk : bool) (best : block) : block :=
  let '(besti, bestj, bestsize) := best in
  match n with
  | O => best
  | S n' =>
      if (alo <? besti) && (blo <? bestj)
         && eqb (isbjunk (at_ (seq_b sm) (bestj - 1))) junk
         && same_elt (at_ (seq_a sm) (besti - 1)) (at_ (seq_b sm) (bestj - 1))
      then extend_left n' junk (besti - 1, bestj - 1, bestsize + 1)
      else best
  end.

(** [while besti+bestsize < ahi and bestj+bestsize < bhi and (not)
    isbjunk(b[bestj+bestsize]) and a[besti+bestsize] == b[bestj+bestsize]];
    it runs at most [ahi - (besti + bestsize)] times. *)
Fixpoint extend_right (n : nat) (junk : bool) (best : block) : block :=
  let '(besti, bestj, bestsize) := best in
  match n with
  | O => best
  | S n' =>
      if (besti + bestsize <? ahi) && (bestj + bestsize <? bhi)
         && eqb (isbjunk (at_ (seq_b sm) (bestj + bestsize))) junk
         && same_elt (at_ (seq_a sm) (besti + bestsize))
              (at_ (seq_b sm) (bestj + bestsize))
      then extend_right n' junk (besti, bestj, bestsize + 1)
      else best
  end.

Definition left_room (best : block) : nat := Z.to_nat (best.1.1 - alo).
Definition right_room (best : block) : nat :=
  Z.to_nat (ahi - (best.1.1 + best.2)).

Definition find_longest_match : block :=
  let best := (alo, blo, 0) in
  let best := rows_loop (seqZ alo (ahi - alo)) ∅ best in
  let best := extend_left (left_room best) false best in
  let best := extend_right (right_room best) false best in
  let best := extend_left (left_room best) true best in
  let best := extend_right (right_room best) true best in
  best.
End FindLongestMatch.

(** One turn of [while queue:]; the head of [queue] is the item [pop()]
    takes. *)
Definition blocks_step (sm : matcher) (queue : list region) (blocks : list block)
    : list region * list block :=
  match queue with
  | [] => (queue, blocks)
  | (alo, ahi, blo, bhi) :: queue =>
      let '(i, j, k) := find_longest_match sm alo ahi blo bhi in
      if k =? 0 then (queue, blocks)
      else
        let blocks := blocks ++ [(i, j, k)] in
        let queue :=
          if (alo <? i) && (blo <? j) then (alo, i, blo, j) :: queue else queue in
        let queue :=
          if (i + k <? ahi) && (j + k <? bhi) then (i + k, ahi, j + k, bhi) :: queue
          else queue in
        (queue, blocks)
  end.

(** The loop, run for at most [fuel] turns. *)
Fixpoint blocks_loop (sm : matcher) (fuel : nat) (queue : list region)
    (blocks : list block) : list region * list block :=
  match fuel, queue with
  | S fuel', _ :: _ =>
      let '(queue, blocks) := blocks_step sm queue blocks in
      blocks_loop sm fuel' queue blocks
  | _, _ => (queue, blocks)
  end.

(** Tuples compare lexicographically. *)
Definition block_le (x y : block) : Prop :=
  let '(i1, j1, k1) := x in
  let '(i2, j2, k2) := y in
  i1 < i2 \/ (i1 = i2 /\ (j1 < j2 \/ (j1 = j2 /\ k1 <= k2))).

#[global] Instance block_le_dec : RelDecision block_le.
Proof. intros [[i1 j1] k1] [[i2 j2] k2]. unfold block_le. apply _. Defined.

(** The merging of adjacent blocks. *)
Fixpoint collapse (blocks : list block) (cur : block) (non_adjacent : list block)
    : list block :=
  let '(i1, j1, k1) := cur in
  match blocks with
  | [] => if k1 =? 0 then non_adjacent else non_adjacent ++ [cur]
  | (i2, j2, k2) :: rest =>
      if (i1 + k1 =? i2) && (j1 + k1 =? j2)
      then collapse rest (i1, j1, k1 + k2) non_adjacent
      else collapse rest (i2, j2, k2)
             (if k1 =? 0 then non_adjacent else non_adjacent ++ [cur])
  end.

(** The number of turns after which the queue of [get_matching_blocks] is
    empty. *)
Definition enough_fuel (sm : matcher) : nat := 2 * length (seq_a sm) + 1.

Definition get_matching_blocks (sm : matcher) : list block :=
  let la := Z.of_nat (length (seq_a sm)) in
  let lb := Z.of_nat (length (seq_b sm)) in
  let '(_, matching_blocks) :=
    blocks_loop sm (enough_fuel sm) [(0, la, 0, lb)] [] in
  let matching_blocks := merge_sort block_le matching_blocks in
  collapse matching_blocks (0, 0, 0) [] ++ [(la, lb, 0)].

Definition sum_sizes (bs : list block) : Z := foldr (fun b s => b.2 + s) 0 bs.

(** [_calculate_ratio]: [2.0 * matches / length], or [1.0]. *)
Definition calculate_ratio (matches length : Z) : res num :=
  if length =? 0 then Ok (NFloat F64.one)
  else
    let* twice := num_mul (NFloat F64.two) (NInt matches) in
    num_truediv twice (NInt length).

Definition ratio (sm : matcher) : res num :=
  let matches := sum_sizes (get_matching_blocks sm) in
  calculate_ratio matches (Z.of_nat (length (seq_a sm)) + Z.of_nat (length (seq_b sm))).

End Difflib.

(** ** [get_similarity] and the report *)

(** What a computation outside [normalize_data] does: it returns or raises
    ([Known]), or it is left out of this development ([NotModelled]: a
    transcript text that is a JSON array or object, which [difflib] would take
    as a sequence of its own). *)
Inductive outcome (A : Type) : Type :=
| Known (r : res A)
| NotModelled.
Arguments Known {A} r.
Arguments NotModelled {A}.

Definition obind {A B} (c : outcome A) (k : A -> outcome B) : outcome B :=
  match c with
  | Known (Ok a) => k a
  | Known (Raise e) => Known (Raise e)
  | NotModelled => NotModelled
  end.

Notation "'do*' x ':=' c 'in' k" := (obind c (fun x => k))
  (at level 10, x name, c at level 100, k at level 200).

Definition returns {A} (a : A) : outcome A := Known (Ok a).

(** [difflib.SequenceMatcher(None, text1, text2).ratio()]: a number has no
    length and cannot be iterated. *)
Definition sequence_ratio (text1 text2 : json) : outcome num :=
  match text1, text2 with
  | JStr a, JStr b => Known (Difflib.ratio (Difflib.new_matcher a b))
  | (JNull | JBool _ | JInt _ | JFloat _), _ => Known (Raise TypeError)
  | _, (JNull | JBool _ | JInt _ | JFloat _) => Known (Raise TypeError)
  | _, _ => NotModelled
  end.

Definition get_similarity (text1 text2 : json) : outcome num :=
  if negb (truthy text1) || negb (truthy text2) then returns (NFloat F64.zero)
  else sequence_ratio text1 text2.

(** [round(x, ndigits)] and [abs(x - y)] on JSON values. *)
Definition py_round (x : json) (ndigits : nat) : res num :=
  match as_num x with
  | Some n => Ok (num_round n ndigits)
  | None => Raise TypeError
  end.

Definition abs_diff (x y : json) : res num :=
  match as_num x, as_num y with
  | Some a, Some b => let* d := num_sub a b in Ok (num_abs d)
  | _, _ => Raise TypeError
  end.

(** One row of the report. *)
Record row : Type := Row {
  Audio_ID : str;
  OAI_Words : Z;
  DG_Words : Z;
  AAI_Words : Z;
  OAI_Conf : num;
  DG_Conf : num;
  AAI_Conf : num;
  Sim_OAI_vs_DG : num;
  Sim_OAI_vs_AAI : num;
  Sim_DG_vs_AAI : num;
  Start_Diff_OAI_DG : option num;
  Start_Diff_DG_AAI : option num;
  DG_Speakers : Z;
  AAI_Speakers : Z
}.

(** [d["word_count"] if d else 0] *)
Definition words_of (d : option norm) : Z :=
  match d with
  | Some n => word_count n
  | None => 0
  end.

(** [round(d["confidence"], 2) if d else 0] *)
Definition conf_of (d : option norm) : res num :=
  match d with
  | Some n => py_round (confidence n) 2
  | None => Ok (NInt 0)
  end.

(** [round(get_similarity(x["text"], y["text"]) * 100, 2) if x and y else 0] *)
Definition sim_of (x y : option norm) : outcome num :=
  match x, y with
  | Some n, Some m =>
      do* s := get_similarity (text n) (text m) in
      do* p := Known (num_mul s (NInt 100)) in
      returns (num_round p 2)
  | _, _ => returns (NInt 0)
  end.

(** [round(abs(x["start"] - y["start"]), 3)] when both are there, else
    [None]. *)
Definition start_diff_of (x y : option norm) : res (option num) :=
  match x, y with
  | Some n, Some m =>
      let* d := abs_diff (start n) (start m) in
      Ok (Some (num_round d 3))
  | _, _ => Ok None
  end.

(** [d["speakers"] if d else 0] *)
Definition speakers_of (d : option norm) : Z :=
  match d with
  | Some n => speakers n
  | None => 0
  end.

(** The row of one identifier, from its three normalised transcripts. *)
Definition make_row (audio_id : str) (d_oai d_dg d_aai : option norm) : outcome row :=
  do* oai_conf := Known (conf_of d_oai) in
  do* dg_conf := Known (conf_of d_dg) in
  do* aai_conf := Known (conf_of d_aai) in
  do* sim_oai_dg := sim_of d_oai d_dg in
  do* sim_oai_aai := sim_of d_oai d_aai in
  do* sim_dg_aai := sim_of d_dg d_aai in
  do* diff_oai_dg := Known (start_diff_of d_oai d_dg) in
  do* diff_dg_aai := Known (start_diff_of d_dg d_aai) in
  returns
    {| Audio_ID := audio_id;
       OAI_Words := words_of d_oai;
       DG_Words := words_of d_dg;
       AAI_Words := words_of d_aai;
       OAI_Conf := oai_conf;
       DG_Conf := dg_conf;
       AAI_Conf := aai_conf;
       Sim_OAI_vs_DG := sim_oai_dg;
       Sim_OAI_vs_AAI := sim_oai_aai;
       Sim_DG_vs_AAI := sim_dg_aai;
       Start_Diff_OAI_DG := diff_oai_dg;
       Start_Diff_DG_AAI := diff_dg_aai;
       DG_Speakers := speakers_of d_dg;
       AAI_Speakers := speakers_of d_aai |}.

(** What [load_json] returned for the three files of one identifier: the
    loaded value, or [None] ([JNull]) for a file that is missing or cannot be
    read or parsed. *)
Record loaded : Type := Loaded {
  audio_id : str;
  raw_openai : json;
  raw_deepgram : json;
  raw_assembly : json
}.

(** One turn of [for audio_id in sorted(unique_ids)]. *)
Definition analyse (f : loaded) : outcome row :=
  let d_oai := (normalize_data (raw_openai f) OpenAI).1 in
  let d_dg := (normalize_data (raw_deepgram f) Deepgram).1 in
  let d_aai := (normalize_data (raw_assembly f) AssemblyAI).1 in
  make_row (audio_id f) d_oai d_dg d_aai.

(** The whole loop: [all_rows], unless a turn raises. *)
Fixpoint all_rows (files : list loaded) : outcome (list row) :=
  match files with
  | [] => returns []
  | f :: files' =>
      do* r := analyse f in
      do* rs := all_rows files' in
      returns (r :: rs)
  end.

(** ** The identifiers of the main script *)

(** [s.split(sep)[0]] for a non-empty [sep]: what comes before the first
    occurrence of [sep], all of [s] when there is none. *)
Fixpoint before_first (sep s : str) : str :=
  if is_prefix sep s then []
  else
    match s with
    | [] => []
    | c :: s' => c :: before_first sep s'
    end.

(** The identifier a file name gives, if any: the [if]/[elif] chain over
    ["_openai"], ["_deepgram"] and ["_assembly"]. *)
Definition id_of_filename (filename : str) : option str :=
  if is_infix (lit "_openai") filename
  then Some (before_first (lit "_openai") filename)
  else if is_infix (lit "_deepgram") filename
  then Some (before_first (lit "_deepgram") filename)
  else if is_infix (lit "_assembly") filename
  then Some (before_first (lit "_assembly") filename)
  else None.

(** [unique_ids] after [for f in files], from the base names of [files]. *)
Definition unique_ids (filenames : list str) : gset str :=
  foldl
    (fun ids filename =>
       match id_of_filename filename with
       | Some i => ids ∪ {[ i ]}
       | None => ids
       end)
    ∅ filenames.

(** [s <= t] on strings: the first code point that differs decides, and a
    prefix comes first. *)
Fixpoint str_leb (s t : str) : bool :=
  match s, t with
  | [], _ => true
  | _ :: _, [] => false
  | c :: s', d :: t' =>
      if (c <? d)%N then true else if (c =? d)%N then str_leb s' t' else false
  end.

Definition str_le (s t : str) : Prop := str_leb s t = true.

#[global] Instance str_le_dec : RelDecision str_le.
Proof. intros s t. unfold str_le. apply _. Defined.

(** [sorted(unique_ids)] *)
Definition sorted_ids (ids : gset str) : list str := merge_sort str_le (elements ids).

(** [f"{audio_id}_{prov}.json"] *)
Definition file_name (audio_id prov : str) : str :=
  audio_id ++ lit "_" ++ prov ++ lit ".json".

(** The files of the folder: [dir] maps the name of each file that exists
    to what [load_json] returns for it ([JNull] for a file that cannot be
    read or parsed).  A file that is not found is loaded as [None]. *)
Definition found (dir : gmap str json) (audio_id prov : str) : json :=
  default JNull (dir !! file_name audio_id prov).

Definition loaded_of (dir : gmap str json) (id : str) : loaded :=
  {| audio_id := id;
     raw_openai := found dir id (lit "openai");
     raw_deepgram := found dir id (lit "deepgram");
     raw_assembly := found dir id (lit "assembly") |}.

(** The rows of the report, from the base names of the files found and the
    content of the folder. *)
Definition main_rows (dir : gmap str json) (filenames : list str) : outcome (list row) :=
  all_rows (loaded_of dir <$> sorted_ids (unique_ids filenames)).

(** * Vocabulary of the statements *)

(** ** Responses and their words *)

Definition providers : list str := [OpenAI; Deepgram; AssemblyAI].

(** The word list a branch of [normalize_data] reads: Deepgram keeps it in
    the first alternative of the first channel, the other two at top level. *)
Definition response_words (provider : str) (data : json) : res json :=
  if str_eqb provider Deepgram then
    let* alt := deepgram_alt data in py_get alt (lit "words") (JList [])
  else py_get data (lit "words") (JList []).

(** AssemblyAI's times are divided by [1000.0], the others are kept. *)
Definition to_seconds (provider : str) (x : json) : res json :=
  if str_eqb provider AssemblyAI then py_truediv x (JFloat F64.thousand) else Ok x.

(** The default of [w.get('confidence', ...)] in each branch. *)
Definition default_confidence (provider : str) : json :=
  if str_eqb provider OpenAI then JFloat F64.one else JInt 0.

(** What the three branches share once [words] is there: the times, the
    speaker count and the confidence are set from a non-empty list only. *)
Inductive filled (sec : json -> res json) (dflt : json)
    (spk : list json -> norm -> res Z) (n0 : norm) (words : json) (n : norm) : Prop :=
| filled_empty :
    truthy words = false -> n = n0 -> filled sec dflt spk n0 words n
| filled_words w0 wl s0 e0 s e ws confs c k :
    truthy words = true ->
    py_first words = Ok w0 -> py_last words = Ok wl ->
    py_iter words = Ok ws ->
    py_get w0 (lit "start") (JInt 0) = Ok s0 -> sec s0 = Ok s ->
    py_get wl (lit "end") (JInt 0) = Ok e0 -> sec e0 = Ok e ->
    mapM (fun w => py_get w (lit "confidence") dflt) ws = Ok confs ->
    mean_percent confs = Ok c ->
    spk ws n0 = Ok k ->
    n = set_confidence c (set_speakers k (set_end e (set_start s n0))) ->
    filled sec dflt spk n0 words n.

(** The speaker count of a non-empty word list, as each branch computes it. *)
Definition speakers_code (provider : str) (ws : list json) : res Z :=
  if str_eqb provider OpenAI then Ok 1
  else if str_eqb provider Deepgram then
    let* spk := set_comprehension (py_in (lit "speaker")) get_speaker ws ∅ in
    Ok (speaker_count spk)
  else
    let* spk :=
      set_comprehension (fun w => let* v := get_speaker w in Ok (is_not_none v))
        get_speaker ws ∅ in
    Ok (speaker_count spk).

(** ** Speaker values *)

(** The value under ["speaker"] of a word entry that has the key. *)
Definition speaker_field (w : json) : option json :=
  match w with
  | JDict d => lookup_key (lit "speaker") d
  | _ => None
  end.

Definition speaker_values (ws : list json) : list json := omap speaker_field ws.

Definition hashable_key (x : json) : option hkey :=
  match py_key x with
  | Ok k => Some k
  | Raise _ => None
  end.

(** The number of values that differ under Python's [==]: [1], [1.0] and
    [True] are one value. *)
Definition distinct_count (vals : list json) : Z :=
  Z.of_nat (length (remove_dups (omap hashable_key vals))).

(** [len(speakers) if speakers else 1] *)
Definition one_if_none (c : Z) : Z := if c =? 0 then 1 else c.

Definition is_dict (w : json) : Prop := exists d, w = JDict d.

(** The rule in the words of the specification: [1] for OpenAI; for the other
    two the number of distinct non-null speaker values, and [1] when no word
    has the field. *)
Definition claimed_speakers (provider : str) (ws : list json) : Z :=
  if str_eqb provider OpenAI then 1
  else
    match speaker_values ws with
    | [] => 1
    | vals => distinct_count (filter (fun v => is_not_none v) vals)
    end.

(** ** Sample responses *)

Definition flat_response (t : json) (ws : list json) : json :=
  JDict [(lit "text", t); (lit "words", JList ws)].

Definition deepgram_response (t : json) (ws : list json) : json :=
  JDict [(lit "results",
    JDict [(lit "channels",
      JList [JDict [(lit "alternatives",
        JList [JDict [(lit "transcript", t); (lit "words", JList ws)]])]])])].

Definition response (provider : str) (t : json) (ws : list json) : json :=
  if str_eqb provider Deepgram then deepgram_response t ws else flat_response t ws.

Definition timed_word (s e c : json) : json :=
  JDict [(lit "start", s); (lit "end", e); (lit "confidence", c)].

(** Two words, the first with [speaker: null]. *)
Definition null_then_zero : list json :=
  [JDict [(lit "speaker", JNull)]; JDict [(lit "speaker", JInt 0)]].

(** Two words whose times go backwards. *)
Definition disordered : list json :=
  [timed_word (JInt 5) (JInt 6) (JFloat F64.one);
   timed_word (JInt 1) (JInt 2) (JFloat F64.one)].

Definition f0_5 : float := F64.dec 5 1.
Definition f0_7 : float := F64.dec 7 1.
Definition f0_9 : float := F64.dec 9 1.
Definition f70 : float := Eval vm_compute in F64.of_Z 70.

Definition conf_word (c : float) : json := JDict [(lit "confidence", JFloat c)].
Definition three_words : list json := [conf_word f0_5; conf_word f0_7; conf_word f0_9].

(** ** Rows *)

(** How many of the three normalised transcripts are [None]. *)
Definition absent_count (a b c : option norm) : nat :=
  length (filter (fun d => d = None) [a; b; c]).

(** Only Deepgram's file is there. *)
Definition only_deepgram : loaded :=
  {| audio_id := lit "1";
     raw_openai := JNull;
     raw_deepgram := deepgram_response (JStr (lit "hello world")) three_words;
     raw_assembly := JNull |}.

(** OpenAI's file is missing and Deepgram's transcript is the number [5]. *)
Definition number_as_text : loaded :=
  {| audio_id := lit "1";
     raw_openai := JNull;
     raw_deepgram := deepgram_response (JInt 5) [];
     raw_assembly := flat_response (JStr (lit "hola")) [] |}.

(** A text for which [get_similarity] answers [0.0] at once. *)
Definition empty_text (x : json) : Prop := x = JNull \/ x = JStr [].

(** ** Matching blocks *)

Import Difflib.

(** A block inside a region. *)
Definition block_in (r : region) (x : block) : Prop :=
  let '(alo, ahi, blo, bhi) := r in
  let '(i, j, k) := x in
  0 <= k /\ alo <= i /\ i + k <= ahi /\ blo <= j /\ j + k <= bhi.

Definition region_ok (r : region) : Prop :=
  let '(alo, ahi, blo, bhi) := r in alo <= ahi /\ blo <= bhi.

(** What [j2len] holds when row [i] starts: lengths of matches that end in
    row [i - 1], inside the region. *)
Definition j2len_ok (alo blo bhi : Z) (i : Z) (m : gmap Z Z) : Prop :=
  forall j v, m !! j = Some v -> 1 <= v /\ v <= i - alo /\ v <= j - blo + 1 /\ j < bhi.

(** The measure that bounds the turns of [while queue:]. *)
Definition width_a (r : region) : Z := r.1.1.2 - r.1.1.1.
Definition width_b (r : region) : Z := r.2 - r.1.2.
Definition total (w : region -> Z) (q : list region) : Z := foldr (fun r s => w r + s) 0 q.
Definition turns (q : list region) : Z := total (fun r => 2 * width_a r + 1) q.

Record loop_inv (la lb : Z) (q : list region) (bs : list block) : Prop := {
  inv_regions : Forall region_ok q;
  inv_sizes : Forall (fun b : block => 0 < b.2) bs;
  inv_a : sum_sizes bs + total width_a q <= la;
  inv_b : sum_sizes bs + total width_b q <= lb
}.

(** The positions of [c] in [l], counted from [k], in ascending order. *)
Fixpoint pos_from (k : Z) (l : str) (c : char) : list Z :=
  match l with
  | [] => []
  | x :: l' => (if (x =? c)%N then [k] else []) ++ pos_from (k + 1) l' c
  end.

(** An element of [a] that the index of [a] has kept. *)
Definition keyed (a : str) (c : option char) : bool :=
  match c with
  | Some c => bool_decide (is_Some (chain_b a !! c))
  | None => false
  end.

(** The length of the run of indexed elements that ends at [j]. *)
Fixpoint run (a : str) (j : nat) : Z :=
  if keyed a (a !! j) then match j with O => 0 | S j' => run a j' end + 1 else 0.

Definition diag (a : str) (z : Z) : Z := if z <? 0 then 0 else run a (Z.to_nat z).

(** The indices looked at in row [i] when [a] is matched against itself. *)
Definition row_indices (a : str) (i : Z) : list Z :=
  default [] (at_ (seq_a (new_matcher a a)) i ≫= fun c => b2j (new_matcher a a) !! c).

(** One turn of the inner loop of [find_longest_match], in closed form. *)
Definition kval (j2len : gmap Z Z) (j : Z) : Z := default 0 (j2len !! (j - 1)) + 1.

Definition best_step (i : Z) (j2len : gmap Z Z) (b : block) (j : Z) : block :=
  if b.2 <? kval j2len j
  then (i - kval j2len j + 1, j - kval j2len j + 1, kval j2len j) else b.

(** What holds when row [i] starts, for a string against itself: the best
    block lies on the diagonal and is at least as long as every run seen. *)
Definition row_inv (a : str) (i : Z) (j2len : gmap Z Z) (best : block) : Prop :=
  (forall j v, j2len !! j = Some v -> v <= diag a j /\ v <= diag a (i - 1)) /\
  default 0 (j2len !! (i - 1)) = diag a (i - 1) /\
  best.1.1 = best.1.2 /\
  (forall j, 0 <= j < i -> diag a j <= best.2) /\
  0 <= best.2.

(** ** Binary64 numbers in normal form *)

Definition p52 : Z := 4503599627370496.
Definition p53 : Z := 9007199254740992.
Definition p54 : Z := 18014398509481984.

(** A float with a 53-bit mantissa and an exponent in range is its own
    rounding. *)
Definition normal (m : positive) (e : Z) : Prop :=
  p52 <= Zpos m < p53 /\ -1074 <= e <= 971.


(** ** More sample values *)

Definition f100 : float := Eval vm_compute in F64.of_Z 100.

(** A word entry without the key [k]. *)
Definition lacks (k : str) (w : json) : Prop :=
  exists d, w = JDict d /\ lookup_key k d = None.

(** The object [alt] that Deepgram's branch reads when a level of the
    response is missing: [{}]. *)
Definition level_missing (data : json) : Prop :=
  exists d,
    data = JDict d /\
    match lookup_key (lit "results") d with
    | None => True
    | Some (JDict r) =>
        match lookup_key (lit "channels") r with
        | None => True
        | Some (JList (JDict c :: _)) => lookup_key (lit "alternatives") c = None
        | _ => False
        end
    | _ => False
    end.

(** A list of channels, or of alternatives, that is empty. *)
Definition level_empty (data : json) : Prop :=
  exists d r,
    data = JDict d /\
    lookup_key (lit "results") d = Some (JDict r) /\
    match lookup_key (lit "channels") r with
    | Some (JList []) => True
    | Some (JList (JDict c :: _)) => lookup_key (lit "alternatives") c = Some (JList [])
    | None => False
    | _ => False
    end.

Definition is_number (x : json) : Prop := is_Some (as_num x).

(** Two strings without a common character. *)
Definition disjoint_texts (a b : str) : Prop := forall c, c ∈ a -> c ∉ b.

#[global] Instance disjoint_texts_dec (a b : str) : Decision (disjoint_texts a b).
Proof.
  refine (cast_if (decide (Forall (fun c => c ∉ b) a)));
    unfold disjoint_texts; by rewrite <- Forall_forall.
Defined.

(** The block [x] pairs equal elements of [a] and [b]. *)
Definition matches_at (a b : str) (x : block) : Prop :=
  forall t, 0 <= t < x.2 ->
    exists c, at_ a (x.1.1 + t) = Some c /\ at_ b (x.1.2 + t) = Some c.

(** What [j2len] holds when row [i] starts: runs of equal elements that end
    at [a[i-1]] and [b[j]]. *)
Definition j2len_sound (a b : str) (i : Z) (m : gmap Z Z) : Prop :=
  forall j v, m !! j = Some v -> matches_at a b (i - v, j - v + 1, v).

(** The confidence read from a word entry of [provider]. *)
Definition word_confidence (provider : str) (w : json) : option json :=
  match w with
  | JDict d => Some (default (default_confidence provider) (lookup_key (lit "confidence") d))
  | _ => None
  end.

(** A word entry [normalize_data] can take in: an object whose confidence,
    if it has one, is a number. *)
Definition scored_word (provider : str) (w : json) : Prop :=
  exists c, word_confidence provider w = Some c /\ is_number c.

(** ** Transcripts that can be compared *)

(** [float(x)] returns: [x] is a float, or an int in the range of floats. *)
Definition floatable (x : json) : Prop :=
  exists q f, as_num x = Some q /\ to_float q = Ok f.

(** A string of fewer than [2^52] characters. *)
Definition plain_text (x : json) : Prop :=
  exists s, x = JStr s /\ Z.of_nat (length s) < 2 ^ 52.

Definition comparable (d : option norm) : Prop :=
  match d with
  | Some n => plain_text (text n) /\ floatable (start n)
  | None => True
  end.

(** The three transcripts of one identifier. *)
Definition transcripts (f : loaded) : list (option norm) :=
  [(normalize_data (raw_openai f) OpenAI).1;
   (normalize_data (raw_deepgram f) Deepgram).1;
   (normalize_data (raw_assembly f) AssemblyAI).1].

(** All three files are there, with short texts. *)
Definition three_voices : loaded :=
  {| audio_id := lit "7";
     raw_openai :=
       flat_response (JStr (lit "hola mundo"))
         [timed_word (JFloat f0_5) (JFloat f0_9) (JFloat f0_9)];
     raw_deepgram :=
       deepgram_response (JStr (lit "hola mundo")) [timed_word (JInt 0) (JInt 1) (JFloat f0_7)];
     raw_assembly :=
       flat_response (JStr (lit "ola mundo")) [timed_word (JInt 500) (JInt 900) (JFloat f0_5)] |}.

(** ** Identifiers *)

Definition markers : list str := [lit "_openai"; lit "_deepgram"; lit "_assembly"].

Definition suffixes : list str := [lit "openai"; lit "deepgram"; lit "assembly"].

(** An identifier that holds none of the three markers. *)
Definition marker_free (id : str) : Prop :=
  forall m, m ∈ markers -> is_infix m id = false.

#[global] Instance marker_free_dec (id : str) : Decision (marker_free id).
Proof.
  refine (cast_if (decide (Forall (fun m => is_infix m id = false) markers)));
    unfold marker_free; by rewrite <- Forall_forall.
Defined.

(** [s < t] on strings. *)
Definition str_lt (s t : str) : Prop := str_le s t /\ s <> t.

(** A folder with the three files of identifier [b] and one file of [a]. *)
Definition four_files : list str :=
  [lit "b_openai.json"; lit "a_deepgram.json"; lit "b_assembly.json"; lit "b_deepgram.json";
   lit "notes.json"].

(** What [load_json] returns for the files of [four_files]. *)
Definition small_dir : gmap str json :=
  list_to_map
    [(lit "b_openai.json", flat_response (JStr (lit "hola")) []);
     (lit "a_deepgram.json", deepgram_response (JStr (lit "uno dos")) three_words);
     (lit "b_assembly.json", JNull);
     (lit "b_deepgram.json", deepgram_response (JStr (lit "ola")) []);
     (lit "notes.json", JList [])].

(** * Properties *)

Lemma bind_Ok {A B} (c : res A) (k : A -> res B) b :
  bind c k = Ok b -> exists a, c = Ok a /\ k a = Ok b.
Proof. destruct c; simpl; [eauto | discriminate]. Qed.

Ltac bind_inv H :=
  repeat match type of H with
  | bind ?c _ = Ok _ =>
      let E := fresh "E" in
      let x := fresh "x" in
      destruct c as [x|] eqn:E; cbn beta iota delta [bind] in H; [| discriminate H]
  end.

Lemma normalize_data_Some data provider n :
  (normalize_data data provider).1 = Some n ->
  truthy data = true /\ normalize_try data provider = Ok n.
Proof.
  unfold normalize_data. destruct (truthy data); cbn; [| discriminate].
  destruct (normalize_try data provider); cbn; [| discriminate].
  intros [= ->]. done.
Qed.

Lemma normalize_try_inv data provider n :
  normalize_try data provider = Ok n ->
  exists n1 words,
    (if str_eqb provider OpenAI then openai_branch data norm_init
     else if str_eqb provider Deepgram then deepgram_branch data norm_init
     else if str_eqb provider AssemblyAI then assemblyai_branch data norm_init
     else Ok (norm_init, JList [])) = Ok (n1, words) /\
    py_len words = Ok (word_count n) /\
    py_sub (end_ n1) (start n1) = Ok (duration n) /\
    text n = text n1 /\ start n = start n1 /\ end_ n = end_ n1 /\
    confidence n = confidence n1 /\ speakers n = speakers n1.
Proof.
  unfold normalize_try. intros H. bind_inv H. destruct x as [n1 words].
  bind_inv H. injection H as <-. cbn in *. eauto 12.
Qed.

Lemma mapM_length {A B} (f : A -> res B) l l' :
  mapM f l = Ok l' -> length l' = length l.
Proof.
  revert l'. induction l as [|x l IH]; intros l' H; cbn in H.
  - by injection H as <-.
  - bind_inv H. injection H as <-. cbn. f_equal. by apply IH.
Qed.

Lemma py_iter_nonempty words ws :
  truthy words = true -> py_iter words = Ok ws -> ws <> [].
Proof.
  destruct words as [| | | |s|l|d]; cbn; try discriminate;
    intros Ht [= <-]; [destruct s | destruct l | destruct d]; done.
Qed.

Lemma openai_branch_inv data n words :
  openai_branch data norm_init = Ok (n, words) ->
  exists t n1,
    py_get data (lit "text") (JStr []) = Ok t /\
    py_get data (lit "words") (JList []) = Ok words /\
    filled Ok (JFloat F64.one) (fun _ n => Ok (speakers n)) (set_text t norm_init) words n1 /\
    n = set_speakers 1 n1.
Proof.
  unfold openai_branch. intros H. bind_inv H. injection H as <- <-.
  exists x, x1. split_and!; try done.
  destruct (truthy x0) eqn:Ht.
  - bind_inv E1. injection E1 as <-.
    assert (truthy (JList x7) = true) as Hc.
    { pose proof (py_iter_nonempty _ _ Ht E6) as Hne.
      apply mapM_length in E7. destruct x7; [destruct x6; done | done]. }
    rewrite Hc in E8.
    eapply filled_words; eauto.
  - injection E1 as <-. by apply filled_empty.
Qed.

Lemma deepgram_branch_inv data n words :
  deepgram_branch data norm_init = Ok (n, words) ->
  exists alt t,
    deepgram_alt data = Ok alt /\
    py_get alt (lit "transcript") (JStr []) = Ok t /\
    py_get alt (lit "words") (JList []) = Ok words /\
    filled Ok (JInt 0)
      (fun ws _ =>
         let* spk := set_comprehension (py_in (lit "speaker")) get_speaker ws ∅ in
         Ok (speaker_count spk))
      (set_text t norm_init) words n.
Proof.
  unfold deepgram_branch. intros H. bind_inv H. injection H as <- <-.
  exists x, x0. split_and!; try done.
  destruct (truthy x1) eqn:Ht.
  - bind_inv E2. injection E2 as <-.
    eapply filled_words; eauto. cbv beta. by rewrite E8.
  - injection E2 as <-. by apply filled_empty.
Qed.

Lemma assemblyai_branch_inv data n words :
  assemblyai_branch data norm_init = Ok (n, words) ->
  exists t,
    py_get data (lit "text") (JStr []) = Ok t /\
    py_get data (lit "words") (JList []) = Ok words /\
    filled (fun x => py_truediv x (JFloat F64.thousand)) (JInt 0)
      (fun ws _ =>
         let* spk :=
           set_comprehension
             (fun w => let* v := get_speaker w in Ok (is_not_none v))
             get_speaker ws ∅ in
         Ok (speaker_count spk))
      (set_text t norm_init) words n.
Proof.
  unfold assemblyai_branch. intros H. bind_inv H. injection H as <- <-.
  exists x. split_and!; try done.
  destruct (truthy x0) eqn:Ht.
  - bind_inv E1. injection E1 as <-.
    eapply filled_words; eauto. cbv beta. by rewrite E9.
  - injection E1 as <-. by apply filled_empty.
Qed.

Lemma providers_cases (P : str -> Prop) provider :
  provider ∈ providers -> P OpenAI -> P Deepgram -> P AssemblyAI -> P provider.
Proof.
  unfold providers. rewrite !elem_of_cons, elem_of_nil.
  intros [-> | [-> | [-> | []]]]; auto.
Qed.

Lemma normalize_try_fields provider data n :
  provider ∈ providers ->
  normalize_try data provider = Ok n ->
  exists words,
    response_words provider data = Ok words /\
    py_len words = Ok (word_count n) /\
    py_sub (end_ n) (start n) = Ok (duration n) /\
    (truthy words = false ->
       start n = JFloat F64.zero /\ end_ n = JFloat F64.zero /\
       confidence n = JFloat F64.zero /\
       speakers n = if str_eqb provider OpenAI then 1 else 0) /\
    (truthy words = true ->
       exists w0 wl s0 e0 ws confs,
         py_first words = Ok w0 /\ py_last words = Ok wl /\
         py_iter words = Ok ws /\
         py_get w0 (lit "start") (JInt 0) = Ok s0 /\
         to_seconds provider s0 = Ok (start n) /\
         py_get wl (lit "end") (JInt 0) = Ok e0 /\
         to_seconds provider e0 = Ok (end_ n) /\
         mapM (fun w => py_get w (lit "confidence") (default_confidence provider)) ws
           = Ok confs /\
         mean_percent confs = Ok (confidence n) /\
         speakers_code provider ws = Ok (speakers n)).
Proof.
  intros Hp H. apply normalize_try_inv in H.
  destruct H as (n1 & words & Hb & Hlen & Hsub & Ht & Hs & He & Hc & Hk).
  rewrite Hs, He, Hc, Hk. rewrite <- Hs, <- He in Hsub. rewrite Hs, He in Hsub.
  clear Ht Hs He Hc Hk. revert Hb.
  pattern provider. apply providers_cases; [done | | |]; cbv beta;
    unfold response_words, to_seconds, default_confidence, speakers_code;
    match goal with |- context [str_eqb ?p _] =>
      change (str_eqb p OpenAI) with (bool_decide (p = OpenAI));
      change (str_eqb p Deepgram) with (bool_decide (p = Deepgram));
      change (str_eqb p AssemblyAI) with (bool_decide (p = AssemblyAI)) end.
  - change (bool_decide (OpenAI = OpenAI)) with true.
    change (bool_decide (OpenAI = Deepgram)) with false.
    change (bool_decide (OpenAI = AssemblyAI)) with false. cbv iota.
    intros (t & n2 & Ht & Hw & Hf & ->)%openai_branch_inv.
    exists words. split_and!; try done.
    + intros Hfalse. destruct Hf as [_ ->|]; [done | congruence].
    + intros Htrue. destruct Hf as [? ->|]; [congruence |].
      subst n2. cbn. eauto 20.
  - change (bool_decide (Deepgram = OpenAI)) with false.
    change (bool_decide (Deepgram = Deepgram)) with true.
    change (bool_decide (Deepgram = AssemblyAI)) with false. cbv iota.
    intros (alt & t & Ha & Ht & Hw & Hf)%deepgram_branch_inv.
    exists words. rewrite Ha. cbn [bind]. split_and!; try done.
    + intros Hfalse. destruct Hf as [_ ->|]; [done | congruence].
    + intros Htrue. destruct Hf as [? ->|]; [congruence |].
      subst n1. cbn. eauto 20.
  - change (bool_decide (AssemblyAI = OpenAI)) with false.
    change (bool_decide (AssemblyAI = Deepgram)) with false.
    change (bool_decide (AssemblyAI = AssemblyAI)) with true. cbv iota.
    intros (t & Ht & Hw & Hf)%assemblyai_branch_inv.
    exists words. split_and!; try done.
    + intros Hfalse. destruct Hf as [_ ->|]; [done | congruence].
    + intros Htrue. destruct Hf as [? ->|]; [congruence |].
      subst n1. cbn. eauto 20.
Qed.

Lemma mapM_get_dicts k dflt ws confs :
  mapM (fun w => py_get w k dflt) ws = Ok confs -> Forall is_dict ws.
Proof.
  revert confs. induction ws as [|w ws IH]; intros confs H; [constructor |].
  cbn in H. destruct (py_get w k dflt) eqn:E; [| discriminate].
  cbn in H. destruct (mapM _ ws) eqn:E2; [| discriminate].
  constructor; [| eauto]. destruct w; try discriminate. by eexists.
Qed.

Lemma set_comprehension_deepgram ws acc s :
  Forall is_dict ws ->
  set_comprehension (py_in (lit "speaker")) get_speaker ws acc = Ok s ->
  s = acc ∪ list_to_set (omap hashable_key (speaker_values ws)).
Proof.
  intros Hd. revert acc. induction Hd as [|w ws [d ->] _ IH]; intros acc H.
  - cbn in *. injection H as <-. set_solver.
  - cbn in H. unfold speaker_values. cbn [omap list_omap speaker_field].
    destruct (lookup_key (lit "speaker") d) as [v|] eqn:Hv; cbn in H.
    + bind_inv H. apply IH in H. cbn. unfold hashable_key at 1. rewrite E.
      cbn. rewrite H. fold (speaker_values ws). set_solver.
    + apply IH in H. done.
Qed.

Lemma set_comprehension_assemblyai ws acc s :
  Forall is_dict ws ->
  set_comprehension (fun w => let* v := get_speaker w in Ok (is_not_none v))
    get_speaker ws acc = Ok s ->
  s = acc ∪ list_to_set (omap hashable_key (filter (fun v => is_not_none v) (speaker_values ws))).
Proof.
  intros Hd. revert acc. induction Hd as [|w ws [d ->] _ IH]; intros acc H.
  - cbn in *. injection H as <-. set_solver.
  - cbn in H. unfold speaker_values. cbn [omap list_omap speaker_field].
    destruct (lookup_key (lit "speaker") d) as [v|] eqn:Hv; cbn in H.
    + fold (speaker_values ws).
      destruct (is_not_none v) eqn:Hn; cbn in H.
      * rewrite filter_cons_True by (cbv beta; rewrite Hn; exact I).
        bind_inv H. apply IH in H. cbn.
        unfold hashable_key at 1. rewrite E. cbn. rewrite H. set_solver.
      * rewrite filter_cons_False by (cbv beta; rewrite Hn; intros []). by apply IH in H.
    + apply IH in H. done.
Qed.

Lemma speaker_count_list (l : list hkey) :
  speaker_count (list_to_set l) = one_if_none (Z.of_nat (length (remove_dups l))).
Proof.
  unfold speaker_count, one_if_none.
  assert (size (list_to_set (C:=gset hkey) l) = length (remove_dups l)) as Hs.
  { rewrite <- (size_list_to_set (C:=gset hkey) (remove_dups l)) by apply NoDup_remove_dups.
    f_equal. apply set_eq. intros x. rewrite !elem_of_list_to_set.
    by rewrite elem_of_remove_dups. }
  destruct l as [|k l].
  - cbn. done.
  - rewrite decide_False.
    2:{ intros He. assert (k ∈ (∅ : gset hkey)) as Hk by (rewrite <- He; set_solver).
        set_solver. }
    rewrite Hs.
    assert (length (remove_dups (k :: l)) <> 0%nat).
    { intros Hz. apply length_zero_iff_nil in Hz.
      assert (k ∈ remove_dups (k :: l)) as Hin by (rewrite elem_of_remove_dups; set_solver).
      rewrite Hz in Hin. by apply elem_of_nil in Hin. }
    destruct (Z.eqb_spec (Z.of_nat (length (remove_dups (k :: l)))) 0); [lia | done].
Qed.

Lemma words_list_facts ws :
  truthy (JList ws) = negb (bool_decide (ws = [])) /\
  py_iter (JList ws) = Ok ws /\
  py_len (JList ws) = Ok (Z.of_nat (length ws)) /\
  (forall w, py_first (JList ws) = Ok w <-> head ws = Some w) /\
  (forall w, py_last (JList ws) = Ok w <-> last ws = Some w).
Proof.
  split_and!; try done.
  - by destruct ws.
  - intros w. destruct ws; cbn; split; congruence.
  - intros w. cbn. destruct (last ws); split; congruence.
Qed.

(** C1, as amended.  The speaker count of a normalised response.  OpenAI's
    is [1] whatever the input.  Deepgram's and AssemblyAI's are [0] when the
    word list is empty; for a non-empty word list they are the number of
    distinct speaker values of the words, and [1] when that number is zero.
    Deepgram takes the value of every word that has the key, [null]
    included; AssemblyAI leaves the [null] values out.  Values are distinct
    when they differ under Python's [==]. *)
Theorem speakers_per_provider data n ws :
  ((normalize_data data OpenAI).1 = Some n -> speakers n = 1) /\
  ((normalize_data data Deepgram).1 = Some n ->
   response_words Deepgram data = Ok (JList ws) ->
   speakers n =
     match ws with
     | [] => 0
     | _ => one_if_none (distinct_count (speaker_values ws))
     end) /\
  ((normalize_data data AssemblyAI).1 = Some n ->
   response_words AssemblyAI data = Ok (JList ws) ->
   speakers n =
     match ws with
     | [] => 0
     | _ => one_if_none
              (distinct_count (filter (fun v => is_not_none v) (speaker_values ws)))
     end).
Proof.
  split_and!.
  - intros [_ H]%normalize_data_Some.
    apply normalize_try_fields in H; [| set_solver].
    destruct H as (words & _ & _ & _ & Hf & Ht).
    destruct (truthy words) eqn:E.
    + destruct (Ht eq_refl) as (? & ? & ? & ? & ? & ? & H); decompose [and] H.
      match goal with H : speakers_code _ _ = _ |- _ => by injection H end.
    + by destruct (Hf eq_refl) as (_ & _ & _ & ->).
  - intros [_ H]%normalize_data_Some Hw.
    apply normalize_try_fields in H; [| set_solver].
    destruct H as (words & Hw' & _ & _ & Hf & Ht).
    rewrite Hw in Hw'. injection Hw' as <-.
    destruct ws as [|w ws'].
    + by destruct (Hf eq_refl) as (_ & _ & _ & ->).
    + destruct (Ht eq_refl) as (w0 & wl & s0 & e0 & ws2 & confs & H);
        decompose [and] H; clear H.
      match goal with H : py_iter _ = _ |- _ => injection H as <- end.
      match goal with H : speakers_code _ _ = _ |- _ =>
        unfold speakers_code in H;
        change (str_eqb Deepgram OpenAI) with false in H;
        change (str_eqb Deepgram Deepgram) with true in H;
        cbv iota in H; bind_inv H; injection H as <- end.
      match goal with H : mapM _ _ = _ |- _ => apply mapM_get_dicts in H; rename H into Hd end.
      apply set_comprehension_deepgram in E; [| done]. subst x.
      rewrite (left_id_L ∅ (∪)). apply speaker_count_list.
  - intros [_ H]%normalize_data_Some Hw.
    apply normalize_try_fields in H; [| set_solver].
    destruct H as (words & Hw' & _ & _ & Hf & Ht).
    rewrite Hw in Hw'. injection Hw' as <-.
    destruct ws as [|w ws'].
    + by destruct (Hf eq_refl) as (_ & _ & _ & ->).
    + destruct (Ht eq_refl) as (w0 & wl & s0 & e0 & ws2 & confs & H);
        decompose [and] H; clear H.
      match goal with H : py_iter _ = _ |- _ => injection H as <- end.
      match goal with H : speakers_code _ _ = _ |- _ =>
        unfold speakers_code in H;
        change (str_eqb AssemblyAI OpenAI) with false in H;
        change (str_eqb AssemblyAI Deepgram) with false in H;
        cbv iota in H; bind_inv H; injection H as <- end.
      match goal with H : mapM _ _ = _ |- _ => apply mapM_get_dicts in H; rename H into Hd end.
      apply set_comprehension_assemblyai in E; [| done]. subst x.
      rewrite (left_id_L ∅ (∪)). apply speaker_count_list.
Qed.

(** C1 fails as it is worded.  Two Deepgram words with speakers [null] and
    [0] give [2] speakers where the rule gives [1], and an empty word list
    gives [0] speakers for Deepgram and for AssemblyAI where the rule gives
    the default [1]. *)
Lemma speakers_claim_fails :
  (speakers <$> (normalize_data (deepgram_response (JStr []) null_then_zero) Deepgram).1
     = Some 2 /\
   claimed_speakers Deepgram null_then_zero = 1) /\
  (speakers <$> (normalize_data (deepgram_response (JStr []) []) Deepgram).1 = Some 0 /\
   claimed_speakers Deepgram [] = 1) /\
  (speakers <$> (normalize_data (flat_response (JStr []) []) AssemblyAI).1 = Some 0 /\
   claimed_speakers AssemblyAI [] = 1).
Proof. vm_compute. done. Qed.

(** C1 at the two Deepgram words with speakers [null] and [0]. *)
Lemma speakers_per_provider_witness :
  speakers_of (normalize_data (deepgram_response (JStr []) null_then_zero) Deepgram).1 = 2.
Proof.
  destruct (normalize_data (deepgram_response (JStr []) null_then_zero) Deepgram).1
    as [n|] eqn:E; [| by vm_compute in E].
  cbn [speakers_of].
  rewrite (proj1 (proj2 (speakers_per_provider _ n null_then_zero)) E eq_refl).
  reflexivity.
Defined.

(** C10.  [normalize_data] returns [None], and prints nothing, for the empty
    object [{}] and for every other falsy input, under every provider tag. *)
Theorem normalize_data_falsy :
  (forall provider, normalize_data (JDict []) provider = (None, [])) /\
  (forall data provider, truthy data = false -> normalize_data data provider = (None, [])).
Proof.
  split; [done |].
  intros data provider H. unfold normalize_data. by rewrite H.
Qed.

(** C10 at the empty list. *)
Lemma normalize_data_falsy_witness :
  normalize_data (JList []) Deepgram = (None, []).
Proof. apply (proj2 normalize_data_falsy). reflexivity. Defined.

(** C4.  Under every provider tag [normalize_data] returns [None] for a
    [null] input; an exception raised while the fields are taken out is
    caught, reported on one line that names the provider, and answered by
    [None]; and the function always returns: its result is [None] exactly
    when the input is falsy or the extraction raised. *)
Theorem normalize_data_catches data provider :
  (data = JNull -> normalize_data data provider = (None, [])) /\
  (forall e, truthy data = true -> normalize_try data provider = Raise e ->
     normalize_data data provider = (None, [ErrorParseando provider e])) /\
  (exists r out, normalize_data data provider = (r, out) /\
     (r = None <-> truthy data = false \/ exists e, normalize_try data provider = Raise e)).
Proof.
  split_and!.
  - by intros ->.
  - intros e Ht He. unfold normalize_data. by rewrite Ht, He.
  - unfold normalize_data. destruct (truthy data); cbn.
    + destruct (normalize_try data provider) as [n|e]; do 2 eexists; split; try done.
      * split; [done |]. intros [? | [e ?]]; done.
      * split; [| done]. eauto.
    + do 2 eexists; split; [done |]. split; auto.
Qed.

(** C4 at a Deepgram response that is a list: [data.get] raises
    [AttributeError]. *)
Lemma normalize_data_catches_witness :
  normalize_data (JList [JInt 1]) Deepgram = (None, [ErrorParseando Deepgram AttributeError]).
Proof.
  apply (proj1 (proj2 (normalize_data_catches (JList [JInt 1]) Deepgram))); reflexivity.
Defined.

(** C5.  For each of the three providers and a response whose word list has
    [N] entries that normalises, [word_count] is [N], [start] comes from the
    [start] of the first word and [end] from the [end] of the last word
    (divided by [1000.0] for AssemblyAI, [0.0] both when there is no word),
    and [duration] is the plain difference [end - start], which nothing
    clamps. *)
Theorem word_count_and_times provider data ws n :
  provider ∈ providers ->
  (normalize_data data provider).1 = Some n ->
  response_words provider data = Ok (JList ws) ->
  word_count n = Z.of_nat (length ws) /\
  py_sub (end_ n) (start n) = Ok (duration n) /\
  match ws with
  | [] => start n = JFloat F64.zero /\ end_ n = JFloat F64.zero
  | w0 :: _ =>
      exists wl s0 e0,
        last ws = Some wl /\
        py_get w0 (lit "start") (JInt 0) = Ok s0 /\
        py_get wl (lit "end") (JInt 0) = Ok e0 /\
        to_seconds provider s0 = Ok (start n) /\
        to_seconds provider e0 = Ok (end_ n)
  end.
Proof.
  intros Hp [_ H]%normalize_data_Some Hw.
  apply normalize_try_fields in H; [| done].
  destruct H as (words & Hw' & Hlen & Hsub & Hf & Ht).
  rewrite Hw in Hw'. injection Hw' as <-.
  destruct (words_list_facts ws) as (_ & _ & Hl & Hfirst & Hlast).
  rewrite Hl in Hlen. injection Hlen as Hlen.
  split_and!; [done | done |].
  destruct ws as [|w ws'].
  - by destruct (Hf eq_refl) as (? & ? & _).
  - destruct (Ht eq_refl) as (w0 & wl & s0 & e0 & ws2 & confs & H);
      decompose [and] H; clear H.
    match goal with H : py_first _ = _ |- _ => apply Hfirst in H; injection H as <- end.
    match goal with H : py_last _ = _ |- _ => apply Hlast in H end.
    eauto 10.
Qed.

(** C5 at two Deepgram words whose times go backwards: the duration is
    [-3]. *)
Lemma word_count_and_times_witness :
  exists n,
    (normalize_data (response Deepgram (JStr []) disordered) Deepgram).1 = Some n /\
    word_count n = 2 /\ start n = JInt 5 /\ end_ n = JInt 2 /\ duration n = JInt (-3).
Proof.
  destruct (normalize_data (response Deepgram (JStr []) disordered) Deepgram).1
    as [n|] eqn:E; [| by vm_compute in E].
  exists n. split; [done |].
  destruct (word_count_and_times Deepgram
              (response Deepgram (JStr []) disordered) disordered n)
    as (Hc & Hd & wl & s0 & e0 & H); [set_solver | exact E | reflexivity |].
  destruct H as (Hl & Hs & He & Hts & Hte).
  injection Hl as <-. injection Hs as <-. injection He as <-.
  injection Hts as Hts. injection Hte as Hte.
  rewrite <- Hts, <- Hte in Hd. injection Hd as Hd.
  split_and!; done.
Defined.

(** C6.  For every AssemblyAI response with a word that normalises, [start]
    is the first word's [start] divided by [1000.0] and [end] is the last
    word's [end] divided by [1000.0]; for the single word
    [{start: 1000, end: 2000, confidence: 0.9}] they are [1.0] and [2.0]. *)
Theorem assemblyai_milliseconds :
  (forall data ws w0 n,
     (normalize_data data AssemblyAI).1 = Some n ->
     response_words AssemblyAI data = Ok (JList (w0 :: ws)) ->
     exists wl s0 e0,
       last (w0 :: ws) = Some wl /\
       py_get w0 (lit "start") (JInt 0) = Ok s0 /\
       py_get wl (lit "end") (JInt 0) = Ok e0 /\
       py_truediv s0 (JFloat F64.thousand) = Ok (start n) /\
       py_truediv e0 (JFloat F64.thousand) = Ok (end_ n)) /\
  (forall t, exists n,
     (normalize_data
        (flat_response t [timed_word (JInt 1000) (JInt 2000) (JFloat f0_9)])
        AssemblyAI).1 = Some n /\
     start n = JFloat F64.one /\ end_ n = JFloat F64.two).
Proof.
  split.
  - intros data ws w0 n [_ H]%normalize_data_Some Hw.
    apply normalize_try_fields in H; [| set_solver].
    destruct H as (words & Hw' & _ & _ & _ & Ht).
    rewrite Hw in Hw'. injection Hw' as <-.
    destruct (words_list_facts (w0 :: ws)) as (_ & _ & _ & Hfirst & Hlast).
    destruct (Ht eq_refl) as (w0' & wl & s0 & e0 & ws2 & confs & H);
      decompose [and] H; clear H.
    match goal with H : py_first _ = _ |- _ => apply Hfirst in H; injection H as <- end.
    match goal with H : py_last _ = _ |- _ => apply Hlast in H end.
    eauto 10.
  - intros t. eexists. split; [vm_compute; reflexivity |]. done.
Qed.

Ltac vm_eval_lhs H :=
  match type of H with
  | ?l = _ =>
      let v := eval vm_compute in l in
      replace l with v in H by (vm_compute; reflexivity)
  end.

(** C6 at two words from 1500 ms to 2500 ms. *)
Lemma assemblyai_milliseconds_witness :
  exists n,
    (normalize_data
       (flat_response (JStr (lit "hola"))
          [timed_word (JInt 1500) (JInt 1800) (JFloat f0_9);
           timed_word (JInt 1800) (JInt 2500) (JFloat f0_9)])
       AssemblyAI).1 = Some n /\
    start n = JFloat (F64.dec 15 1) /\ end_ n = JFloat (F64.dec 25 1).
Proof.
  match goal with |- exists n, ?d = _ /\ _ => destruct d as [n|] eqn:E end;
    [| by vm_compute in E].
  exists n. split; [done |].
  destruct (proj1 assemblyai_milliseconds _ _ _ n E eq_refl)
    as (wl & s0 & e0 & Hl & Hs & He & Hts & Hte).
  injection Hl as <-. injection Hs as <-. injection He as <-.
  injection Hts as <-. injection Hte as <-. split; reflexivity.
Defined.

(** C9.  For each provider and a response with a non-empty word list that
    normalises, [confidence] is [statistics.mean] of the words' confidences
    times [100], where a word without the field counts [1.0] for OpenAI and
    [0] for Deepgram and AssemblyAI; with no word it is [0.0].  The
    confidences [0.5, 0.7, 0.9] give [70.0], and [round(70.0, 2)] in the
    report is [70.0]. *)
Theorem confidence_mean_percent provider data ws n :
  provider ∈ providers ->
  (normalize_data data provider).1 = Some n ->
  response_words provider data = Ok (JList ws) ->
  match ws with
  | [] => confidence n = JFloat F64.zero
  | _ =>
      exists confs,
        mapM (fun w => py_get w (lit "confidence") (default_confidence provider)) ws
          = Ok confs /\
        mean_percent confs = Ok (confidence n) /\
        (confs = [JFloat f0_5; JFloat f0_7; JFloat f0_9] ->
         confidence n = JFloat f70 /\ py_round (confidence n) 2 = Ok (NFloat f70))
  end.
Proof.
  intros Hp [_ H]%normalize_data_Some Hw.
  apply normalize_try_fields in H; [| done].
  destruct H as (words & Hw' & _ & _ & Hf & Ht).
  rewrite Hw in Hw'. injection Hw' as <-.
  destruct ws as [|w ws'].
  - by destruct (Hf eq_refl) as (_ & _ & ? & _).
  - destruct (Ht eq_refl) as (w0 & wl & s0 & e0 & ws2 & confs & H);
      decompose [and] H; clear H.
    match goal with H : py_iter _ = _ |- _ => injection H as <- end.
    exists confs. split_and!; [done | done |].
    intros ->.
    match goal with H : mean_percent _ = _ |- _ => rename H into Hm end.
    assert (mean_percent [JFloat f0_5; JFloat f0_7; JFloat f0_9] = Ok (JFloat f70))
      as Hv by (vm_compute; reflexivity).
    rewrite Hv in Hm. injection Hm as <-. split; reflexivity.
Qed.

(** C9 at an OpenAI response with the confidences [0.5, 0.7, 0.9]. *)
Lemma confidence_mean_percent_witness :
  exists n,
    (normalize_data (response OpenAI (JStr []) three_words) OpenAI).1 = Some n /\
    confidence n = JFloat f70.
Proof.
  destruct (normalize_data (response OpenAI (JStr []) three_words) OpenAI).1
    as [n|] eqn:E; [| by vm_compute in E].
  exists n. split; [reflexivity |].
  assert (response_words OpenAI (response OpenAI (JStr []) three_words)
          = Ok (JList three_words)) as Hw by (vm_compute; reflexivity).
  assert (OpenAI ∈ providers) as Hp by (apply list_elem_of_here).
  destruct (confidence_mean_percent OpenAI _ three_words n Hp E Hw)
    as (confs & Hc & Hm & Hex).
  vm_eval_lhs Hc.
  injection Hc as <-. 
  exact (proj1 (Hex eq_refl)).
Defined.

Lemma normalize_confidence_num data provider n :
  provider ∈ providers ->
  (normalize_data data provider).1 = Some n ->
  exists c, as_num (confidence n) = Some c.
Proof.
  intros Hp [_ H]%normalize_data_Some.
  apply normalize_try_fields in H; [| done].
  destruct H as (words & _ & _ & _ & Hf & Ht).
  destruct (truthy words).
  - destruct (Ht eq_refl) as (w0 & wl & s0 & e0 & ws2 & confs & H);
      decompose [and] H; clear H.
    match goal with H : mean_percent _ = _ |- _ =>
      unfold mean_percent in H; bind_inv H; injection H as <- end.
    destruct x0; by eexists.
  - destruct (Hf eq_refl) as (_ & _ & -> & _). by eexists.
Qed.

Lemma conf_of_normalized data provider :
  provider ∈ providers ->
  exists c, conf_of (normalize_data data provider).1 = Ok c.
Proof.
  intros Hp. destruct (normalize_data data provider).1 as [n|] eqn:E.
  - destruct (normalize_confidence_num _ _ _ Hp E) as [c Hc].
    cbn. unfold py_round. rewrite Hc. by eexists.
  - by eexists.
Qed.

Lemma obind_Ok {A B} (c : outcome A) (k : A -> outcome B) b :
  obind c k = Known (Ok b) -> exists a, c = Known (Ok a) /\ k a = Known (Ok b).
Proof. destruct c as [[a|e]|]; cbn; [eauto | discriminate | discriminate]. Qed.

Lemma sim_of_absent x y s :
  x = None \/ y = None -> sim_of x y = Known (Ok s) -> s = NInt 0.
Proof.
  intros [-> | ->]; [| destruct x]; cbn; unfold returns; congruence.
Qed.

Lemma start_diff_of_absent x y t :
  x = None \/ y = None -> start_diff_of x y = Ok t -> t = None.
Proof.
  intros [-> | ->]; [| destruct x]; cbn; congruence.
Qed.

Lemma make_row_fields id d_oai d_dg d_aai r :
  make_row id d_oai d_dg d_aai = Known (Ok r) ->
  (d_oai = None ->
     OAI_Words r = 0 /\ OAI_Conf r = NInt 0 /\
     Sim_OAI_vs_DG r = NInt 0 /\ Sim_OAI_vs_AAI r = NInt 0 /\
     Start_Diff_OAI_DG r = None) /\
  (d_dg = None ->
     DG_Words r = 0 /\ DG_Conf r = NInt 0 /\
     Sim_OAI_vs_DG r = NInt 0 /\ Sim_DG_vs_AAI r = NInt 0 /\
     Start_Diff_OAI_DG r = None /\ Start_Diff_DG_AAI r = None /\
     DG_Speakers r = 0) /\
  (d_aai = None ->
     AAI_Words r = 0 /\ AAI_Conf r = NInt 0 /\
     Sim_OAI_vs_AAI r = NInt 0 /\ Sim_DG_vs_AAI r = NInt 0 /\
     Start_Diff_DG_AAI r = None /\ AAI_Speakers r = 0).
Proof.
  unfold make_row. intros H.
  apply obind_Ok in H as (c1 & [= H1] & H).
  apply obind_Ok in H as (c2 & [= H2] & H).
  apply obind_Ok in H as (c3 & [= H3] & H).
  apply obind_Ok in H as (s1 & E1 & H).
  apply obind_Ok in H as (s2 & E2 & H).
  apply obind_Ok in H as (s3 & E3 & H).
  apply obind_Ok in H as (t1 & [= E4] & H).
  apply obind_Ok in H as (t2 & [= E5] & H).
  injection H as <-. cbn.
  pose proof (fun h => sim_of_absent d_oai d_dg s1 h E1) as S1.
  pose proof (fun h => sim_of_absent d_oai d_aai s2 h E2) as S2.
  pose proof (fun h => sim_of_absent d_dg d_aai s3 h E3) as S3.
  pose proof (fun h => start_diff_of_absent d_oai d_dg t1 h E4) as T1.
  pose proof (fun h => start_diff_of_absent d_dg d_aai t2 h E5) as T2.
  split_and!; intros Hn; rewrite Hn in *.
  - injection H1 as <-. split_and!; auto.
  - injection H2 as <-. split_and!; auto.
  - injection H3 as <-. split_and!; auto.
Qed.

Lemma make_row_two_absent id d_oai d_dg d_aai :
  (exists c, conf_of d_oai = Ok c) ->
  (exists c, conf_of d_dg = Ok c) ->
  (exists c, conf_of d_aai = Ok c) ->
  (2 <= absent_count d_oai d_dg d_aai)%nat ->
  exists r, make_row id d_oai d_dg d_aai = Known (Ok r).
Proof.
  intros [c1 H1] [c2 H2] [c3 H3] Habs.
  unfold make_row. rewrite H1, H2, H3. cbn [obind].
  destruct d_oai as [a|], d_dg as [b|], d_aai as [c|];
    try (exfalso; revert Habs; vm_compute; lia); cbn; eauto.
Qed.

(** C7, as amended.  Let [d_oai], [d_dg] and [d_aai] be the normalised
    transcripts of one identifier.  Whenever its row is produced, a provider
    whose transcript is [None] has word count [0], confidence [0],
    similarity [0] in each pair it is part of, start difference [None] in
    each pair it is part of, and speaker count [0].  The row is produced
    whenever at least two of the three transcripts are [None]. *)
Theorem null_transcript_row f d_oai d_dg d_aai :
  d_oai = (normalize_data (raw_openai f) OpenAI).1 ->
  d_dg = (normalize_data (raw_deepgram f) Deepgram).1 ->
  d_aai = (normalize_data (raw_assembly f) AssemblyAI).1 ->
  (forall r, analyse f = Known (Ok r) ->
     (d_oai = None ->
        OAI_Words r = 0 /\ OAI_Conf r = NInt 0 /\
        Sim_OAI_vs_DG r = NInt 0 /\ Sim_OAI_vs_AAI r = NInt 0 /\
        Start_Diff_OAI_DG r = None) /\
     (d_dg = None ->
        DG_Words r = 0 /\ DG_Conf r = NInt 0 /\
        Sim_OAI_vs_DG r = NInt 0 /\ Sim_DG_vs_AAI r = NInt 0 /\
        Start_Diff_OAI_DG r = None /\ Start_Diff_DG_AAI r = None /\
        DG_Speakers r = 0) /\
     (d_aai = None ->
        AAI_Words r = 0 /\ AAI_Conf r = NInt 0 /\
        Sim_OAI_vs_AAI r = NInt 0 /\ Sim_DG_vs_AAI r = NInt 0 /\
        Start_Diff_DG_AAI r = None /\ AAI_Speakers r = 0)) /\
  ((2 <= absent_count d_oai d_dg d_aai)%nat -> exists r, analyse f = Known (Ok r)).
Proof.
  intros -> -> ->. split.
  - intros r Hr. by apply (make_row_fields (audio_id f)).
  - apply make_row_two_absent; apply conf_of_normalized; set_solver.
Qed.

(** C7 at an identifier that has only Deepgram's file. *)
Lemma null_transcript_row_witness :
  exists r, analyse only_deepgram = Known (Ok r) /\
            OAI_Words r = 0 /\ AAI_Words r = 0 /\ DG_Words r = 3 /\ DG_Conf r = NFloat f70.
Proof.
  destruct (null_transcript_row only_deepgram _ _ _ eq_refl eq_refl eq_refl) as [Hf Hex].
  destruct Hex as [r Hr].
  { vm_compute. lia. }
  exists r. split; [exact Hr |].
  destruct (Hf r Hr) as (H1 & _ & H3).
  destruct (H1 ltac:(vm_compute; reflexivity)) as (-> & _).
  destruct (H3 ltac:(vm_compute; reflexivity)) as (-> & _).
  assert (analyse only_deepgram = Known (Ok r) -> DG_Words r = 3 /\ DG_Conf r = NFloat f70)
    as Hv.
  { vm_compute. intros [= <-]. split; reflexivity. }
  destruct (Hv Hr). auto.
Defined.

(** C7 fails as it is worded.  OpenAI's file is missing, Deepgram's
    transcript is the number [5] and AssemblyAI's is a string:
    [SequenceMatcher] raises [TypeError] outside any [try], and no row is
    produced. *)
Lemma null_transcript_row_raises :
  (normalize_data (raw_openai number_as_text) OpenAI).1 = None /\
  analyse number_as_text = Known (Raise TypeError).
Proof. split; vm_compute; reflexivity. Qed.

(** ** Matching blocks stay inside their region *)

Section Bounds.
Variable sm : matcher.
Variables alo ahi blo bhi : Z.

Local Abbreviation j2len_ok := (j2len_ok alo blo bhi).

Lemma row_loop_bounds i j2len js new best :
  alo <= i < ahi ->
  j2len_ok i j2len ->
  j2len_ok (i + 1) new ->
  block_in (alo, ahi, blo, bhi) best ->
  let '(new', best') := row_loop blo bhi i j2len js new best in
  j2len_ok (i + 1) new' /\ block_in (alo, ahi, blo, bhi) best'.
Proof.
  intros Hi Hj. revert new best.
  induction js as [|j js IH]; intros new best Hn Hb; cbn.
  - done.
  - destruct (Z.ltb_spec j blo); [by apply IH |].
    destruct (Z.leb_spec bhi j); [done |].
    apply IH.
    + intros j' v. destruct (decide (j = j')) as [<- | Hne].
      * rewrite lookup_insert_eq. intros [= <-].
        destruct (j2len !! (j - 1)) as [v|] eqn:E; cbn.
        -- apply Hj in E. lia.
        -- lia.
      * rewrite lookup_insert_ne by done. apply Hn.
    + destruct best as [[bi bj] bk]. cbn [snd].
      destruct (Z.ltb_spec bk (default 0 (j2len !! (j - 1)) + 1)); [| done].
      destruct (j2len !! (j - 1)) as [v|] eqn:E; cbn.
      * apply Hj in E. lia.
      * cbn in Hb. lia.
Qed.

Lemma rows_loop_bounds rows i j2len best :
  rows = seqZ i (ahi - i) ->
  alo <= i ->
  j2len_ok i j2len ->
  block_in (alo, ahi, blo, bhi) best ->
  block_in (alo, ahi, blo, bhi) (rows_loop sm blo bhi rows j2len best).
Proof.
  revert i j2len best. induction rows as [|i' rows IH]; intros i j2len best Hr Hi Hj Hb.
  - done.
  - cbn.
    assert (i < ahi) as Hlt.
    { destruct (Z.lt_ge_cases i ahi); [done |].
      rewrite seqZ_nil in Hr by lia. done. }
    rewrite seqZ_cons in Hr by lia. injection Hr as -> ->.
    pose proof (row_loop_bounds i j2len
      (default [] (at_ (seq_a sm) i ≫= λ c, b2j sm !! c)) ∅ best) as H.
    destruct (row_loop blo bhi i j2len _ ∅ best) as [new best'].
    destruct H as [Hn Hb']; [lia | done | | done |].
    { intros j v. by rewrite lookup_empty. }
    apply (IH (i + 1)); try done; try lia.
    f_equal; lia.
Qed.

Lemma extend_left_bounds n junk best :
  block_in (alo, ahi, blo, bhi) best ->
  block_in (alo, ahi, blo, bhi) (extend_left sm alo blo n junk best).
Proof.
  revert best. induction n as [|n IH]; intros [[bi bj] bk] Hb; cbn; [done |].
  destruct (Z.ltb_spec alo bi); cbn [andb]; [| done].
  destruct (Z.ltb_spec blo bj); cbn [andb]; [| done].
  destruct (_ && _); [| done].
  apply IH. cbn in *. lia.
Qed.

Lemma extend_right_bounds n junk best :
  block_in (alo, ahi, blo, bhi) best ->
  block_in (alo, ahi, blo, bhi) (extend_right sm ahi bhi n junk best).
Proof.
  revert best. induction n as [|n IH]; intros [[bi bj] bk] Hb; cbn; [done |].
  destruct (Z.ltb_spec (bi + bk) ahi); cbn [andb]; [| done].
  destruct (Z.ltb_spec (bj + bk) bhi); cbn [andb]; [| done].
  destruct (_ && _); [| done].
  apply IH. cbn in *. lia.
Qed.

Lemma find_longest_match_bounds :
  region_ok (alo, ahi, blo, bhi) ->
  block_in (alo, ahi, blo, bhi) (find_longest_match sm alo ahi blo bhi).
Proof.
  unfold region_ok. intros [Ha Hb]. unfold find_longest_match.
  apply extend_right_bounds, extend_left_bounds, extend_right_bounds, extend_left_bounds.
  apply (rows_loop_bounds _ alo).
  - reflexivity.
  - lia.
  - intros j v. by rewrite lookup_empty.
  - cbn. lia.
Qed.
End Bounds.

Lemma sum_sizes_app bs cs : sum_sizes (bs ++ cs) = sum_sizes bs + sum_sizes cs.
Proof.
  unfold sum_sizes. induction bs as [|b bs IH]; simpl; [done |].
  rewrite IH. apply Z.add_assoc.
Qed.

Lemma total_nonneg w q : (forall r, r ∈ q -> 0 <= w r) -> 0 <= total w q.
Proof.
  induction q as [|r q IH]; intros H; [done |].
  change (0 <= w r + total w q).
  assert (0 <= w r) by (apply H; left).
  assert (0 <= total w q) by (apply IH; intros; apply H; by right). lia.
Qed.

Lemma width_a_eq a b c d : width_a (a, b, c, d) = b - a.
Proof. reflexivity. Qed.

Lemma width_b_eq a b c d : width_b (a, b, c, d) = d - c.
Proof. reflexivity. Qed.

Lemma total_cons w r q : total w (r :: q) = w r + total w q.
Proof. reflexivity. Qed.

Lemma sum_sizes_snoc bs i j k : sum_sizes (bs ++ [(i, j, k)]) = sum_sizes bs + k.
Proof. rewrite sum_sizes_app. unfold sum_sizes at 2. cbn. lia. Qed.

Lemma blocks_step_inv sm la lb q bs :
  loop_inv la lb q bs ->
  let '(q', bs') := blocks_step sm q bs in
  loop_inv la lb q' bs' /\ (q <> [] -> turns q' < turns q).
Proof.
  intros [Hr Hs Ha Hb]. destruct q as [|[[[alo ahi] blo] bhi] q]; unfold blocks_step.
  - split; [by constructor | done].
  - apply Forall_cons in Hr as [Hr0 Hr].
    pose proof (find_longest_match_bounds sm alo ahi blo bhi Hr0) as Hin.
    destruct (find_longest_match sm alo ahi blo bhi) as [[i j] k].
    unfold turns in *. rewrite !total_cons in *.
    change (width_a (alo, ahi, blo, bhi)) with (ahi - alo) in *.
    change (width_b (alo, ahi, blo, bhi)) with (bhi - blo) in *.
    cbn in Hin, Hr0.
    destruct (Z.eqb_spec k 0) as [-> | Hk].
    + split; [constructor; try done; lia | intros _; lia].
    + destruct (Z.ltb_spec alo i), (Z.ltb_spec blo j),
        (Z.ltb_spec (i + k) ahi), (Z.ltb_spec (j + k) bhi); cbn [andb].
      all: rewrite ?total_cons.
      all: change (width_a (alo, i, blo, j)) with (i - alo) in *.
      all: change (width_b (alo, i, blo, j)) with (j - blo) in *.
      all: change (width_a (i + k, ahi, j + k, bhi)) with (ahi - (i + k)) in *.
      all: change (width_b (i + k, ahi, j + k, bhi)) with (bhi - (j + k)) in *.
      all: split; [| intros _; rewrite ?total_cons, ?width_a_eq; lia].
      all: constructor.
      all: try (rewrite sum_sizes_snoc, ?total_cons, ?width_a_eq, ?width_b_eq; lia).
      all: try (apply Forall_app; split; [exact Hs | apply Forall_singleton; cbn; lia]).
      all: repeat (apply Forall_cons; split; [cbn; lia |]); exact Hr.
Qed.

Lemma blocks_loop_inv sm la lb fuel q bs :
  loop_inv la lb q bs ->
  turns q <= Z.of_nat fuel ->
  let '(q', bs') := blocks_loop sm fuel q bs in
  q' = [] /\ loop_inv la lb [] bs'.
Proof.
  revert q bs. induction fuel as [|fuel IH]; intros q bs Hinv Ht.
  - cbn. destruct q as [|r q]; [done |].
    exfalso. destruct Hinv as [Hr _ _ _].
    apply Forall_cons in Hr as [Hr0 Hr].
    assert (0 <= turns q).
    { apply total_nonneg. intros [[[a b] c] d] Hin.
      rewrite Forall_forall in Hr. apply Hr in Hin. unfold width_a; cbn in *. lia. }
    destruct r as [[[a b] c] d]. unfold turns in *. rewrite total_cons in Ht.
    change (width_a (a, b, c, d)) with (b - a) in Ht. cbn in Hr0. lia.
  - destruct q as [|r q]; [done |].
    cbn [blocks_loop].
    pose proof (blocks_step_inv sm la lb (r :: q) bs Hinv) as Hstep.
    destruct (blocks_step sm (r :: q) bs) as [q' bs'].
    destruct Hstep as [Hinv' Hdec]. apply IH; [done |].
    specialize (Hdec ltac:(done)). lia.
Qed.

Lemma collapse_sum bs cur acc :
  sum_sizes (collapse bs cur acc) = sum_sizes acc + cur.2 + sum_sizes bs.
Proof.
  revert cur acc. induction bs as [|[[i2 j2] k2] bs IH]; intros [[i1 j1] k1] acc; cbn.
  - destruct (Z.eqb_spec k1 0); [unfold sum_sizes; cbn; lia |].
    rewrite sum_sizes_app. unfold sum_sizes; cbn; lia.
  - destruct (_ && _).
    + rewrite IH. unfold sum_sizes; cbn; lia.
    + rewrite IH. destruct (Z.eqb_spec k1 0).
      * unfold sum_sizes; cbn; lia.
      * rewrite sum_sizes_app. unfold sum_sizes; cbn; lia.
Qed.

Lemma sum_sizes_perm bs cs : bs ≡ₚ cs -> sum_sizes bs = sum_sizes cs.
Proof.
  induction 1; unfold sum_sizes in *; cbn; lia.
Qed.

(** The loop of [get_matching_blocks] ends with an empty queue, and the
    matched sizes fit in both strings. *)
Lemma get_matching_blocks_spec (a b : str) :
  let sm := new_matcher a b in
  let la := Z.of_nat (length a) in
  let lb := Z.of_nat (length b) in
  (blocks_loop sm (enough_fuel sm) [(0, la, 0, lb)] []).1 = [] /\
  0 <= sum_sizes (get_matching_blocks sm) <= Z.min la lb.
Proof.
  intros sm la lb.
  pose proof (blocks_loop_inv sm la lb (enough_fuel sm) [(0, la, 0, lb)] []) as H.
  unfold get_matching_blocks. cbn [seq_a seq_b sm new_matcher]. fold sm la lb.
  destruct (blocks_loop sm (enough_fuel sm) [(0, la, 0, lb)] []) as [q bs].
  destruct H as [-> [_ Hs Ha Hb]].
  - split; [repeat constructor; cbn; lia | constructor | |];
      unfold total, width_a, width_b, sum_sizes; cbn; lia.
  - unfold enough_fuel, turns, total, width_a; cbn. lia.
  - split; [done |].
    rewrite sum_sizes_app, collapse_sum.
    rewrite (sum_sizes_perm (merge_sort block_le bs) bs) by apply merge_sort_Permutation.
    change (total width_a []) with 0 in Ha. change (total width_b []) with 0 in Hb.
    assert (0 <= sum_sizes bs).
    { clear -Hs. induction Hs as [|[[i j] k] bs Hk _ IH]; [done |].
      change (0 <= k + sum_sizes bs). cbn in Hk. lia. }
    change (sum_sizes []) with 0. change (sum_sizes [(la, lb, 0)]) with (0 + 0).
    change ((0, 0, 0).2) with 0. lia.
Qed.

(** ** Binary64 arithmetic on the floats of small integers *)

Lemma digits2_pos_bounds p :
  2 ^ (Zpos (digits2_pos p) - 1) <= Zpos p < 2 ^ Zpos (digits2_pos p).
Proof.
  induction p as [p IH | p IH |]; cbn [digits2_pos]; [| | cbn; lia].
  all: rewrite Pos2Z.inj_succ.
  all: set (D := Zpos (digits2_pos p)) in *.
  all: assert (0 < D) by (unfold D; lia).
  all: replace (Z.succ D - 1) with D by lia.
  all: rewrite Z.pow_succ_r by lia.
  all: replace D with (Z.succ (D - 1)) in IH at 2 by lia.
  all: replace D with (Z.succ (D - 1)) at 1 2 by lia.
  all: rewrite Z.pow_succ_r in * by lia.
  all: set (X := 2 ^ (D - 1)) in *.
  all: lia.
Qed.

Lemma digits2_pos_eq p (d : positive) :
  2 ^ (Zpos d - 1) <= Zpos p < 2 ^ Zpos d -> digits2_pos p = d.
Proof.
  intros [Hlo Hhi]. pose proof (digits2_pos_bounds p) as [Hlo' Hhi'].
  destruct (Z.lt_trichotomy (Zpos (digits2_pos p)) (Zpos d)) as [Hlt | [Heq | Hgt]].
  - assert (2 ^ Zpos (digits2_pos p) <= 2 ^ (Zpos d - 1)) by (apply Z.pow_le_mono_r; lia).
    lia.
  - congruence.
  - assert (2 ^ Zpos d <= 2 ^ (Zpos (digits2_pos p) - 1)) by (apply Z.pow_le_mono_r; lia).
    lia.
Qed.

Lemma digits_53 p : p52 <= Zpos p < p53 -> digits2_pos p = 53%positive.
Proof. intros H. apply digits2_pos_eq. unfold p52, p53 in H. 
  change (2 ^ (53 - 1)) with 4503599627370496. change (2 ^ 53) with 9007199254740992. lia. Qed.

Lemma digits_54 p : p53 <= Zpos p < p54 -> digits2_pos p = 54%positive.
Proof. intros H. apply digits2_pos_eq. unfold p54, p53 in H. 
  change (2 ^ (54 - 1)) with 9007199254740992. change (2 ^ 54) with 18014398509481984. lia. Qed.

Lemma shr_fexp_normal m e :
  normal m e ->
  shr_fexp 53 1024 (Zpos m) e loc_Exact =
    (Build_shr_record (Zpos m) false false, e).
Proof.
  intros [Hm He]. unfold shr_fexp, shr, Zdigits2. rewrite (digits_53 m Hm).
  unfold fexp, emin.
  replace (Z.max (53 + e - 53) (3 - 1024 - 53) - e) with 0 by lia.
  reflexivity.
Qed.

Lemma binary_round_aux_normal s m e :
  normal m e ->
  binary_round_aux 53 1024 s (Zpos m) e loc_Exact = S754_finite s m e.
Proof.
  intros H. unfold binary_round_aux. rewrite shr_fexp_normal by done.
  cbn [shr_m loc_of_shr_record round_nearest_even]. rewrite shr_fexp_normal by done.
  cbn [shr_m]. destruct H as [_ He].
  destruct (Z.leb_spec e (1024 - 53)); [done | lia].
Qed.

Lemma digits2_pos_iter_xO m k :
  digits2_pos (Pos.iter xO m k) = (digits2_pos m + k)%positive.
Proof.
  induction k as [|k IH] using Pos.peano_ind.
  - cbn. lia.
  - rewrite Pos.iter_succ. cbn [digits2_pos]. rewrite IH. lia.
Qed.

Lemma Zpos_iter_xO m k : Zpos (Pos.iter xO m k) = Zpos m * 2 ^ Zpos k.
Proof.
  induction k as [|k IH] using Pos.peano_ind.
  - cbn. lia.
  - rewrite Pos.iter_succ, Pos2Z.inj_xO, IH, Pos2Z.inj_succ, Z.pow_succ_r by lia. lia.
Qed.

(** The float of an integer of at most 53 bits is exact. *)
Lemma of_Z_small p :
  Zpos p < p53 ->
  exists m e,
    F64.of_Z (Zpos p) = S754_finite false m e /\
    normal m e /\ -52 <= e <= 0 /\ Zpos m = Zpos p * 2 ^ (- e).
Proof.
  intros Hp. unfold F64.of_Z, F64.prec, F64.emax, binary_normalize, binary_round.
  pose proof (digits2_pos_bounds p) as [Hlo Hhi].
  set (d := digits2_pos p) in *.
  assert (Zpos d <= 53) as Hd.
  { destruct (Z.le_gt_cases (Zpos d) 53); [done |].
    assert (2 ^ 53 <= 2 ^ (Zpos d - 1)) by (apply Z.pow_le_mono_r; lia).
    change (2 ^ 53) with p53 in *. lia. }
  unfold fexp, emin, shl_align.
  replace (Z.max (Zpos d + 0 - 53) (3 - 1024 - 53) - 0) with (Zpos d - 53) by lia.
  replace (Z.max (Zpos d + 0 - 53) (3 - 1024 - 53)) with (Zpos d - 53) by lia.
  destruct (Zpos d - 53) as [|k|k] eqn:Hk; [| lia |].
  - assert (d = 53%positive) as Hd53 by lia.
    assert (normal p 0).
    { split; [| lia]. rewrite Hd53 in Hlo. change (2 ^ (53 - 1)) with p52 in Hlo. lia. }
    exists p, 0. rewrite (binary_round_aux_normal false p 0) by done.
    split_and!; try done; lia.
  - assert (Zpos k = 53 - Zpos d) as Hk' by lia.
    assert (normal (Pos.iter xO p k) (Z.neg k)).
    { split; [| lia]. rewrite Zpos_iter_xO, Hk'.
      assert (2 ^ (Zpos d - 1) * 2 ^ (53 - Zpos d) = p52) as E1.
      { rewrite <- Z.pow_add_r by lia. replace (Zpos d - 1 + (53 - Zpos d)) with 52 by lia.
        reflexivity. }
      assert (2 ^ Zpos d * 2 ^ (53 - Zpos d) = p53) as E2.
      { rewrite <- Z.pow_add_r by lia. replace (Zpos d + (53 - Zpos d)) with 53 by lia.
        reflexivity. }
      assert (0 < 2 ^ (53 - Zpos d)) by (apply Z.pow_pos_nonneg; lia).
      nia. }
    exists (Pos.iter xO p k), (Z.neg k).
    rewrite (binary_round_aux_normal false _ _) by done.
    split_and!; try done; try lia.
    rewrite Zpos_iter_xO. f_equal.
Qed.

Lemma float_of_int_small z :
  0 < z < p53 ->
  exists m e,
    float_of_int z = Ok (S754_finite false m e) /\
    normal m e /\ -52 <= e <= 0 /\ Zpos m = z * 2 ^ (- e).
Proof.
  intros [Hz Hlt]. destruct z as [|p|p]; try lia.
  destruct (of_Z_small p Hlt) as (m & e & Hf & Hn & He & Hv).
  exists m, e. unfold float_of_int. rewrite Hf. cbn. done.
Qed.

Lemma iter_pos_shr_1_zeros k m :
  SpecFloat.iter_pos shr_1 k (Build_shr_record (Zpos (Pos.iter xO m k)) false false) =
  Build_shr_record (Zpos m) false false.
Proof.
  revert m. induction k as [k IH | k IH |]; intros m; cbn [SpecFloat.iter_pos Pos.iter].
  - cbn [shr_1 orb]. rewrite IH. apply IH.
  - rewrite IH. apply IH.
  - reflexivity.
Qed.

Lemma shr_fexp_zeros m k e :
  normal m (e + Zpos k) ->
  shr_fexp 53 1024 (Zpos (Pos.iter xO m k)) e loc_Exact =
    (Build_shr_record (Zpos m) false false, e + Zpos k).
Proof.
  intros [Hm He]. unfold shr_fexp, Zdigits2.
  rewrite digits2_pos_iter_xO, (digits_53 m Hm). unfold fexp, emin.
  replace (Z.max (Zpos (53 + k) + e - 53) (3 - 1024 - 53) - e) with (Zpos k) by lia.
  unfold shr. cbn [shr_record_of_loc]. by rewrite iter_pos_shr_1_zeros.
Qed.

Lemma binary_round_aux_zeros s m k e :
  normal m (e + Zpos k) ->
  binary_round_aux 53 1024 s (Zpos (Pos.iter xO m k)) e loc_Exact =
    S754_finite s m (e + Zpos k).
Proof.
  intros H. unfold binary_round_aux. rewrite shr_fexp_zeros by done.
  cbn [shr_m loc_of_shr_record round_nearest_even]. rewrite shr_fexp_normal by done.
  cbn [shr_m]. destruct H as [_ He].
  destruct (Z.leb_spec (e + Zpos k) (1024 - 53)); [done | lia].
Qed.

(** Doubling a normal float is exact. *)
Lemma mul_two_normal m e :
  normal m e -> e + 1 <= 971 ->
  F64.mul F64.two (S754_finite false m e) = S754_finite false m (e + 1).
Proof.
  intros [Hm He] He1. unfold F64.mul, F64.two, F64.prec, F64.emax, SFmul. cbn [xorb].
  change (Pos.mul 4503599627370496 m) with (Pos.iter xO m 52).
  rewrite binary_round_aux_zeros; [f_equal; lia |].
  split; [done | lia].
Qed.

(** The second rounding step: a mantissa that rounding carried to [2^53] is
    brought back to 53 bits. *)
Lemma renormalize s z e :
  p52 <= z <= p53 -> -1074 <= e -> e + 1 <= 971 ->
  exists m2 e2,
    (let '(mrs, e'') := shr_fexp 53 1024 z e loc_Exact in
     match shr_m mrs with
     | Z0 => S754_zero s
     | Zpos m => if e'' <=? 1024 - 53 then S754_finite s m e'' else S754_infinity s
     | Zneg _ => S754_nan
     end) = S754_finite s m2 e2 /\
    p52 <= Zpos m2 < p53 /\
    ((e2 = e /\ Zpos m2 = z) \/ (e2 = e + 1 /\ 2 * Zpos m2 = z)).
Proof.
  intros Hz He He1. destruct z as [|m|m]; [unfold p52 in Hz; lia | | unfold p52 in Hz; lia].
  destruct (Z.eq_dec (Zpos m) p53) as [Heq | Hne].
  - injection Heq as ->. exists 4503599627370496%positive, (e + 1).
    unfold shr_fexp, Zdigits2. 
    change (digits2_pos 9007199254740992) with 54%positive.
    unfold fexp, emin.
    replace (Z.max (54 + e - 53) (3 - 1024 - 53) - e) with 1 by lia.
    cbn [shr SpecFloat.iter_pos shr_record_of_loc shr_1 orb shr_m].
    destruct (Z.leb_spec (e + 1) (1024 - 53)); [| lia].
    refine (conj eq_refl (conj _ _)); [unfold p52, p53; lia |]. right. done.
  - assert (normal m e) as Hn by (split; lia).
    rewrite shr_fexp_normal by done. cbn [shr_m].
    destruct (Z.leb_spec e (1024 - 53)); [| lia].
    exists m, e. refine (conj eq_refl (conj _ _)); [lia |]. left. done.
Qed.

(** Rounding a quotient of 53 or 54 bits. *)
Lemma binary_round_aux_quotient s (q : positive) e l :
  p52 <= Zpos q < p54 -> -1074 <= e -> e + 2 <= 971 ->
  exists m e',
    binary_round_aux 53 1024 s (Zpos q) e l = S754_finite s m e' /\
    p52 <= Zpos m < p53 /\
    ((e' = e /\ Zpos m <= Zpos q + 1) \/
     (e' = e + 1 /\ 2 * Zpos m <= Zpos q + 1) \/
     (e' = e + 2 /\ 4 * Zpos m <= Zpos q + 1)) /\
    (l = loc_Exact -> Zpos q = p53 -> Zpos m = p52 /\ e' = e + 1).
Proof.
  intros Hq He He2. unfold binary_round_aux.
  destruct (Z.lt_ge_cases (Zpos q) p53) as [Hlt | Hge].
  - (* 53 bits: no shift *)
    unfold shr_fexp at 1, Zdigits2. rewrite (digits_53 q) by lia.
    unfold fexp, emin.
    replace (Z.max (53 + e - 53) (3 - 1024 - 53) - e) with 0 by lia.
    cbn [shr].
    set (z := round_nearest_even (shr_m (shr_record_of_loc (Zpos q) l))
                (loc_of_shr_record (shr_record_of_loc (Zpos q) l))).
    assert (Zpos q <= z <= Zpos q + 1 /\ (l = loc_Exact -> z = Zpos q)) as [Hz Hex].
    { unfold z. destruct l as [|[| |]]; cbn [shr_record_of_loc shr_m loc_of_shr_record
        round_nearest_even]; try (split; [lia | done]).
      destruct (Z.even (Zpos q)); split; (lia || done). }
    destruct (renormalize s z e) as (m2 & e2 & -> & Hm2 & Hcase); [lia | lia | lia |].
    exists m2, e2. refine (conj eq_refl (conj Hm2 (conj _ _))).
    + destruct Hcase as [[-> Hv] | [-> Hv]]; [left | right; left]; lia.
    + intros Hl Hq53. lia.
  - (* 54 bits: one shift *)
    unfold shr_fexp at 1, Zdigits2. rewrite (digits_54 q) by lia.
    unfold fexp, emin.
    replace (Z.max (54 + e - 53) (3 - 1024 - 53) - e) with 1 by lia.
    cbn [shr SpecFloat.iter_pos].
    set (z := round_nearest_even (shr_m (shr_1 (shr_record_of_loc (Zpos q) l)))
                (loc_of_shr_record (shr_1 (shr_record_of_loc (Zpos q) l)))).
    assert (Zpos q - 1 <= 2 * z <= Zpos q + 1 /\
            (l = loc_Exact -> Z.even (Zpos q) = true -> 2 * z = Zpos q)) as [Hz Hex].
    { unfold z. destruct q as [q' | q' |]; [| | unfold p53 in Hge; lia].
      - destruct l as [|[| |]]; cbn [shr_record_of_loc shr_1 orb shr_m loc_of_shr_record
          round_nearest_even]; try destruct (Z.even (Zpos q')); split; try lia; try done.
      - destruct l as [|[| |]]; cbn [shr_record_of_loc shr_1 orb shr_m loc_of_shr_record
          round_nearest_even]; split; (lia || done). }
    destruct (renormalize s z (e + 1)) as (m2 & e2 & -> & Hm2 & Hcase);
      [unfold p52, p53, p54 in *; lia | lia | lia |].
    exists m2, e2. refine (conj eq_refl (conj Hm2 (conj _ _))).
    + destruct Hcase as [[-> Hv] | [-> Hv]]; [right; left | right; right]; lia.
    + intros Hl Hq53. specialize (Hex Hl). rewrite Hq53 in Hex.
      specialize (Hex eq_refl). unfold p52, p53 in *.
      destruct Hcase as [[-> Hv] | [-> Hv]]; lia.
Qed.

Lemma new_location_zero nb : new_location nb 0 = loc_Exact.
Proof. unfold new_location. by destruct (Z.even nb). Qed.

(** The quotient of two normal floats [x <= y] lies in [0, 1], and it is [1]
    when [x = y]. *)
Lemma div_normal_le mx ex my ey :
  normal mx ex -> normal my ey ->
  -60 <= ex - ey <= 0 ->
  ex < ey \/ Zpos mx <= Zpos my ->
  exists r,
    F64.div (S754_finite false mx ex) (S754_finite false my ey) = r /\
    F64.leb F64.zero r = true /\ F64.leb r F64.one = true /\
    (ex = ey -> mx = my -> r = F64.one).
Proof.
  intros [Hmx Hex] [Hmy Hey] Hd Hle.
  unfold F64.div, F64.prec, F64.emax, SFdiv, SFdiv_core_binary, Zdigits2.
  rewrite (digits_53 mx Hmx), (digits_53 my Hmy). unfold fexp, emin. cbn [xorb].
  replace (Z.min (Z.max (53 + ex - (53 + ey) - 53) (3 - 1024 - 53)) (ex - ey))
    with (ex - ey - 53) by lia.
  replace (ex - ey - (ex - ey - 53)) with 53 by lia.
  rewrite Z.shiftl_mul_pow2 by lia. change (2 ^ 53) with p53.
  pose proof (Z_div_mod (Zpos mx * p53) (Zpos my) ltac:(lia)) as Hdiv.
  destruct (Z.div_eucl (Zpos mx * p53) (Zpos my)) as [q r].
  destruct Hdiv as [Hq Hr].
  assert (p52 <= q < p54) as Hqb.
  { unfold p52, p53, p54 in *. split; nia. }
  destruct q as [|q|q]; [unfold p52 in Hqb; lia | | unfold p52 in Hqb; lia].
  destruct (binary_round_aux_quotient false q (ex - ey - 53) (new_location (Zpos my) r))
    as (m & e' & -> & Hm & Hcase & Hexact); [done | lia | lia |].
  eexists; split; [reflexivity |].
  split; [reflexivity |]. split.
  - unfold F64.leb, SFleb, SFcompare, F64.one.
    assert (e' < -52 \/ (e' = -52 /\ Zpos m = p52)) as [Hlt | [-> Hm52]].
    { unfold p52, p53, p54 in *.
      destruct Hle as [Hlt | Hmle].
      - destruct Hcase as [[-> Hv] | [[-> Hv] | [-> Hv]]]; lia.
      - assert (Zpos q <= p53) as Hq53 by (unfold p53; nia).
        unfold p53 in Hq53.
        destruct Hcase as [[-> Hv] | [[-> Hv] | [-> Hv]]]; lia. }
    + destruct (Z.compare_spec e' (-52)); [lia | done | lia].
    + cbn [Z.compare Pos.compare]. injection Hm52 as ->. reflexivity.
  - intros -> ->.
    assert (Zpos q = p53) as Hq53.
    { unfold p53 in *.
      destruct (Z.lt_trichotomy (Zpos q) 9007199254740992) as [? | [? | ?]];
        [nia | done | nia]. }
    assert (r = 0) as -> by (rewrite Hq53 in Hq; lia).
    rewrite new_location_zero in Hexact.
    destruct (Hexact eq_refl Hq53) as [Hm52 ->].
    injection Hm52 as ->. unfold F64.one. f_equal. lia.
Qed.

Lemma pow2_le_mono a b : 0 <= a <= b -> 2 ^ a <= 2 ^ b.
Proof. intros. apply Z.pow_le_mono_r; lia. Qed.

Lemma pow2_split a b : 0 <= a <= b -> 2 ^ b = 2 ^ a * 2 ^ (b - a).
Proof. intros. rewrite <- Z.pow_add_r by lia. f_equal. lia. Qed.

(** [2.0 * matches / length] for [2 * matches <= length < 2^53]. *)
Lemma calculate_ratio_range matches length :
  0 <= 2 * matches <= length -> 0 < length < p53 ->
  exists r,
    Difflib.calculate_ratio matches length = Ok (NFloat r) /\
    F64.leb F64.zero r = true /\ F64.leb r F64.one = true /\
    (2 * matches = length -> r = F64.one).
Proof.
  intros Hm Hl. unfold Difflib.calculate_ratio.
  destruct (Z.eqb_spec length 0) as [| _]; [lia |].
  destruct (float_of_int_small length Hl) as (my & ey & Hfy & Hny & Hey & Hvy).
  unfold num_mul, num_truediv, float_op, to_float. cbn [bind].
  destruct (Z.eq_dec matches 0) as [-> | Hm0].
  - change (float_of_int 0) with (Ok (S754_zero false)). cbn [bind].
    rewrite Hfy. cbn [bind float_is_zero].
    exists F64.zero. split; [reflexivity |]. split; [reflexivity |].
    split; [reflexivity |]. lia.
  - destruct (float_of_int_small matches ltac:(lia)) as (mx & ex & Hfx & Hnx & Hex & Hvx).
    rewrite Hfx. cbn [bind]. rewrite mul_two_normal by (done || lia).
    rewrite Hfy. cbn [bind float_is_zero].
    set (a := - ex) in *. set (b := - ey) in *.
    assert (0 < 2 ^ a) by (apply Z.pow_pos_nonneg; lia).
    assert (0 < 2 ^ b) by (apply Z.pow_pos_nonneg; lia).
    destruct Hnx as [Hmx Hex']. destruct Hny as [Hmy Hey'].
    assert (b + 1 <= a) as Hab.
    { destruct (Z.le_gt_cases (b + 1) a) as [? | Hgt]; [done | exfalso].
      assert (a <= b) by lia.
      pose proof (pow2_le_mono a b ltac:(lia)).
      unfold p52, p53 in *. nia. }
    assert (a = b + 1 -> Zpos mx <= Zpos my) as Hmle.
    { intros ->. rewrite Hvx, Hvy. rewrite Z.pow_add_r by lia.
      change (2 ^ 1) with 2. nia. }
    destruct (div_normal_le mx (ex + 1) my ey) as (r & <- & Hr0 & Hr1 & Hone).
    + split; [done | lia].
    + done.
    + lia.
    + destruct (Z.eq_dec a (b + 1)); [right; auto | left; lia].
    + exists (F64.div (S754_finite false mx (ex + 1)) (S754_finite false my ey)).
      split; [reflexivity |]. split; [exact Hr0 |]. split; [exact Hr1 |].
      intros Heq. 
      assert (a = b + 1) as Hab1.
      { destruct (Z.eq_dec a (b + 1)) as [? | Hne]; [done | exfalso].
        assert (b + 2 <= a) by lia.
        pose proof (pow2_split (b + 2) a ltac:(lia)) as Hs.
        rewrite Z.pow_add_r in Hs by lia. change (2 ^ 2) with 4 in Hs.
        assert (0 < 2 ^ (a - (b + 2))) by (apply Z.pow_pos_nonneg; lia).
        unfold p52, p53 in *. nia. }
      apply Hone; [lia |].
      assert (Zpos mx = Zpos my) as Hmm.
      { rewrite Hvx, Hvy, Hab1, Z.pow_add_r by lia. change (2 ^ 1) with 2. nia. }
      by injection Hmm.
Qed.

(** ** The index [b2j] *)

Lemma pos_from_spec k l c j :
  j ∈ pos_from k l c <-> k <= j /\ l !! Z.to_nat (j - k) = Some c.
Proof.
  revert k. induction l as [|x l IH]; intros k; cbn [pos_from].
  - rewrite elem_of_nil. split; [done | intros [_ H]; done].
  - rewrite elem_of_app, IH. destruct (N.eqb_spec x c) as [-> | Hne].
    + rewrite list_elem_of_singleton. split.
      * intros [-> | [Hk Hl]].
        -- split; [lia |]. by rewrite Z.sub_diag.
        -- split; [lia |]. replace (Z.to_nat (j - k)) with (S (Z.to_nat (j - (k + 1)))) by lia.
           done.
      * intros [Hk Hl]. destruct (Z.eq_dec j k) as [-> | Hjk]; [by left | right].
        split; [lia |].
        replace (Z.to_nat (j - k)) with (S (Z.to_nat (j - (k + 1)))) in Hl by lia. done.
    + rewrite elem_of_nil. split.
      * intros [[] | [Hk Hl]]. split; [lia |].
        replace (Z.to_nat (j - k)) with (S (Z.to_nat (j - (k + 1)))) by lia. done.
      * intros [Hk Hl]. right. destruct (Z.eq_dec j k) as [-> | Hjk].
        -- rewrite Z.sub_diag in Hl. cbn in Hl. injection Hl as Hl. done.
        -- split; [lia |].
           replace (Z.to_nat (j - k)) with (S (Z.to_nat (j - (k + 1)))) in Hl by lia. done.
Qed.

Lemma pos_from_sorted k l c : StronglySorted Z.lt (pos_from k l c).
Proof.
  revert k. induction l as [|x l IH]; intros k; cbn [pos_from]; [constructor |].
  destruct (x =? c)%N; cbn [app]; [| apply IH].
  constructor; [apply IH |].
  apply Forall_forall. intros j [Hj _]%pos_from_spec. lia.
Qed.

Lemma foldl_b2j_append c l k (m : gmap char (list Z)) :
  foldl b2j_append m (imap (fun i x => (k + Z.of_nat i, x)) l) !! c =
  match pos_from k l c with
  | [] => m !! c
  | ps => Some (default [] (m !! c) ++ ps)
  end.
Proof.
  revert k m. induction l as [|x l IH]; intros k m; [done |].
  rewrite imap_cons. cbn [foldl pos_from].
  rewrite (imap_ext _ (fun i y => (k + 1 + Z.of_nat i, y))).
  2:{ intros i y _. cbn. f_equal. lia. }
  rewrite IH. unfold b2j_append at 1 2. cbn [fst snd].
  replace (k + Z.of_nat 0) with k by lia.
  destruct (N.eqb_spec x c) as [-> | Hne].
  - rewrite lookup_insert_eq.
    destruct (pos_from (k + 1) l c); cbn; [done |].
    by rewrite <- app_assoc.
  - rewrite lookup_insert_ne by done. done.
Qed.

Lemma set_fold_delete_lookup (m0 : gmap char (list Z)) (X : gset char) c v :
  set_fold (fun elt m => delete elt m) m0 X !! c = Some v -> m0 !! c = Some v.
Proof.
  revert c v.
  apply (set_fold_ind_L (fun r _ => forall c v, r !! c = Some v -> m0 !! c = Some v)).
  - done.
  - intros x Y r _ IH c v H. apply IH.
    destruct (decide (x = c)) as [-> | Hne].
    + by rewrite lookup_delete_eq in H.
    + by rewrite lookup_delete_ne in H.
Qed.

(** Every list of [b2j] is the full, ascending list of the positions of its
    key. *)
Lemma chain_b_lookup (b : str) c idxs :
  chain_b b !! c = Some idxs -> idxs = pos_from 0 b c /\ idxs <> [].
Proof.
  unfold chain_b. intros H.
  assert (foldl b2j_append ∅ (enumerate b) !! c = Some idxs) as Hraw.
  { destruct (200 <=? Z.of_nat (length b)); [| done].
    by apply set_fold_delete_lookup in H. }
  clear H. unfold enumerate in Hraw.
  rewrite (imap_ext _ (fun i y => (0 + Z.of_nat i, y))) in Hraw by done.
  rewrite foldl_b2j_append, lookup_empty in Hraw.
  destruct (pos_from 0 b c) as [|j ps]; [done |].
  injection Hraw as <-. done.
Qed.

(** ** A string against itself *)

Section SelfMatch.
Variable a : str.
Let n : Z := Z.of_nat (length a).
Let sm : matcher := new_matcher a a.

Local Abbreviation keyed := (keyed a).
Local Abbreviation run := (run a).
Local Abbreviation diag := (diag a).
Local Abbreviation row_indices := (row_indices a).

Lemma run_nonneg j : 0 <= run j.
Proof. induction j; cbn; destruct (keyed _); lia. Qed.

Lemma diag_nonneg z : 0 <= diag z.
Proof. unfold diag. destruct (z <? 0); [lia | apply run_nonneg]. Qed.

Lemma diag_step z :
  0 <= z -> diag z = if keyed (at_ a z) then diag (z - 1) + 1 else 0.
Proof.
  intros Hz. unfold diag, at_. destruct (Z.ltb_spec z 0); [lia |].
  destruct (Z.to_nat z) as [|j] eqn:E.
  - assert (z = 0) as -> by lia. cbn. done.
  - destruct (Z.ltb_spec (z - 1) 0); [lia |].
    replace (Z.to_nat (z - 1)) with j by lia. cbn [run]. done.
Qed.

Lemma at_Some_range z c : at_ a z = Some c -> 0 <= z < n.
Proof.
  unfold at_. destruct (Z.ltb_spec z 0); [done |].
  intros Hl%lookup_lt_Some. unfold n. lia.
Qed.

Lemma at_in_range z : 0 <= z < n -> exists c, at_ a z = Some c.
Proof.
  intros Hz. unfold at_. destruct (Z.ltb_spec z 0); [lia |].
  apply lookup_lt_is_Some. unfold n in Hz. lia.
Qed.

Lemma row_indices_spec i :
  0 <= i < n ->
  if keyed (at_ a i) then
    StronglySorted Z.lt (row_indices i) /\ i ∈ row_indices i /\
    (forall j, j ∈ row_indices i -> 0 <= j < n /\ at_ a j = at_ a i)
  else row_indices i = [].
Proof.
  intros Hi. unfold row_indices. cbn [seq_a sm new_matcher b2j].
  destruct (at_in_range i Hi) as [c Hc]. rewrite Hc. cbn [keyed mbind option_bind].
  destruct (chain_b a !! c) as [idxs|] eqn:E.
  - rewrite bool_decide_eq_true_2 by eauto.
    apply chain_b_lookup in E as [-> _]. cbn [default].
    split; [apply pos_from_sorted |]. split.
    + apply pos_from_spec. split; [lia |]. rewrite Z.sub_0_r.
      unfold at_ in Hc. destruct (Z.ltb_spec i 0); [lia | done].
    + intros j [Hj Hl]%pos_from_spec. rewrite Z.sub_0_r in Hl.
      assert (at_ a j = Some c) as Hat.
      { unfold at_. destruct (Z.ltb_spec j 0); [lia | done]. }
      split; [by eapply at_Some_range | done].
  - rewrite bool_decide_eq_false_2 by (intros [? ?]; done). done.
Qed.

Section Row.
Variable i : Z.
Variable j2len : gmap Z Z.

Local Abbreviation kval := (kval j2len).
Local Abbreviation best_step := (best_step i j2len).

Lemma row_loop_spec js new best :
  (forall j, j ∈ js -> 0 <= j < n) ->
  row_loop 0 n i j2len js new best =
    (foldl (fun m j => <[ j := kval j ]> m) new js, foldl best_step best js).
Proof.
  revert new best. induction js as [|j js IH]; intros new best Hjs; [done |].
  cbn [row_loop foldl].
  assert (0 <= j < n) as Hj by (apply Hjs; left).
  destruct (Z.ltb_spec j 0); [lia |]. destruct (Z.leb_spec n j); [lia |].
  rewrite IH by (intros; apply Hjs; by right). done.
Qed.

Lemma foldl_insert_lookup js (new : gmap Z Z) j :
  foldl (fun m j => <[ j := kval j ]> m) new js !! j =
    if decide (j ∈ js) then Some (kval j) else new !! j.
Proof.
  revert new. induction js as [|j' js IH]; intros new; cbn [foldl].
  - rewrite decide_False by apply not_elem_of_nil. done.
  - rewrite IH. destruct (decide (j ∈ js)) as [Hin | Hnin].
    + rewrite decide_True by (by right). done.
    + destruct (decide (j = j')) as [-> | Hne].
      * rewrite decide_True by left. by rewrite lookup_insert_eq.
      * rewrite decide_False by (rewrite elem_of_cons; tauto).
        by rewrite lookup_insert_ne.
Qed.

Hypothesis Hi : 0 <= i < n.
Hypothesis Hlen : forall j v, j2len !! j = Some v -> v <= diag j /\ v <= diag (i - 1).
Hypothesis Hdiag : default 0 (j2len !! (i - 1)) = diag (i - 1).

Lemma kval_le j :
  0 <= j -> keyed (at_ a j) = true -> keyed (at_ a i) = true ->
  kval j <= diag j /\ kval j <= diag i.
Proof.
  intros Hj Hkj Hki. rewrite (diag_step j), (diag_step i), Hkj, Hki by lia.
  unfold kval. destruct (j2len !! (j - 1)) as [v|] eqn:E; cbn [default from_option id].
  - apply Hlen in E. lia.
  - pose proof (diag_nonneg (j - 1)). pose proof (diag_nonneg (i - 1)). lia.
Qed.

Lemma kval_diag : keyed (at_ a i) = true -> kval i = diag i.
Proof. intros Hki. rewrite (diag_step i), Hki by lia. unfold kval. by rewrite Hdiag. Qed.

(** Along a row only the diagonal entry can improve the best block. *)
Lemma foldl_best_step js best :
  keyed (at_ a i) = true ->
  StronglySorted Z.lt js ->
  (forall j, j ∈ js -> 0 <= j < n /\ at_ a j = at_ a i) ->
  best.1.1 = best.1.2 ->
  (forall j, 0 <= j < i -> diag j <= best.2) ->
  i ∈ js \/ (diag i <= best.2 /\ forall j, j ∈ js -> i < j) ->
  let best' := foldl best_step best js in
  best'.1.1 = best'.1.2 /\
  (forall j, 0 <= j < i -> diag j <= best'.2) /\
  diag i <= best'.2.
Proof.
  intros Hki. revert best.
  induction js as [|j js IH]; intros best Hs Hjs Hd Hb Hcase; cbn [foldl].
  - destruct Hcase as [Hin | [Hdi _]]; [by apply elem_of_nil in Hin | done].
  - apply StronglySorted_inv in Hs as [Hs Hall]. rewrite Forall_forall in Hall.
    assert (0 <= j < n /\ at_ a j = at_ a i) as [Hj Hat] by (apply Hjs; left).
    assert (keyed (at_ a j) = true) as Hkj by (by rewrite Hat).
    destruct (kval_le j ltac:(lia) Hkj Hki) as [Hk1 Hk2].
    assert (forall j', j' ∈ js -> 0 <= j' < n /\ at_ a j' = at_ a i) as Hjs'
      by (intros; apply Hjs; by right).
    destruct (Z.lt_trichotomy j i) as [Hlt | [-> | Hgt]].
    + (* before the diagonal: no change *)
      assert (best_step best j = best) as ->.
      { unfold best_step. destruct (Z.ltb_spec best.2 (kval j)); [| done].
        specialize (Hb j ltac:(lia)). lia. }
      apply IH; try done.
      destruct Hcase as [Hin | [_ Hall']].
      * left. apply elem_of_cons in Hin as [-> | Hin]; [lia | done].
      * specialize (Hall' j ltac:(left)). lia.
    + (* the diagonal *)
      apply IH; try done.
      * unfold best_step. destruct (Z.ltb_spec best.2 (kval i)); cbn; [lia | done].
      * intros j Hj'. unfold best_step.
        destruct (Z.ltb_spec best.2 (kval i)); cbn; specialize (Hb j Hj'); lia.
      * right. split; [| intros j Hj'; by apply Hall].
        unfold best_step. rewrite <- (kval_diag Hki).
        destruct (Z.ltb_spec best.2 (kval i)); cbn; lia.
    + (* after the diagonal: no change *)
      assert (diag i <= best.2 /\ forall j', j' ∈ j :: js -> i < j') as [Hdi Hafter].
      { destruct Hcase as [Hin | H]; [| done].
        apply elem_of_cons in Hin as [-> | Hin]; [lia |].
        apply Hall in Hin. lia. }
      assert (best_step best j = best) as ->.
      { unfold best_step. destruct (Z.ltb_spec best.2 (kval j)); [lia | done]. }
      apply IH; try done. right. split; [done |].
      intros j' Hj'. apply Hafter. by right.
Qed.
End Row.
End SelfMatch.

Section SelfMatchLoop.
Variable a : str.
Let n : Z := Z.of_nat (length a).
Let sm : matcher := new_matcher a a.

Local Abbreviation row_inv := (row_inv a).

Lemma row_step i j2len best :
  0 <= i < n ->
  row_inv i j2len best ->
  let '(new, best') := row_loop 0 n i j2len (row_indices a i) ∅ best in
  row_inv (i + 1) new best'.
Proof.
  intros Hi (Hlen & Hdiag & Hd & Hb & H0).
  pose proof (row_indices_spec a i Hi) as Hspec.
  destruct (keyed a (at_ a i)) eqn:Hk.
  - destruct Hspec as (Hs & Hin & Hjs).
    rewrite (row_loop_spec a) by (intros j Hj; by apply Hjs).
    destruct (foldl_best_step a i j2len Hi Hlen Hdiag (row_indices a i) best)
      as (Hd' & Hb' & Hdi); try done; [by left |].
    cbv beta iota. unfold row_inv.
    replace (i + 1 - 1) with i by lia.
    split; [| split; [| split; [| split]]].
    + intros j v. rewrite foldl_insert_lookup.
      destruct (decide (j ∈ row_indices a i)) as [Hj | Hj]; [| by rewrite lookup_empty].
      intros [= <-]. destruct (Hjs j Hj) as [Hjr Hat].
      apply (kval_le a i j2len Hi Hlen); [lia | by rewrite Hat | done].
    + rewrite foldl_insert_lookup, decide_True by done. cbn [default from_option id].
      by apply kval_diag.
    + done.
    + intros j Hj. destruct (Z.eq_dec j i) as [-> | Hne]; [done | apply Hb'; lia].
    + pose proof (diag_nonneg a i). lia.
  - rewrite Hspec. cbn [row_loop]. unfold row_inv.
    replace (i + 1 - 1) with i by lia.
    assert (diag a i = 0) as Hz by (by rewrite diag_step, Hk by lia).
    split; [| split; [| split; [| split]]].
    + intros j v. by rewrite lookup_empty.
    + rewrite lookup_empty. by rewrite Hz.
    + done.
    + intros j Hj. destruct (Z.eq_dec j i) as [-> | Hne]; [lia | apply Hb; lia].
    + done.
Qed.

Lemma rows_loop_self rows i j2len best :
  rows = seqZ i (n - i) -> 0 <= i ->
  row_inv i j2len best ->
  let best' := rows_loop sm 0 n rows j2len best in
  best'.1.1 = best'.1.2.
Proof.
  revert i j2len best. induction rows as [|i' rows IH]; intros i j2len best Hr Hi Hinv.
  - cbn. by destruct Hinv as (_ & _ & ? & _).
  - assert (i < n) as Hlt.
    { destruct (Z.lt_ge_cases i n); [done |]. rewrite seqZ_nil in Hr by lia. done. }
    rewrite seqZ_cons in Hr by lia. injection Hr as -> ->.
    cbn [rows_loop].
    pose proof (row_step i j2len best ltac:(lia) Hinv) as Hstep.
    unfold row_indices in Hstep. change (new_matcher a a) with sm in Hstep.
    destruct (row_loop 0 n i j2len _ ∅ best) as [new best'].
    apply (IH (i + 1)); [f_equal; lia | lia | done].
Qed.

Lemma extend_left_self fuel bi bk :
  fuel = Z.to_nat bi -> 0 <= bi <= n ->
  extend_left sm 0 0 fuel false (bi, bi, bk) = (0, 0, bk + bi).
Proof.
  revert bi bk. induction fuel as [|fuel IH]; intros bi bk Hf Hbi.
  - assert (bi = 0) as -> by lia. cbn. f_equal. lia.
  - cbn [extend_left].
    destruct (Z.ltb_spec 0 bi); [| lia]. cbn [andb].
    destruct (at_in_range a (bi - 1)) as [c Hc]; [fold n; lia |].
    cbn [seq_a seq_b sm new_matcher]. rewrite Hc. cbn [isbjunk bjunk same_elt].
    rewrite bool_decide_eq_false_2 by set_solver. cbn [eqb andb].
    rewrite N.eqb_refl. rewrite IH by lia. f_equal. lia.
Qed.

Lemma extend_right_self fuel bk :
  fuel = Z.to_nat (n - bk) -> 0 <= bk <= n ->
  extend_right sm n n fuel false (0, 0, bk) = (0, 0, n).
Proof.
  revert bk. induction fuel as [|fuel IH]; intros bk Hf Hbk.
  - assert (bk = n) as -> by lia. done.
  - cbn [extend_right]. rewrite Z.add_0_l.
    destruct (Z.ltb_spec bk n); [| lia]. cbn [andb].
    destruct (at_in_range a bk) as [c Hc]; [fold n; lia |].
    cbn [seq_a seq_b sm new_matcher]. rewrite Hc. cbn [isbjunk bjunk same_elt].
    rewrite bool_decide_eq_false_2 by set_solver. cbn [eqb andb].
    rewrite N.eqb_refl. rewrite IH by lia. done.
Qed.

(** The longest match of a string with itself is the whole string. *)
Lemma find_longest_match_self : find_longest_match sm 0 n 0 n = (0, 0, n).
Proof.
  unfold find_longest_match.
  pose proof (rows_loop_bounds sm 0 n 0 n (seqZ 0 (n - 0)) 0 ∅ (0, 0, 0) eq_refl) as Hb.
  pose proof (rows_loop_self (seqZ 0 (n - 0)) 0 ∅ (0, 0, 0) eq_refl) as Hd.
  destruct (rows_loop sm 0 n (seqZ 0 (n - 0)) ∅ (0, 0, 0)) as [[bi bj] bk].
  cbn in Hd. rewrite <- Hd; clear Hd.
  - destruct Hb as (Hk & Hlo & Hhi & _); [lia | | cbn; unfold n; lia |].
    { intros j v. by rewrite lookup_empty. }
    assert (extend_left sm 0 0 (left_room 0 (bi, bi, bk)) false (bi, bi, bk)
            = (0, 0, bk + bi)) as E1
      by (apply extend_left_self; unfold left_room; cbn [fst snd]; lia).
    rewrite !E1.
    assert (extend_right sm n n (right_room n (0, 0, bk + bi)) false (0, 0, bk + bi)
            = (0, 0, n)) as E2
      by (apply extend_right_self; unfold right_room; cbn [fst snd]; lia).
    rewrite !E2.
    unfold left_room. cbn [fst snd].
    replace (Z.to_nat (0 - 0)) with 0%nat by lia.
    cbn [extend_left]. unfold right_room. cbn [fst snd].
    replace (Z.to_nat (n - (0 + n))) with 0%nat by lia. done.
  - lia.
  - split; [| split; [| split; [| split]]]; cbn [fst snd].
    + intros j v. by rewrite lookup_empty.
    + by rewrite lookup_empty.
    + done.
    + intros j Hj. lia.
    + done.
Qed.
End SelfMatchLoop.

(** The matching blocks of a non-empty string against itself add up to its
    length. *)
Lemma get_matching_blocks_self (a : str) :
  a <> [] ->
  sum_sizes (get_matching_blocks (new_matcher a a)) = Z.of_nat (length a).
Proof.
  intros Ha. unfold get_matching_blocks, enough_fuel.
  cbn [seq_a seq_b new_matcher].
  set (n := Z.of_nat (length a)).
  assert (0 < n) as Hn by (destruct a; [done | unfold n; cbn [length]; lia]).
  replace (2 * length a + 1)%nat with (S (2 * length a)) by lia.
  cbn [blocks_loop blocks_step].
  pose proof (find_longest_match_self a) as Hf. fold n in Hf. rewrite Hf.
  destruct (Z.eqb_spec n 0) as [| _]; [lia |].
  rewrite Z.ltb_irrefl. cbn [andb].
  replace (0 + n <? n) with false by (symmetry; apply Z.ltb_ge; lia).
  cbn [andb app].
  assert (forall fuel bs, blocks_loop (new_matcher a a) fuel [] bs = ([], bs)) as ->
    by (by intros []).
  rewrite sum_sizes_app, collapse_sum.
  rewrite (sum_sizes_perm (merge_sort block_le [(0, 0, n)]) [(0, 0, n)])
    by apply merge_sort_Permutation.
  unfold sum_sizes. cbn. lia.
Qed.

(** C2, as amended.  For every non-empty string [a] (of fewer than [2^52]
    characters) [get_similarity a a] is [1.0].  Symmetry is left out: see
    [similarity_not_symmetric]. *)
Theorem get_similarity_self (a : str) :
  a <> [] -> 2 * Z.of_nat (length a) < 2 ^ 53 ->
  get_similarity (JStr a) (JStr a) = returns (NFloat F64.one).
Proof.
  intros Ha Hlen. unfold get_similarity.
  destruct a as [|c a]; [done |].
  cbn [truthy negb orb sequence_ratio]. unfold Difflib.ratio.
  cbn [Difflib.seq_a Difflib.seq_b Difflib.new_matcher].
  rewrite get_matching_blocks_self by done.
  set (n := Z.of_nat (length (c :: a))) in *.
  assert (0 < n) by (unfold n; cbn [length]; lia).
  destruct (calculate_ratio_range n (n + n)) as (r & -> & _ & _ & Hone).
  - lia.
  - change (2 ^ 53) with p53 in Hlen. lia.
  - rewrite Hone by lia. done.
Qed.

(** C2 at a short string. *)
Lemma get_similarity_self_witness :
  get_similarity (JStr (lit "hola mundo")) (JStr (lit "hola mundo"))
    = returns (NFloat F64.one).
Proof.
  apply (get_similarity_self (lit "hola mundo")).
  - vm_compute. discriminate.
  - vm_compute. reflexivity.
Defined.

(** C3.  For two strings (of fewer than [2^53] characters together)
    [get_similarity] returns a float [r] with [0.0 <= r <= 1.0], and it
    returns exactly [0.0] whenever either text is empty or [None]. *)
Theorem get_similarity_range :
  (forall a b : str,
     Z.of_nat (length a) + Z.of_nat (length b) < 2 ^ 53 ->
     exists r,
       get_similarity (JStr a) (JStr b) = returns (NFloat r) /\
       F64.leb F64.zero r = true /\ F64.leb r F64.one = true) /\
  (forall x y, empty_text x \/ empty_text y ->
     get_similarity x y = returns (NFloat F64.zero)).
Proof.
  split.
  - intros a b Hlen. unfold get_similarity.
    destruct a as [|c a]; [exists F64.zero; done |].
    destruct b as [|c' b]; [exists F64.zero; done |].
    cbn [truthy negb orb sequence_ratio]. unfold Difflib.ratio.
    cbn [Difflib.seq_a Difflib.seq_b Difflib.new_matcher].
    pose proof (get_matching_blocks_spec (c :: a) (c' :: b)) as [_ Hsum].
    cbv zeta in Hsum.
    set (matches := Difflib.sum_sizes _) in *.
    destruct (calculate_ratio_range matches
                (Z.of_nat (length (c :: a)) + Z.of_nat (length (c' :: b))))
      as (r & -> & H0 & H1 & _).
    + lia.
    + change (2 ^ 53) with p53 in Hlen. cbn [length] in *. lia.
    + exists r. done.
  - intros x y [[-> | ->] | [-> | ->]]; unfold get_similarity; try done.
    all: by destruct (truthy x).
Qed.

(** C3 at two short strings. *)
Lemma get_similarity_range_witness :
  exists r,
    get_similarity (JStr (lit "hello world")) (JStr (lit "hello word")) = returns (NFloat r) /\
    F64.leb F64.zero r = true /\ F64.leb r F64.one = true.
Proof.
  apply (proj1 get_similarity_range). vm_compute. reflexivity.
Defined.

(** C2 fails as it is worded: [get_similarity] is not symmetric.  It is
    [0.25] for ["tide"] against ["diet"] and [0.5] for ["diet"] against
    ["tide"]. *)
Lemma similarity_not_symmetric :
  get_similarity (JStr (lit "tide")) (JStr (lit "diet")) = returns (NFloat (F64.dec 25 2)) /\
  get_similarity (JStr (lit "diet")) (JStr (lit "tide")) = returns (NFloat (F64.dec 5 1)) /\
  F64.eqb (F64.dec 25 2) (F64.dec 5 1) = false.
Proof. vm_compute. done. Qed.

(** * Further properties *)

(** ** More on [normalize_data] *)

Lemma str_eqb_false (s t : str) : s <> t -> str_eqb s t = false.
Proof. intros H. unfold str_eqb. by apply bool_decide_eq_false_2. Qed.

Lemma not_provider provider :
  provider ∉ providers ->
  str_eqb provider OpenAI = false /\ str_eqb provider Deepgram = false /\
  str_eqb provider AssemblyAI = false.
Proof.
  unfold providers. rewrite !not_elem_of_cons. intros (H1 & H2 & H3 & _).
  split_and!; by apply str_eqb_false.
Qed.

Lemma normalize_try_unknown data provider :
  provider ∉ providers -> normalize_try data provider = Ok norm_init.
Proof.
  intros (H1 & H2 & H3)%not_provider. unfold normalize_try.
  rewrite H1, H2, H3. vm_compute. reflexivity.
Qed.

(** X1.  A provider tag that is none of ["OpenAI"], ["Deepgram"] and
    ["AssemblyAI"] matches no branch: for every truthy input
    [normalize_data] returns the record of defaults (empty text, times and
    confidence [0.0], no speaker, no word) and prints nothing. *)
Theorem unknown_provider_defaults data provider :
  provider ∉ providers -> truthy data = true ->
  normalize_data data provider = (Some norm_init, []).
Proof.
  intros Hp Ht. unfold normalize_data. rewrite Ht. cbn [negb].
  by rewrite normalize_try_unknown.
Qed.

(** X1 at the tag ["openai"], in lower case. *)
Lemma unknown_provider_defaults_witness :
  normalize_data (flat_response (JStr (lit "hola")) [timed_word (JInt 1) (JInt 2) JNull])
    (lit "openai") = (Some norm_init, []).
Proof.
  apply unknown_provider_defaults.
  - unfold providers. rewrite !not_elem_of_cons.
    split_and!; [| | | apply not_elem_of_nil]; intros H; vm_compute in H; discriminate H.
  - reflexivity.
Defined.

Lemma filled_text sec dflt spk n0 words n :
  filled sec dflt spk n0 words n -> text n = text n0.
Proof. intros [_ -> | ]; [done |]. by subst n. Qed.

Lemma normalize_try_text data provider n :
  normalize_try data provider = Ok n ->
  if str_eqb provider OpenAI then py_get data (lit "text") (JStr []) = Ok (text n)
  else if str_eqb provider Deepgram then
    exists alt,
      deepgram_alt data = Ok alt /\
      py_get alt (lit "transcript") (JStr []) = Ok (text n)
  else if str_eqb provider AssemblyAI then
    py_get data (lit "text") (JStr []) = Ok (text n)
  else text n = JStr [].
Proof.
  intros H. apply normalize_try_inv in H.
  destruct H as (n1 & words & Hb & _ & _ & -> & _).
  destruct (str_eqb provider OpenAI).
  { apply openai_branch_inv in Hb as (t & n2 & Ht & _ & Hf & ->).
    apply filled_text in Hf. cbn in *. by rewrite Hf. }
  destruct (str_eqb provider Deepgram).
  { apply deepgram_branch_inv in Hb as (alt & t & Ha & Ht & _ & Hf).
    apply filled_text in Hf. exists alt. cbn in *. by rewrite Hf. }
  destruct (str_eqb provider AssemblyAI).
  { apply assemblyai_branch_inv in Hb as (t & Ht & _ & Hf).
    apply filled_text in Hf. cbn in *. by rewrite Hf. }
  by injection Hb as <- _.
Qed.

(** X2.  The text of a normalised response is the value found in the
    response, whatever its type: [data.get("text", "")] for OpenAI and for
    AssemblyAI, and the ["transcript"] of the first alternative of the first
    channel for Deepgram, with [""] when the key is missing. *)
Theorem text_is_copied data n :
  ((normalize_data data OpenAI).1 = Some n ->
     py_get data (lit "text") (JStr []) = Ok (text n)) /\
  ((normalize_data data Deepgram).1 = Some n ->
     exists alt,
       deepgram_alt data = Ok alt /\
       py_get alt (lit "transcript") (JStr []) = Ok (text n)) /\
  ((normalize_data data AssemblyAI).1 = Some n ->
     py_get data (lit "text") (JStr []) = Ok (text n)).
Proof.
  split_and!; intros [_ H]%normalize_data_Some; apply normalize_try_text in H; exact H.
Qed.

(** X2 at an AssemblyAI response whose text is the number [5]. *)
Lemma text_is_copied_witness :
  text <$> (normalize_data (flat_response (JInt 5) []) AssemblyAI).1 = Some (JInt 5).
Proof.
  destruct (normalize_data (flat_response (JInt 5) []) AssemblyAI).1 as [n|] eqn:E;
    [| by vm_compute in E].
  pose proof (proj2 (proj2 (text_is_copied _ n)) E) as H.
  vm_eval_lhs H. injection H as H.
  change (Some (text n) = Some (JInt 5)). rewrite <- H. reflexivity.
Defined.

(** ** Deepgram's nested levels *)

Lemma deepgram_alt_missing data :
  level_missing data -> deepgram_alt data = Ok (JDict []).
Proof.
  intros (d & -> & H). unfold deepgram_alt. cbn [py_get bind].
  destruct (lookup_key (lit "results") d) as [[| | | | | |r]|]; try done.
  cbn [default from_option id py_get bind]. cbv beta iota in H.
  destruct (lookup_key (lit "channels") r) as [[| | | | |[|[| | | | | |c] l]|]|]; try done.
  cbn [default from_option id py_first py_get bind]. by rewrite H.
Qed.

Lemma normalize_try_empty_alt data :
  deepgram_alt data = Ok (JDict []) -> normalize_try data Deepgram = Ok norm_init.
Proof.
  intros H. unfold normalize_try.
  change (str_eqb Deepgram OpenAI) with false.
  change (str_eqb Deepgram Deepgram) with true. cbv iota.
  unfold deepgram_branch. rewrite H. vm_compute. reflexivity.
Qed.

(** X3.  A Deepgram response without ["results"], without ["channels"] or
    whose first channel has no ["alternatives"] is read through the defaults
    [{}] and [[{}]]: the result is the record of defaults, and nothing is
    printed. *)
Theorem deepgram_missing_level data :
  level_missing data -> truthy data = true ->
  normalize_data data Deepgram = (Some norm_init, []).
Proof.
  intros Hm Ht. unfold normalize_data. rewrite Ht. cbn [negb].
  by rewrite normalize_try_empty_alt by by apply deepgram_alt_missing.
Qed.

(** X3 at a response that only has ["metadata"]. *)
Lemma deepgram_missing_level_witness :
  normalize_data (JDict [(lit "metadata", JDict [])]) Deepgram = (Some norm_init, []).
Proof.
  apply deepgram_missing_level; [| reflexivity].
  eexists. split; [reflexivity |]. vm_compute. exact I.
Defined.

(** X4.  A Deepgram response whose list of channels is empty, or whose first
    channel has an empty list of alternatives, raises [IndexError] at [[0]]:
    [normalize_data] prints the error line and returns [None]. *)
Theorem deepgram_empty_level data :
  level_empty data ->
  normalize_data data Deepgram = (None, [ErrorParseando Deepgram IndexError]).
Proof.
  intros (d & r & -> & Hr & H).
  assert (deepgram_alt (JDict d) = Raise IndexError) as Ha.
  { unfold deepgram_alt. cbn [py_get bind]. rewrite Hr.
    cbn [default from_option id py_get bind].
    destruct (lookup_key (lit "channels") r) as [[| | | | |[|[| | | | | |c] l]|]|]; try done.
    cbn [default from_option id py_first py_get bind]. by rewrite H. }
  unfold normalize_data.
  assert (truthy (JDict d) = true) as -> by (destruct d; [done | done]).
  cbn [negb]. unfold normalize_try.
  change (str_eqb Deepgram OpenAI) with false.
  change (str_eqb Deepgram Deepgram) with true. cbv iota.
  unfold deepgram_branch. rewrite Ha. done.
Qed.

(** X4 at ["channels": []]. *)
Lemma deepgram_empty_level_witness :
  normalize_data (JDict [(lit "results", JDict [(lit "channels", JList [])])]) Deepgram
    = (None, [ErrorParseando Deepgram IndexError]).
Proof.
  apply deepgram_empty_level.
  do 2 eexists. split; [reflexivity |]. split; [reflexivity |]. vm_compute. exact I.
Defined.

(** ** What a normalised transcript holds *)

Lemma py_sub_numbers x y r :
  py_sub x y = Ok r -> is_number x /\ is_number y /\ is_number r.
Proof.
  unfold py_sub, is_number.
  destruct (as_num x) as [a|], (as_num y) as [b|]; try discriminate.
  intros H. bind_inv H. injection H as <-.
  split_and!; [by eexists | by eexists |]. destruct x0; by eexists.
Qed.

Lemma py_len_nonneg x k : py_len x = Ok k -> 0 <= k.
Proof. destruct x; cbn; intros [= <-]; lia. Qed.

Lemma speaker_count_pos (s : gset hkey) : 1 <= speaker_count s.
Proof.
  unfold speaker_count. destruct (decide (s = ∅)) as [| Hne]; [lia |].
  assert (size s <> 0%nat); [| lia].
  apply size_non_empty_iff. by intros ?%leibniz_equiv.
Qed.

Lemma speakers_code_pos provider ws k : speakers_code provider ws = Ok k -> 1 <= k.
Proof.
  unfold speakers_code. destruct (str_eqb provider OpenAI); [intros [= <-]; lia |].
  destruct (str_eqb provider Deepgram); intros H; bind_inv H; injection H as <-;
    apply speaker_count_pos.
Qed.

(** X5.  Whatever the provider tag, in a normalised transcript [start],
    [end], [duration] and [confidence] are numbers, and [word_count] and
    [speakers] are not negative: a response with any other kind of time
    raises in [end - start] and gives [None]. *)
Theorem normalized_fields_are_numbers data provider n :
  (normalize_data data provider).1 = Some n ->
  is_number (start n) /\ is_number (end_ n) /\ is_number (duration n) /\
  is_number (confidence n) /\ 0 <= word_count n /\ 0 <= speakers n.
Proof.
  intros Hn. destruct (decide (provider ∈ providers)) as [Hp | Hp].
  - destruct (normalize_confidence_num _ _ _ Hp Hn) as [c Hc].
    apply normalize_data_Some in Hn as [_ H].
    apply normalize_try_fields in H; [| done].
    destruct H as (words & _ & Hlen & Hsub & Hf & Ht).
    apply py_sub_numbers in Hsub as (He & Hs & Hd).
    apply py_len_nonneg in Hlen.
    split_and!; try done; [by eexists |].
    destruct (truthy words).
    + destruct (Ht eq_refl) as (w0 & wl & s0 & e0 & ws & confs & H);
        decompose [and] H; clear H.
      match goal with H : speakers_code _ _ = _ |- _ => apply speakers_code_pos in H end.
      lia.
    + destruct (Hf eq_refl) as (_ & _ & _ & ->). by destruct (str_eqb _ _).
  - apply normalize_data_Some in Hn as [_ H].
    rewrite normalize_try_unknown in H by done. injection H as <-.
    unfold is_number. cbn. split_and!; try (by eexists); lia.
Qed.

(** X5 at two Deepgram words. *)
Lemma normalized_fields_are_numbers_witness :
  exists n,
    (normalize_data (response Deepgram (JStr []) disordered) Deepgram).1 = Some n /\
    is_number (start n) /\ is_number (duration n) /\ 0 <= word_count n.
Proof.
  destruct (normalize_data (response Deepgram (JStr []) disordered) Deepgram).1
    as [n|] eqn:E; [| by vm_compute in E].
  exists n. split; [reflexivity |].
  destruct (normalized_fields_are_numbers _ _ n E) as (Hs & _ & Hd & _ & Hw & _).
  auto.
Defined.

(** ** Speakers and words *)

Lemma py_iter_len x ws : py_iter x = Ok ws -> py_len x = Ok (Z.of_nat (length ws)).
Proof.
  destruct x; cbn; try discriminate; intros [= <-]; by rewrite ?length_map.
Qed.

Lemma py_len_truthy x k : py_len x = Ok k -> truthy x = false -> k = 0.
Proof. destruct x as [| | | |[]|[]|[]]; cbn; try discriminate; by intros [= <-]. Qed.

Lemma length_omap_le {A B} (f : A -> option B) l : (length (omap f l) <= length l)%nat.
Proof. induction l as [|x l IH]; cbn; [lia |]. destruct (f x); cbn; lia. Qed.

Lemma length_remove_dups_le `{EqDecision A} (l : list A) :
  (length (remove_dups l) <= length l)%nat.
Proof.
  induction l as [|x l IH]; cbn; [lia |].
  destruct (decide_rel elem_of x l); cbn; lia.
Qed.

Lemma speakers_code_le provider ws k :
  provider = Deepgram \/ provider = AssemblyAI ->
  Forall is_dict ws -> ws <> [] ->
  speakers_code provider ws = Ok k -> k <= Z.of_nat (length ws).
Proof.
  intros Hp Hd Hne H. unfold speakers_code in H.
  assert (forall l : list hkey, (length l <= length ws)%nat ->
            speaker_count (list_to_set l) <= Z.of_nat (length ws)) as Hle.
  { intros l Hl. rewrite speaker_count_list. unfold one_if_none.
    pose proof (length_remove_dups_le l).
    destruct (Z.eqb_spec (Z.of_nat (length (remove_dups l))) 0); [| lia].
    destruct ws; [done | cbn; lia]. }
  destruct Hp as [-> | ->].
  - change (str_eqb Deepgram OpenAI) with false in H.
    change (str_eqb Deepgram Deepgram) with true in H. cbv iota in H.
    bind_inv H. injection H as <-.
    apply set_comprehension_deepgram in E; [| done]. subst x.
    rewrite (left_id_L ∅ (∪)). apply Hle.
    etrans; [apply length_omap_le |]. apply length_omap_le.
  - change (str_eqb AssemblyAI OpenAI) with false in H.
    change (str_eqb AssemblyAI Deepgram) with false in H. cbv iota in H.
    bind_inv H. injection H as <-.
    apply set_comprehension_assemblyai in E; [| done]. subst x.
    rewrite (left_id_L ∅ (∪)). apply Hle.
    etrans; [apply length_omap_le |]. etrans; [apply length_filter |].
    apply length_omap_le.
Qed.

(** X6.  For Deepgram and AssemblyAI the speaker count of a normalised
    transcript is [0] when there is no word, and otherwise lies between [1]
    and the number of words. *)
Theorem speakers_at_most_words data provider n :
  provider = Deepgram \/ provider = AssemblyAI ->
  (normalize_data data provider).1 = Some n ->
  (word_count n = 0 -> speakers n = 0) /\
  (0 < word_count n -> 1 <= speakers n <= word_count n).
Proof.
  intros Hp [_ H]%normalize_data_Some.
  assert (provider ∈ providers) as Hin by (destruct Hp as [-> | ->]; set_solver).
  assert (str_eqb provider OpenAI = false) as Hno by (by destruct Hp as [-> | ->]).
  apply normalize_try_fields in H; [| done].
  destruct H as (words & _ & Hlen & _ & Hf & Ht).
  destruct (truthy words) eqn:Etr.
  - destruct (Ht eq_refl) as (w0 & wl & s0 & e0 & ws & confs & H);
      decompose [and] H; clear H.
    match goal with H : py_iter _ = _ |- _ =>
      pose proof (py_iter_nonempty _ _ Etr H) as Hne;
      apply py_iter_len in H; rewrite H in Hlen; injection Hlen as Hlen end.
    assert (Forall is_dict ws) as Hd
      by (match goal with H : mapM _ _ = _ |- _ => by apply mapM_get_dicts in H end).
    match goal with H : speakers_code _ _ = _ |- _ =>
      pose proof (speakers_code_pos _ _ _ H) as Hpos;
      pose proof (speakers_code_le _ _ _ Hp Hd Hne H) as Hle end.
    split; [| lia]. destruct ws; [done | cbn in Hlen; lia].
  - destruct (Hf eq_refl) as (_ & _ & _ & Hs). rewrite Hno in Hs.
    pose proof (py_len_truthy _ _ Hlen Etr). split; [done | lia].
Qed.

(** X6 at two Deepgram words with speakers [null] and [0]. *)
Lemma speakers_at_most_words_witness :
  exists n,
    (normalize_data (deepgram_response (JStr []) null_then_zero) Deepgram).1 = Some n /\
    1 <= speakers n <= word_count n.
Proof.
  destruct (normalize_data (deepgram_response (JStr []) null_then_zero) Deepgram).1
    as [n|] eqn:E; [| by vm_compute in E].
  exists n. split; [reflexivity |].
  apply (speakers_at_most_words _ Deepgram n (or_introl eq_refl) E).
  assert (word_count <$> (normalize_data (deepgram_response (JStr []) null_then_zero)
                            Deepgram).1 = Some 2) as Hw by (vm_compute; reflexivity).
  rewrite E in Hw. injection Hw as ->. lia.
Defined.

(** ** Words without a confidence *)

Lemma mapM_get_lacking k dflt ws :
  Forall (lacks k) ws ->
  mapM (fun w => py_get w k dflt) ws = Ok (replicate (length ws) dflt).
Proof.
  induction 1 as [|w ws (d & -> & Hk) _ IH]; [done |].
  cbn [mapM py_get bind length replicate]. rewrite Hk, IH. done.
Qed.

Lemma mapM_exact_replicate x i k :
  exact_ratio x = Ok i ->
  mapM exact_ratio (replicate k x) = Ok (replicate k i).
Proof.
  intros H. induction k as [|k IH]; [done |].
  cbn [replicate mapM]. rewrite H, IH. done.
Qed.

Lemma nonfinite_sum_exact acc q b k :
  nonfinite_sum acc (replicate k (Exact q b)) = acc.
Proof. induction k; [done |]. done. Qed.

Lemma exact_sum_replicate q b k :
  (exact_sum (replicate k (Exact q b)) == inject_Z (Z.of_nat k) * q)%Q.
Proof.
  induction k as [|k IH].
  - cbn. ring.
  - cbn [replicate exact_sum]. rewrite IH, Nat2Z.inj_succ.
    unfold Z.succ. rewrite inject_Z_plus. ring.
Qed.

Lemma existsb_replicate {A} (f : A -> bool) x k :
  existsb f (replicate (S k) x) = f x.
Proof.
  induction k as [|k IH]; cbn [replicate existsb] in *; [apply orb_false_r |].
  rewrite IH. apply orb_diag.
Qed.

(** The mean of [k + 1] copies of one exact value is that value. *)
Lemma mean_of_copies q b k :
  Qred (exact_sum (replicate (S k) (Exact q b)) / inject_Z (Z.of_nat (S k))) = Qred q.
Proof.
  apply Qred_complete. rewrite exact_sum_replicate.
  field. intros H. unfold Qeq in H. cbn [Qnum Qden inject_Z] in H. lia.
Qed.

Lemma statistics_mean_ones k :
  statistics_mean (replicate (S k) (JFloat F64.one)) = Ok (NFloat F64.one).
Proof.
  unfold statistics_mean.
  rewrite (mapM_exact_replicate _ (Exact (F64.to_Q F64.one) true)) by reflexivity.
  cbn [bind]. rewrite length_replicate.
  destruct (Z.ltb_spec (Z.of_nat (S k)) 1); [lia |].
  rewrite nonfinite_sum_exact, existsb_replicate. cbn [item_is_float].
  rewrite !mean_of_copies.
  replace (Qred (F64.to_Q F64.one)) with (1 # 1)%Q by (vm_compute; reflexivity).
  vm_compute. reflexivity.
Qed.

Lemma statistics_mean_zeros k :
  statistics_mean (replicate (S k) (JInt 0)) = Ok (NInt 0).
Proof.
  unfold statistics_mean.
  rewrite (mapM_exact_replicate _ (Exact (inject_Z 0) false)) by reflexivity.
  cbn [bind]. rewrite length_replicate.
  destruct (Z.ltb_spec (Z.of_nat (S k)) 1); [lia |].
  rewrite nonfinite_sum_exact, existsb_replicate. cbn [item_is_float].
  rewrite !mean_of_copies. reflexivity.
Qed.

(** X7.  When the word list is not empty and no word has a ["confidence"],
    the confidence of the normalised transcript is the default of the
    branch times 100: the float [100.0] for OpenAI, the int [0] for Deepgram
    and AssemblyAI. *)
Theorem confidence_without_scores provider data ws n :
  provider ∈ providers ->
  (normalize_data data provider).1 = Some n ->
  response_words provider data = Ok (JList ws) ->
  ws <> [] ->
  Forall (lacks (lit "confidence")) ws ->
  confidence n = if str_eqb provider OpenAI then JFloat f100 else JInt 0.
Proof.
  intros Hp [_ H]%normalize_data_Some Hw Hne Hl.
  apply normalize_try_fields in H; [| done].
  destruct H as (words & Hw' & _ & _ & _ & Ht).
  rewrite Hw in Hw'. injection Hw' as <-.
  destruct ws as [|w ws']; [done |].
  destruct (Ht eq_refl) as (w0 & wl & s0 & e0 & ws2 & confs & H);
    decompose [and] H; clear H.
  match goal with H : py_iter _ = _ |- _ => injection H as <- end.
  match goal with H : mapM _ _ = _ |- _ =>
    rewrite (mapM_get_lacking _ _ _ Hl) in H; injection H as <- end.
  match goal with H : mean_percent _ = _ |- _ => rename H into Hm end.
  unfold mean_percent in Hm. cbn [length] in Hm. unfold default_confidence in Hm.
  destruct (str_eqb provider OpenAI); cbv iota in Hm.
  - change (JFloat F64.one :: replicate (length ws') (JFloat F64.one))
      with (replicate (S (length ws')) (JFloat F64.one)) in Hm.
    rewrite statistics_mean_ones in Hm. vm_eval_lhs Hm. by injection Hm as <-.
  - change (JInt 0 :: replicate (length ws') (JInt 0))
      with (replicate (S (length ws')) (JInt 0)) in Hm.
    rewrite statistics_mean_zeros in Hm. vm_eval_lhs Hm. by injection Hm as <-.
Qed.

(** X7 at three OpenAI words [{}]. *)
Lemma confidence_without_scores_witness :
  confidence <$>
    (normalize_data (flat_response (JStr []) [JDict []; JDict []; JDict []]) OpenAI).1
  = Some (JFloat f100).
Proof.
  destruct (normalize_data (flat_response (JStr []) [JDict []; JDict []; JDict []])
              OpenAI).1 as [n|] eqn:E; [| by vm_compute in E].
  change (Some (confidence n) = Some (JFloat f100)). f_equal.
  apply (confidence_without_scores OpenAI
           (flat_response (JStr []) [JDict []; JDict []; JDict []])
           [JDict []; JDict []; JDict []] n).
  - apply list_elem_of_here.
  - exact E.
  - reflexivity.
  - discriminate.
  - repeat constructor; eexists; (split; [reflexivity |]); reflexivity.
Defined.

(** ** Texts without a common character *)

Lemma chain_b_None (b : str) c : c ∉ b -> chain_b b !! c = None.
Proof.
  intros Hc. destruct (chain_b b !! c) as [idxs|] eqn:E; [exfalso | done].
  apply chain_b_lookup in E as [-> Hne].
  destruct (pos_from 0 b c) as [|j l] eqn:Ep; [done |].
  assert (j ∈ pos_from 0 b c) as Hj by (rewrite Ep; left).
  apply pos_from_spec in Hj as [_ Hj]. apply Hc. by eapply list_elem_of_lookup_2.
Qed.

Lemma at_elem_of (s : str) i c : at_ s i = Some c -> c ∈ s.
Proof.
  unfold at_. destruct (i <? 0); [done |]. apply list_elem_of_lookup_2.
Qed.

Section Disjoint.
Variables a b : str.
Hypothesis Hdis : disjoint_texts a b.
Let sm : matcher := new_matcher a b.

Lemma rows_loop_disjoint blo bhi rows j2len best :
rows_loop sm blo bhi rows j2len best = best.
Proof.
revert j2len. induction rows as [|i rows IH]; intros j2len; [done |].
cbn [rows_loop seq_a sm new_matcher b2j].
assert (default [] (at_ a i ≫= fun c => chain_b b !! c) = []) as ->.
{ destruct (at_ a i) as [c|] eqn:E; [| done]. cbn.
  rewrite chain_b_None; [done |]. apply Hdis. by eapply at_elem_of. }
cbn [row_loop]. apply IH.
Qed.

Lemma same_elt_disjoint i j : same_elt (at_ a i) (at_ b j) = false.
Proof.
destruct (at_ a i) as [c|] eqn:Ea, (at_ b j) as [d|] eqn:Eb; try done.
cbn. apply N.eqb_neq. intros ->.
apply at_elem_of in Ea, Eb. by apply (Hdis d).
Qed.

Lemma extend_left_disjoint alo blo fuel junk best :
extend_left sm alo blo fuel junk best = best.
Proof.
destruct fuel as [|fuel], best as [[bi bj] bk]; [done |].
cbn [extend_left seq_a seq_b sm new_matcher].
by rewrite same_elt_disjoint, !andb_false_r.
Qed.

Lemma extend_right_disjoint ahi bhi fuel junk best :
extend_right sm ahi bhi fuel junk best = best.
Proof.
destruct fuel as [|fuel], best as [[bi bj] bk]; [done |].
cbn [extend_right seq_a seq_b sm new_matcher].
by rewrite same_elt_disjoint, !andb_false_r.
Qed.

Lemma find_longest_match_disjoint alo ahi blo bhi :
find_longest_match sm alo ahi blo bhi = (alo, blo, 0).
Proof.
unfold find_longest_match.
rewrite rows_loop_disjoint.
rewrite extend_left_disjoint, extend_right_disjoint.
by rewrite extend_left_disjoint, extend_right_disjoint.
Qed.

Lemma get_matching_blocks_disjoint :
sum_sizes (get_matching_blocks sm) = 0.
Proof.
unfold get_matching_blocks, enough_fuel.
replace (2 * length (seq_a sm) + 1)%nat with (S (2 * length (seq_a sm))) by lia.
cbn [blocks_loop blocks_step]. rewrite find_longest_match_disjoint.
cbn [Z.eqb].
assert (forall fuel bs, blocks_loop sm fuel [] bs = ([], bs)) as -> by (by intros []).
rewrite sum_sizes_app, collapse_sum.
rewrite (sum_sizes_perm (merge_sort block_le []) []) by apply merge_sort_Permutation.
done.
Qed.
End Disjoint.

Lemma calculate_ratio_zero length :
  0 < length < p53 -> calculate_ratio 0 length = Ok (NFloat F64.zero).
Proof.
  intros Hl. unfold calculate_ratio.
  destruct (Z.eqb_spec length 0) as [| _]; [lia |].
  destruct (float_of_int_small length Hl) as (my & ey & Hfy & _).
  unfold num_mul, num_truediv, float_op, to_float. cbn [bind].
  change (float_of_int 0) with (Ok (S754_zero false)). cbn [bind].
  rewrite Hfy. reflexivity.
Qed.

(** X8.  Two non-empty strings without a common character (of fewer than
    [2^53] characters together) have similarity exactly [0.0]. *)
Theorem get_similarity_disjoint (a b : str) :
  disjoint_texts a b -> a <> [] -> b <> [] ->
  Z.of_nat (length a) + Z.of_nat (length b) < 2 ^ 53 ->
  get_similarity (JStr a) (JStr b) = returns (NFloat F64.zero).
Proof.
  intros Hd Ha Hb Hlen. unfold get_similarity.
  destruct a as [|c a]; [done |]. destruct b as [|c' b]; [done |].
  cbn [truthy negb orb sequence_ratio]. unfold ratio.
  rewrite get_matching_blocks_disjoint by done.
  cbn [seq_a seq_b new_matcher].
  rewrite calculate_ratio_zero; [done |].
  change (2 ^ 53) with p53 in Hlen. cbn [length] in *. lia.
Qed.

(** X8 at ["hola"] and ["777"]. *)
Lemma get_similarity_disjoint_witness :
  get_similarity (JStr (lit "hola")) (JStr (lit "777")) = returns (NFloat F64.zero).
Proof.
  apply get_similarity_disjoint.
  - apply (bool_decide_unpack _). vm_compute. exact I.
  - vm_compute. discriminate.
  - vm_compute. discriminate.
  - vm_compute. reflexivity.
Defined.

(** ** Matching blocks pair equal characters *)

Section Sound.
Variables a b : str.
Let sm : matcher := new_matcher a b.

Local Abbreviation matches_at := (matches_at a b).
Local Abbreviation j2len_sound := (j2len_sound a b).

Lemma b2j_positions c idxs j :
chain_b b !! c = Some idxs -> j ∈ idxs -> at_ b j = Some c.
Proof.
intros [-> _]%chain_b_lookup [Hj Hl]%pos_from_spec.
unfold at_. destruct (Z.ltb_spec j 0); [lia |]. by rewrite Z.sub_0_r in Hl.
Qed.

Lemma matches_at_grow i j k c :
at_ a (i + k) = Some c -> at_ b (j + k) = Some c ->
matches_at (i, j, k) -> matches_at (i, j, k + 1).
Proof.
intros Ha Hb Hm t Ht. cbn [fst snd] in *.
destruct (Z.eq_dec t k) as [-> | Hne]; [by exists c |].
apply Hm. cbn [fst snd]. lia.
Qed.

Lemma row_loop_sound blo bhi i c j2len js new best :
at_ a i = Some c ->
(forall j, j ∈ js -> at_ b j = Some c) ->
j2len_sound i j2len -> j2len_sound (i + 1) new -> matches_at best ->
let '(new', best') := row_loop blo bhi i j2len js new best in
j2len_sound (i + 1) new' /\ matches_at best'.
Proof.
intros Ha Hjs Hold. revert new best.
induction js as [|j js IH]; intros new best Hnew Hbest; cbn [row_loop]; [done |].
assert (forall j', j' ∈ js -> at_ b j' = Some c) as Hjs' by (intros; apply Hjs; by right).
destruct (j <? blo); [by apply IH |].
destruct (bhi <=? j); [done |].
set (k := default 0 (j2len !! (j - 1)) + 1).
assert (matches_at (i - k + 1, j - k + 1, k)) as Hk.
{ unfold k. destruct (j2len !! (j - 1)) as [v|] eqn:E; cbn [default from_option id].
  - apply Hold in E.
    replace (i - (v + 1) + 1) with (i - v) by lia.
    replace (j - (v + 1) + 1) with (j - 1 - v + 1) by lia.
    apply (matches_at_grow _ _ _ c); [| | done].
    + by replace (i - v + v) with i by lia.
    + replace (j - 1 - v + 1 + v) with j by lia. apply Hjs; left.
  - intros t Ht. cbn [fst snd] in *. assert (t = 0) as -> by lia.
    exists c. replace (i - (0 + 1) + 1 + 0) with i by lia.
    replace (j - (0 + 1) + 1 + 0) with j by lia. split; [done | apply Hjs; left]. }
apply IH; [done | |].
- intros j' v. destruct (decide (j = j')) as [<- | Hne].
  + rewrite lookup_insert_eq. intros [= <-].
    by replace (i + 1 - k) with (i - k + 1) by lia.
  + rewrite lookup_insert_ne by done. apply Hnew.
- by destruct (best.2 <? k).
Qed.

Lemma rows_loop_sound blo bhi rows i j2len best :
rows = seqZ i (Z.of_nat (length rows)) ->
j2len_sound i j2len -> matches_at best ->
matches_at (rows_loop sm blo bhi rows j2len best).
Proof.
revert i j2len best.
induction rows as [|i' rows IH]; intros i j2len best Hr Hj Hb; [done |].
cbn [length] in Hr. rewrite Nat2Z.inj_succ, seqZ_cons in Hr by lia.
injection Hr as -> Hr. replace (Z.pred (Z.succ (Z.of_nat (length rows))))
  with (Z.of_nat (length rows)) in Hr by lia.
cbn [rows_loop seq_a sm new_matcher b2j].
destruct (at_ a i) as [c|] eqn:Ea; cbn [mbind option_bind].
- destruct (chain_b b !! c) as [idxs|] eqn:Ec; cbn [default from_option id].
  + pose proof (row_loop_sound blo bhi i c j2len idxs ∅ best Ea) as Hrow.
    destruct (row_loop blo bhi i j2len idxs ∅ best) as [new best'].
    destruct Hrow as [Hn Hb']; [| done | | done |].
    * intros j Hjin. by eapply b2j_positions.
    * intros j v. by rewrite lookup_empty.
    * by apply (IH (Z.succ i)).
  + cbn [row_loop]. apply (IH (Z.succ i)); [done | | done].
    intros j v. by rewrite lookup_empty.
- cbn [default from_option id row_loop]. apply (IH (Z.succ i)); [done | | done].
  intros j v. by rewrite lookup_empty.
Qed.

Lemma same_elt_Some x y :
same_elt x y = true -> exists c, x = Some c /\ y = Some c.
Proof.
destruct x as [c|], y as [d|]; try done. cbn. intros ->%N.eqb_eq. by exists d.
Qed.

Lemma extend_left_sound alo blo fuel junk best :
matches_at best -> matches_at (extend_left sm alo blo fuel junk best).
Proof.
revert best. induction fuel as [|fuel IH]; intros [[bi bj] bk] Hb; [done |].
cbn [extend_left seq_a seq_b sm new_matcher].
destruct (_ && _) eqn:E; [| done].
apply andb_true_iff in E as [_ (c & Ha & Hc)%same_elt_Some].
apply IH. intros t Ht. cbn [fst snd] in *.
destruct (Z.eq_dec t 0) as [-> | Hne].
- exists c. by rewrite !Z.add_0_r.
- destruct (Hb (t - 1)) as (d & Hd1 & Hd2); [cbn [fst snd]; lia |].
  cbn [fst snd] in *. exists d.
  replace (bi - 1 + t) with (bi + (t - 1)) by lia.
  by replace (bj - 1 + t) with (bj + (t - 1)) by lia.
Qed.

Lemma extend_right_sound ahi bhi fuel junk best :
matches_at best -> matches_at (extend_right sm ahi bhi fuel junk best).
Proof.
revert best. induction fuel as [|fuel IH]; intros [[bi bj] bk] Hb; [done |].
cbn [extend_right seq_a seq_b sm new_matcher].
destruct (_ && _) eqn:E; [| done].
apply andb_true_iff in E as [_ (c & Ha & Hc)%same_elt_Some].
apply IH. by apply (matches_at_grow _ _ _ c).
Qed.

Lemma find_longest_match_sound alo ahi blo bhi :
alo <= ahi -> matches_at (find_longest_match sm alo ahi blo bhi).
Proof.
intros Hle. unfold find_longest_match.
apply extend_right_sound, extend_left_sound, extend_right_sound, extend_left_sound.
apply (rows_loop_sound _ _ _ alo).
- rewrite length_seqZ. f_equal. lia.
- intros j v. by rewrite lookup_empty.
- intros t Ht. cbn [fst snd] in Ht. lia.
Qed.

Lemma blocks_step_sound q bs :
Forall region_ok q -> Forall matches_at bs ->
Forall matches_at (blocks_step sm q bs).2.
Proof.
intros Hq Hbs. destruct q as [|[[[alo ahi] blo] bhi] q]; [done |].
cbn [blocks_step].
pose proof (find_longest_match_sound alo ahi blo bhi) as Hf.
destruct (find_longest_match sm alo ahi blo bhi) as [[i j] k].
destruct (k =? 0); [done |]. cbn [snd].
apply Forall_app. split; [done |]. constructor; [| done].
apply Hf. apply Forall_inv in Hq. cbn in Hq. lia.
Qed.

Lemma collapse_sound bs cur acc :
Forall matches_at bs -> matches_at cur -> Forall matches_at acc ->
Forall matches_at (collapse bs cur acc).
Proof.
revert cur acc.
induction bs as [|[[i2 j2] k2] bs IH]; intros [[i1 j1] k1] acc Hbs Hc Ha;
  cbn [collapse].
- destruct (k1 =? 0); [done |]. apply Forall_app. by split; [| constructor].
- apply Forall_cons in Hbs as [H2 Hbs].
  destruct (_ && _) eqn:E.
  + apply andb_true_iff in E as [Hi%Z.eqb_eq Hj%Z.eqb_eq].
    apply IH; [done | | done].
    intros t Ht. cbn [fst snd] in *.
    destruct (Z.lt_ge_cases t k1).
    * apply Hc. cbn [fst snd]. lia.
    * destruct (H2 (t - k1)) as (c & Hc1 & Hc2); [cbn [fst snd]; lia |].
      cbn [fst snd] in *. exists c.
      replace (i1 + t) with (i2 + (t - k1)) by lia.
      by replace (j1 + t) with (j2 + (t - k1)) by lia.
  + apply IH; [done | done |].
    destruct (k1 =? 0); [done |]. apply Forall_app. by split; [| constructor].
Qed.
End Sound.

Lemma blocks_loop_sound a b la lb fuel q bs :
  loop_inv la lb q bs -> Forall (matches_at a b) bs ->
  Forall (matches_at a b) (blocks_loop (new_matcher a b) fuel q bs).2.
Proof.
  revert q bs. induction fuel as [|fuel IH]; intros q bs Hinv Hbs; [done |].
  destruct q as [|r q]; [done |]. cbn [blocks_loop].
  pose proof (blocks_step_inv (new_matcher a b) la lb (r :: q) bs Hinv) as Hstep.
  pose proof (blocks_step_sound a b (r :: q) bs (inv_regions _ _ _ _ Hinv) Hbs) as Hs.
  destruct (blocks_step (new_matcher a b) (r :: q) bs) as [q' bs'].
  apply IH; [by destruct Hstep | done].
Qed.

(** X9.  Every block [(i, j, k)] of [get_matching_blocks], which [ratio]
    adds up, pairs equal characters: [a[i + t] == b[j + t]] for
    [0 <= t < k], all inside the two strings. *)
Theorem matching_blocks_are_matches (a b : str) (x : block) :
  x ∈ get_matching_blocks (new_matcher a b) -> matches_at a b x.
Proof.
  unfold get_matching_blocks. cbn [seq_a seq_b new_matcher].
  set (la := Z.of_nat (length a)). set (lb := Z.of_nat (length b)).
  pose proof (blocks_loop_sound a b la lb (enough_fuel (new_matcher a b))
                [(0, la, 0, lb)] []) as Hs.
  destruct (blocks_loop _ _ _ _) as [q bs]. cbn [snd] in Hs.
  intros [Hx | ->%list_elem_of_singleton]%elem_of_app.
  - revert x Hx. apply Forall_forall, collapse_sound; [| | done].
    + rewrite (merge_sort_Permutation block_le bs). apply Hs; [| done].
      split; [repeat constructor; cbn; lia | constructor | |];
        unfold total, width_a, width_b, sum_sizes; cbn; lia.
    + intros t Ht. cbn [fst snd] in Ht. lia.
  - intros t Ht. cbn [fst snd] in Ht. lia.
Qed.

(** X9 at the block [(3, 2, 2)] of ["abxcd"] against ["abcd"]. *)
Lemma matching_blocks_are_matches_witness :
  matches_at (lit "abxcd") (lit "abcd") (3, 2, 2).
Proof.
  apply matching_blocks_are_matches.
  apply (bool_decide_unpack _). vm_compute. exact I.
Defined.

(** ** The words of a normalised response *)

Lemma mapM_exact_numbers confs items :
  mapM exact_ratio confs = Ok items -> Forall is_number confs.
Proof.
  revert items. induction confs as [|c confs IH]; intros items H; [constructor |].
  cbn [mapM] in H. bind_inv H. constructor; [| by eapply IH].
  destruct c; try discriminate; by eexists.
Qed.

Lemma mean_percent_numbers confs c :
  mean_percent confs = Ok c -> Forall is_number confs.
Proof.
  unfold mean_percent. intros H.
  destruct (statistics_mean confs) as [m|] eqn:Es; [| discriminate].
  unfold statistics_mean in Es.
  destruct (mapM exact_ratio confs) as [items|] eqn:Ei; [| discriminate].
  by eapply mapM_exact_numbers.
Qed.

Lemma mapM_get_scored provider ws confs :
  mapM (fun w => py_get w (lit "confidence") (default_confidence provider)) ws = Ok confs ->
  Forall is_number confs ->
  Forall (scored_word provider) ws.
Proof.
  revert confs. induction ws as [|w ws IH]; intros confs H Hn; [constructor |].
  cbn [mapM] in H. bind_inv H. injection H as <-.
  apply Forall_cons in Hn as [Hx Hn]. constructor; [| by eapply IH].
  destruct w; try discriminate. injection E as <-.
  eexists. split; [reflexivity | exact Hx].
Qed.

Lemma normalize_try_scored provider data ws n :
  provider ∈ providers ->
  normalize_try data provider = Ok n ->
  response_words provider data = Ok (JList ws) ->
  Forall (scored_word provider) ws.
Proof.
  intros Hp H Hw.
  apply normalize_try_fields in H; [| done].
  destruct H as (words & Hw' & _ & _ & _ & Ht).
  rewrite Hw in Hw'. injection Hw' as <-.
  destruct ws as [|w ws']; [constructor |].
  destruct (Ht eq_refl) as (w0 & wl & s0 & e0 & ws2 & confs & H);
    decompose [and] H; clear H.
  match goal with H : py_iter _ = _ |- _ => injection H as <- end.
  match goal with H : mean_percent _ = _ |- _ => apply mean_percent_numbers in H end.
  by eapply mapM_get_scored.
Qed.

(** X10.  One word that is not an object, or whose confidence is not a
    number, makes the whole response unusable: for each of the three
    providers [normalize_data] prints one error line and returns [None]. *)
Theorem unscored_word_is_rejected provider data ws w :
  provider ∈ providers ->
  truthy data = true ->
  response_words provider data = Ok (JList ws) ->
  w ∈ ws -> ~ scored_word provider w ->
  exists e, normalize_data data provider = (None, [ErrorParseando provider e]).
Proof.
  intros Hp Ht Hw Hin Hns. unfold normalize_data. rewrite Ht. cbn [negb].
  destruct (normalize_try data provider) as [n|e] eqn:E; [exfalso | by exists e].
  pose proof (normalize_try_scored _ _ _ _ Hp E Hw) as Hall.
  rewrite Forall_forall in Hall. by apply Hns, Hall.
Qed.

(** X10 at an AssemblyAI word whose confidence is the string ["alta"]. *)
Lemma unscored_word_is_rejected_witness :
  exists e,
    normalize_data
      (flat_response (JStr (lit "hola"))
         [timed_word (JInt 0) (JInt 1) (JStr (lit "alta"))]) AssemblyAI
    = (None, [ErrorParseando AssemblyAI e]).
Proof.
  apply (unscored_word_is_rejected AssemblyAI _
           [timed_word (JInt 0) (JInt 1) (JStr (lit "alta"))]
           (timed_word (JInt 0) (JInt 1) (JStr (lit "alta")))).
  - unfold providers. set_solver.
  - reflexivity.
  - reflexivity.
  - left.
  - intros (c & Hc & [x Hx]). vm_compute in Hc. injection Hc as <-. discriminate Hx.
Defined.

(** ** Rows of transcripts that can be compared *)

Lemma get_similarity_float (a b : str) :
  Z.of_nat (length a) + Z.of_nat (length b) < 2 ^ 53 ->
  exists r, get_similarity (JStr a) (JStr b) = returns (NFloat r).
Proof.
  intros Hlen. unfold get_similarity.
  destruct a as [|c a]; [by eexists |].
  destruct b as [|c' b]; [by eexists |].
  cbn [truthy negb orb sequence_ratio]. unfold ratio.
  cbn [seq_a seq_b new_matcher].
  pose proof (get_matching_blocks_spec (c :: a) (c' :: b)) as [_ Hsum].
  cbv zeta in Hsum.
  set (matches := sum_sizes _) in *.
  destruct (calculate_ratio_range matches
              (Z.of_nat (length (c :: a)) + Z.of_nat (length (c' :: b))))
    as (r & -> & _).
  - lia.
  - change (2 ^ 53) with p53 in Hlen. cbn [length] in *. lia.
  - by exists r.
Qed.

Lemma sim_of_comparable x y :
  comparable x -> comparable y -> exists s, sim_of x y = returns s.
Proof.
  destruct x as [n|], y as [m|]; cbn [sim_of comparable]; try (by eexists).
  intros [(a & -> & Ha) _] [(b & -> & Hb) _].
  destruct (get_similarity_float a b) as [r ->].
  { change (2 ^ 53) with (2 ^ 52 + 2 ^ 52). lia. }
  cbn [obind returns]. unfold num_mul, float_op, to_float.
  change (float_of_int 100) with (Ok F64.hundred). cbn [bind obind]. by eexists.
Qed.

Lemma start_diff_of_comparable x y :
  comparable x -> comparable y -> exists t, start_diff_of x y = Ok t.
Proof.
  destruct x as [n|], y as [m|]; cbn [start_diff_of comparable]; try (by eexists).
  intros [_ (p & f & Hp & Hf)] [_ (q & g & Hq & Hg)].
  unfold abs_diff. rewrite Hp, Hq. unfold num_sub, float_op.
  destruct p, q; cbn [bind]; try (by eexists); rewrite Hf, Hg; by eexists.
Qed.

Lemma make_row_comparable id d_oai d_dg d_aai :
  (exists c, conf_of d_oai = Ok c) ->
  (exists c, conf_of d_dg = Ok c) ->
  (exists c, conf_of d_aai = Ok c) ->
  comparable d_oai -> comparable d_dg -> comparable d_aai ->
  exists r, make_row id d_oai d_dg d_aai = Known (Ok r).
Proof.
  intros [c1 H1] [c2 H2] [c3 H3] Ho Hd Ha.
  destruct (sim_of_comparable _ _ Ho Hd) as [s1 Hs1].
  destruct (sim_of_comparable _ _ Ho Ha) as [s2 Hs2].
  destruct (sim_of_comparable _ _ Hd Ha) as [s3 Hs3].
  destruct (start_diff_of_comparable _ _ Ho Hd) as [t1 Ht1].
  destruct (start_diff_of_comparable _ _ Hd Ha) as [t2 Ht2].
  unfold make_row. rewrite H1, H2, H3, Hs1, Hs2, Hs3, Ht1, Ht2.
  cbn [obind returns]. by eexists.
Qed.

(** X11.  When every transcript that is there has a string for text (of
    fewer than [2^52] characters) and a start that [float] accepts, the row
    of the identifier is produced, under its identifier: nothing raises
    outside [normalize_data]. *)
Theorem comparable_row_is_produced (f : loaded) :
  Forall comparable (transcripts f) ->
  exists r, analyse f = Known (Ok r) /\ Audio_ID r = audio_id f.
Proof.
  unfold transcripts. rewrite !Forall_cons. intros (Ho & Hd & Ha & _).
  unfold analyse.
  destruct (make_row_comparable (audio_id f)
              (normalize_data (raw_openai f) OpenAI).1
              (normalize_data (raw_deepgram f) Deepgram).1
              (normalize_data (raw_assembly f) AssemblyAI).1) as [r Hr]; try done.
  1-3: apply conf_of_normalized; set_solver.
  exists r. split; [done |].
  unfold make_row in Hr.
  repeat (apply obind_Ok in Hr as (? & _ & Hr)). by injection Hr as <-.
Qed.

(** X11 at an identifier with its three files. *)
Lemma comparable_row_is_produced_witness :
  exists r, analyse three_voices = Known (Ok r) /\ Audio_ID r = lit "7".
Proof.
  apply (comparable_row_is_produced three_voices).
  unfold transcripts.
  repeat match goal with
  | |- context [(normalize_data ?d ?p).1] =>
      let v := eval vm_compute in (normalize_data d p).1 in
      replace (normalize_data d p).1 with v by (vm_compute; reflexivity)
  end.
  repeat constructor; cbn [text start].
  all: try (eexists; split; [reflexivity | vm_compute; reflexivity]).
  all: do 2 eexists; split; reflexivity.
Defined.

(** ** The loop over the identifiers *)

Lemma analyse_id f r : analyse f = Known (Ok r) -> Audio_ID r = audio_id f.
Proof.
  unfold analyse, make_row. intros H.
  repeat (apply obind_Ok in H as (? & _ & H)). by injection H as <-.
Qed.

Lemma all_rows_Ok files rows :
  all_rows files = Known (Ok rows) <->
  Forall2 (fun f r => analyse f = Known (Ok r)) files rows.
Proof.
  revert rows. induction files as [|f files IH]; intros rows; cbn [all_rows].
  - split.
    + intros [= <-]. constructor.
    + by intros ->%Forall2_nil_inv_l.
  - split.
    + intros (r & Hr & H)%obind_Ok. apply obind_Ok in H as (rs & Hrs & [= <-]).
      constructor; [done | by apply IH].
    + intros (r & rs & Hr & Hrs & ->)%Forall2_cons_inv_l.
      rewrite Hr. cbn [obind]. apply IH in Hrs. rewrite Hrs. done.
Qed.

(** X12.  The loop over the identifiers produces its rows exactly when the
    row of every identifier is produced; the rows then are those rows, one
    per identifier, in the order of the identifiers and under their
    identifiers.  The first identifier whose row raises stops the loop with
    that exception, whatever follows. *)
Theorem all_rows_one_per_identifier (files : list loaded) :
  (forall rows,
     all_rows files = Known (Ok rows) <->
     Forall2 (fun f r => analyse f = Known (Ok r)) files rows) /\
  (forall rows,
     all_rows files = Known (Ok rows) -> Audio_ID <$> rows = audio_id <$> files) /\
  (forall before f after e,
     files = before ++ f :: after ->
     Forall (fun f => exists r, analyse f = Known (Ok r)) before ->
     analyse f = Known (Raise e) ->
     all_rows files = Known (Raise e)).
Proof.
  split_and!.
  - intros rows. apply all_rows_Ok.
  - intros rows H%all_rows_Ok.
    induction H as [|f r fs rs Hr _ IH]; [done |].
    cbn [fmap list_fmap]. f_equal; [by apply analyse_id | exact IH].
  - intros before f after e -> Hb Hf.
    induction Hb as [|g before [r Hr] _ IH]; cbn [app all_rows].
    + by rewrite Hf.
    + rewrite Hr. cbn [obind]. by rewrite IH.
Qed.

(** X12 at three identifiers, the second of which raises [TypeError]. *)
Lemma all_rows_one_per_identifier_witness :
  all_rows [only_deepgram; number_as_text; three_voices] = Known (Raise TypeError).
Proof.
  apply (proj2 (proj2 (all_rows_one_per_identifier
                         [only_deepgram; number_as_text; three_voices]))
           [only_deepgram] number_as_text [three_voices] TypeError).
  - reflexivity.
  - constructor; [| constructor]. eexists. vm_compute. reflexivity.
  - vm_compute. reflexivity.
Defined.

(** ** Identifiers and file names *)

Lemma is_prefix_app_fresh (s u t : str) d :
  d ∉ s -> is_prefix s (u ++ d :: t) = is_prefix s u || bool_decide (s = []).
Proof.
  revert u. induction s as [|c s IH]; intros u Hd; [by destruct u |].
  apply not_elem_of_cons in Hd as [Hne Hd].
  destruct u as [|y u]; cbn [app is_prefix].
  - destruct (N.eqb_spec c d); [congruence | done].
  - rewrite IH by done. destruct s; [| by rewrite !orb_false_r].
    cbn. by rewrite !andb_true_r, orb_false_r.
Qed.

Lemma is_prefix_app_straddle c (sep : str) x (u t : str) d :
  d ∉ sep ->
  is_prefix (c :: sep) ((x :: u) ++ d :: t) = is_prefix (c :: sep) (x :: u).
Proof.
  intros Hd. cbn [app is_prefix]. rewrite is_prefix_app_fresh by done.
  destruct sep as [|c' sep]; [by destruct u | by rewrite orb_false_r].
Qed.

Lemma is_infix_app c (sep : str) (u t : str) d :
  d ∉ sep ->
  is_infix (c :: sep) (u ++ d :: t) = is_infix (c :: sep) u || is_infix (c :: sep) (d :: t).
Proof.
  intros Hd. induction u as [|x u IH].
  - cbn [app]. by change (is_infix (c :: sep) []) with false.
  - change (is_infix (c :: sep) ((x :: u) ++ d :: t))
      with (is_prefix (c :: sep) ((x :: u) ++ d :: t) || is_infix (c :: sep) (u ++ d :: t)).
    rewrite is_prefix_app_straddle, IH by done.
    change (is_infix (c :: sep) (x :: u))
      with (is_prefix (c :: sep) (x :: u) || is_infix (c :: sep) u).
    by rewrite orb_assoc.
Qed.

Lemma is_prefix_refl_app (s t : str) : is_prefix s (s ++ t) = true.
Proof. induction s as [|c s IH]; [done |]. cbn. by rewrite N.eqb_refl. Qed.

Lemma before_first_app c (sep : str) (u t : str) :
  c ∉ sep -> is_infix (c :: sep) u = false ->
  before_first (c :: sep) (u ++ (c :: sep) ++ t) = u.
Proof.
  intros Hc. induction u as [|x u IH]; intros Hu.
  - cbn [app before_first]. change (c :: sep ++ t) with ((c :: sep) ++ t).
    by rewrite is_prefix_refl_app.
  - change (is_infix (c :: sep) (x :: u))
      with (is_prefix (c :: sep) (x :: u) || is_infix (c :: sep) u) in Hu.
    apply orb_false_iff in Hu as [Hp Hu].
    cbn [app before_first].
    change (x :: u ++ c :: sep ++ t) with ((x :: u) ++ c :: (sep ++ t)).
    rewrite is_prefix_app_straddle, Hp by done.
    f_equal. by apply IH.
Qed.

Ltac eval_lits :=
  repeat match goal with
  | |- context [lit ?s] =>
      let v := eval vm_compute in (lit s) in change (lit s) with v
  | H : context [lit ?s] |- _ =>
      let v := eval vm_compute in (lit s) in change (lit s) with v in H
  end.

Lemma not_elem_of_str (c : char) (s : str) :
  forallb (fun d => negb (c =? d)%N) s = true -> c ∉ s.
Proof.
  induction s as [|d s IH]; cbn [forallb]; [intros _; apply not_elem_of_nil |].
  intros [Hd Hs]%andb_true_iff. apply not_elem_of_cons. split; [| by apply IH].
  apply negb_true_iff, N.eqb_neq in Hd. done.
Qed.

(** X13.  The file name [f"{audio_id}_{prov}.json"] that the loop looks up
    for an identifier gives that identifier back, for each of the three
    suffixes, provided the identifier holds none of ["_openai"],
    ["_deepgram"] and ["_assembly"]. *)
Theorem id_round_trip (id prov : str) :
  prov ∈ suffixes -> marker_free id ->
  id_of_filename (file_name id prov) = Some id.
Proof.
  intros Hp Hfree.
  assert (is_infix (lit "_openai") id = false) as H1 by (apply Hfree; set_solver).
  assert (is_infix (lit "_deepgram") id = false) as H2 by (apply Hfree; set_solver).
  assert (is_infix (lit "_assembly") id = false) as H3 by (apply Hfree; set_solver).
  unfold id_of_filename, file_name.
  unfold suffixes in Hp. rewrite !elem_of_cons, elem_of_nil in Hp.
  destruct Hp as [-> | [-> | [-> | []]]]; eval_lits; cbn [app].
  all: rewrite ?is_infix_app by (by apply not_elem_of_str).
  all: rewrite ?H1, ?H2, ?H3; cbn [orb].
  all: repeat match goal with
       | |- context [is_infix ?m (95%N :: ?t)] =>
           let v := eval vm_compute in (is_infix m (95%N :: t)) in
           change (is_infix m (95%N :: t)) with v
       end; cbv iota.
  all: f_equal.
  - apply (before_first_app 95%N [111; 112; 101; 110; 97; 105]%N id [46; 106; 115; 111; 110]%N);
      [by apply not_elem_of_str | done].
  - apply (before_first_app 95%N [100; 101; 101; 112; 103; 114; 97; 109]%N id
             [46; 106; 115; 111; 110]%N); [by apply not_elem_of_str | done].
  - apply (before_first_app 95%N [97; 115; 115; 101; 109; 98; 108; 121]%N id
             [46; 106; 115; 111; 110]%N); [by apply not_elem_of_str | done].
Qed.

(** X13 at an identifier with underscores. *)
Lemma id_round_trip_witness :
  id_of_filename (file_name (lit "english_song_1") (lit "deepgram")) = Some (lit "english_song_1").
Proof.
  apply id_round_trip.
  - unfold suffixes. set_solver.
  - apply (bool_decide_unpack _). vm_compute. exact I.
Defined.

Lemma is_prefix_split (s t : str) :
  is_prefix s t = true -> exists rest, t = s ++ rest.
Proof.
  revert t. induction s as [|c s IH]; intros t H; [by exists t |].
  destruct t as [|d t]; [done |]. cbn [is_prefix] in H.
  apply andb_true_iff in H as [->%N.eqb_eq [rest ->]%IH]. by exists rest.
Qed.

Lemma before_first_split (sep s : str) :
  is_infix sep s = true -> exists rest, s = before_first sep s ++ sep ++ rest.
Proof.
  induction s as [|c s IH]; intros H.
  - cbn [is_infix] in H. rewrite orb_false_r in H.
    cbn [before_first]. rewrite H. by apply is_prefix_split in H.
  - cbn [before_first].
    destruct (is_prefix sep (c :: s)) eqn:Ep; [by apply is_prefix_split in Ep |].
    change (is_infix sep (c :: s)) with (is_prefix sep (c :: s) || is_infix sep s) in H.
    rewrite Ep in H. destruct (IH H) as [rest Hr]. exists rest.
    cbn [app]. by rewrite <- Hr.
Qed.

(** X14.  The identifier taken from a file name is the part of the name
    before a marker that occurs in it; a file name without any of the three
    markers gives no identifier. *)
Theorem id_of_filename_spec (filename : str) :
  match id_of_filename filename with
  | Some id => exists m rest, m ∈ markers /\ filename = id ++ m ++ rest
  | None => forall m, m ∈ markers -> is_infix m filename = false
  end.
Proof.
  unfold id_of_filename, markers.
  destruct (is_infix (lit "_openai") filename) eqn:E1.
  { apply before_first_split in E1 as [rest Hr]. exists (lit "_openai"), rest.
    split; [set_solver | done]. }
  destruct (is_infix (lit "_deepgram") filename) eqn:E2.
  { apply before_first_split in E2 as [rest Hr]. exists (lit "_deepgram"), rest.
    split; [set_solver | done]. }
  destruct (is_infix (lit "_assembly") filename) eqn:E3.
  { apply before_first_split in E3 as [rest Hr]. exists (lit "_assembly"), rest.
    split; [set_solver | done]. }
  intros m. rewrite !elem_of_cons, elem_of_nil. by intros [-> | [-> | [-> | []]]].
Qed.

(** ** The order of the rows *)

Lemma str_leb_refl s : str_leb s s = true.
Proof.
  induction s as [|c s IH]; [done |]. cbn.
  rewrite N.ltb_irrefl, N.eqb_refl. done.
Qed.

Lemma str_leb_total s t : str_leb s t = true \/ str_leb t s = true.
Proof.
  revert t. induction s as [|c s IH]; intros [|d t]; cbn; auto.
  destruct (N.ltb_spec c d), (N.ltb_spec d c), (N.eqb_spec c d), (N.eqb_spec d c);
    auto; lia.
Qed.

Lemma str_leb_trans s t u :
  str_leb s t = true -> str_leb t u = true -> str_leb s u = true.
Proof.
  revert t u. induction s as [|c s IH]; intros [|d t] [|e u]; cbn; try done.
  destruct (N.ltb_spec c d), (N.ltb_spec d e), (N.ltb_spec c e),
    (N.eqb_spec c d), (N.eqb_spec d e), (N.eqb_spec c e); try done; try lia.
  apply IH.
Qed.

#[local] Instance str_le_total : Total str_le.
Proof. intros s t. apply str_leb_total. Qed.

#[local] Instance str_le_trans : Transitive str_le.
Proof. intros s t u. apply str_leb_trans. Qed.

Lemma elem_of_unique_ids (filenames : list str) id :
  id ∈ unique_ids filenames <->
  exists filename, filename ∈ filenames /\ id_of_filename filename = Some id.
Proof.
  unfold unique_ids.
  assert (forall acc : gset str,
            id ∈ foldl
                   (fun ids filename =>
                      match id_of_filename filename with
                      | Some i => ids ∪ {[ i ]}
                      | None => ids
                      end) acc filenames <->
            id ∈ acc \/
            exists filename, filename ∈ filenames /\ id_of_filename filename = Some id)
    as H.
  { induction filenames as [|f fs IH]; intros acc; cbn [foldl].
    - split; [auto | intros [? | (? & []%elem_of_nil & _)]; done].
    - rewrite IH. destruct (id_of_filename f) as [i|] eqn:E.
      + rewrite elem_of_union, elem_of_singleton. split.
        * intros [[? | ->] | (g & Hg & Hi)]; [by left | right | right].
          -- exists f. split; [left | done].
          -- exists g. split; [by right | done].
        * intros [? | (g & [-> | Hg]%elem_of_cons & Hi)]; [by left; left | |].
          -- left; right. congruence.
          -- right. by exists g.
      + split.
        * intros [? | (g & Hg & Hi)]; [by left | right].
          exists g. split; [by right | done].
        * intros [? | (g & [-> | Hg]%elem_of_cons & Hi)]; [by left | congruence |].
          right. by exists g. }
  rewrite H. split; [intros [[]%elem_of_empty | ?]; done | auto].
Qed.

Lemma sorted_strict (l : list str) :
  StronglySorted str_le l -> NoDup l -> StronglySorted str_lt l.
Proof.
  induction 1 as [|x l Hl IH Hx]; intros Hn; [constructor |].
  apply NoDup_cons in Hn as [Hx' Hn]. constructor; [by apply IH |].
  rewrite Forall_forall in *. intros y Hy. split; [by apply Hx |].
  by intros ->.
Qed.

Lemma sorted_ids_spec (ids : gset str) :
  StronglySorted str_lt (sorted_ids ids) /\
  forall id, id ∈ sorted_ids ids <-> id ∈ ids.
Proof.
  unfold sorted_ids.
  pose proof (StronglySorted_merge_sort str_le (elements ids)) as Hs.
  pose proof (merge_sort_Permutation str_le (elements ids)) as Hp.
  assert (NoDup (merge_sort str_le (elements ids))) as Hn
    by (rewrite Hp; apply NoDup_elements).
  split.
  - by apply sorted_strict.
  - intros id. by rewrite Hp, elem_of_elements.
Qed.

(** X15.  When the report is produced, the identifiers of its rows are in
    strictly ascending order of strings (so that no identifier has two
    rows), they are exactly the identifiers that the file names give, and
    each row is the row of its identifier. *)
Theorem main_rows_identifiers (dir : gmap str json) (filenames : list str) rows :
  main_rows dir filenames = Known (Ok rows) ->
  StronglySorted str_lt (Audio_ID <$> rows) /\
  (forall id,
     id ∈ Audio_ID <$> rows <->
     exists filename, filename ∈ filenames /\ id_of_filename filename = Some id) /\
  Forall2 (fun id r => analyse (loaded_of dir id) = Known (Ok r))
    (sorted_ids (unique_ids filenames)) rows.
Proof.
  unfold main_rows. intros H%all_rows_Ok.
  destruct (sorted_ids_spec (unique_ids filenames)) as [Hs Hm].
  assert (Audio_ID <$> rows = sorted_ids (unique_ids filenames)) as Hids.
  { clear Hs Hm. revert rows H.
    induction (sorted_ids (unique_ids filenames)) as [|id ids IH]; intros rows H.
    - by apply Forall2_nil_inv_l in H as ->.
    - cbn [fmap list_fmap] in H.
      apply Forall2_cons_inv_l in H as (r & rs & Hr & Hrs & ->).
      cbn [fmap list_fmap]. f_equal; [by apply analyse_id in Hr | by apply IH]. }
  rewrite Hids. split_and!; [done | |].
  - intros id. by rewrite Hm, elem_of_unique_ids.
  - by rewrite Forall2_fmap_l in H.
Qed.

(** X15 at a folder with three files for ["b"], one for ["a"] and one file
    without marker. *)
Lemma main_rows_identifiers_witness :
  exists rows,
    main_rows small_dir four_files = Known (Ok rows) /\
    StronglySorted str_lt (Audio_ID <$> rows) /\
    length rows = 2%nat.
Proof.
  let v := eval vm_compute in (main_rows small_dir four_files) in
  match v with
  | Known (Ok ?rows) =>
      assert (main_rows small_dir four_files = Known (Ok rows)) as E
        by (vm_compute; reflexivity);
      exists rows; split; [exact E |];
      split; [exact (proj1 (main_rows_identifiers _ _ _ E)) | reflexivity]
  end.
Defined.

(** ** The shape of [words] *)

(** X16.  For each of the three providers, the [words] of a response that
    normalises is a list of objects, or else the empty string or the empty
    object, which count no word. *)
Theorem words_must_be_a_list provider data words n :
  provider ∈ providers ->
  (normalize_data data provider).1 = Some n ->
  response_words provider data = Ok words ->
  (exists ws, words = JList ws /\ Forall is_dict ws) \/ words = JStr [] \/ words = JDict [].
Proof.
  intros Hp [_ H]%normalize_data_Some Hw.
  apply normalize_try_fields in H; [| done].
  destruct H as (words' & Hw' & Hlen & _ & _ & Ht).
  rewrite Hw in Hw'. injection Hw' as <-.
  destruct (truthy words) eqn:Etr.
  - destruct (Ht eq_refl) as (w0 & wl & s0 & e0 & ws & confs & H);
      decompose [and] H; clear H.
    left. destruct words as [| | | |s|l|d]; try discriminate.
    + destruct s as [|c s]; [done |].
      match goal with H : py_first _ = _ |- _ => injection H as <- end. discriminate.
    + match goal with H : py_iter _ = _ |- _ => injection H as <- end.
      exists l. split; [done |].
      match goal with H : mapM _ _ = _ |- _ => by apply mapM_get_dicts in H end.
  - destruct words as [| | | |[]|[]|[]]; try discriminate; auto.
    left. exists []. by split.
Qed.

(** X16 at three OpenAI words. *)
Lemma words_must_be_a_list_witness :
  exists ws, JList three_words = JList ws /\ Forall is_dict ws.
Proof.
  destruct (normalize_data (response OpenAI (JStr []) three_words) OpenAI).1
    as [n|] eqn:E; [| by vm_compute in E].
  destruct (words_must_be_a_list OpenAI (response OpenAI (JStr []) three_words)
              (JList three_words) n) as [H | [H | H]];
    [apply list_elem_of_here | exact E | reflexivity | exact H | discriminate H
    | discriminate H].
Defined.

(** ** AssemblyAI's times *)

Lemma py_truediv_float x y r : py_truediv x y = Ok r -> exists f, r = JFloat f.
Proof.
  unfold py_truediv. destruct (as_num x) as [p|], (as_num y) as [q|]; try discriminate.
  intros H. bind_inv H. injection H as <-.
  unfold num_truediv in E. destruct p, q.
  - bind_inv E. injection E as <-. by eexists.
  - bind_inv E. destruct (float_is_zero _); [discriminate |]. injection E as <-. by eexists.
  - bind_inv E. destruct (float_is_zero _); [discriminate |]. injection E as <-. by eexists.
  - bind_inv E. destruct (float_is_zero _); [discriminate |]. injection E as <-. by eexists.
Qed.

(** X17.  The [start], [end] and [duration] of a normalised AssemblyAI
    transcript are floats, and [duration] is the float difference
    [end - start]. *)
Theorem assemblyai_times_are_floats data n :
  (normalize_data data AssemblyAI).1 = Some n ->
  exists s e d, start n = JFloat s /\ end_ n = JFloat e /\ duration n = JFloat d /\
                d = F64.sub e s.
Proof.
  intros [_ H]%normalize_data_Some.
  apply normalize_try_fields in H; [| set_solver].
  destruct H as (words & _ & _ & Hsub & Hf & Ht).
  assert (exists s e, start n = JFloat s /\ end_ n = JFloat e) as (s & e & Hs & He).
  { destruct (truthy words).
    - destruct (Ht eq_refl) as (w0 & wl & s0 & e0 & ws & confs & H);
        decompose [and] H; clear H.
      repeat match goal with
      | H : to_seconds AssemblyAI _ = Ok _ |- _ =>
          change (to_seconds AssemblyAI ?x) with (py_truediv x (JFloat F64.thousand)) in H;
          apply py_truediv_float in H; destruct H as [? H]
      end.
      eauto.
    - destruct (Hf eq_refl) as (-> & -> & _). eauto. }
  exists s, e, (F64.sub e s). rewrite Hs, He in *.
  split_and!; try done. by injection Hsub as <-.
Qed.

(** X17 at a word from 1500 ms to 1800 ms. *)
Lemma assemblyai_times_are_floats_witness :
  exists n s e,
    (normalize_data
       (flat_response (JStr (lit "hola")) [timed_word (JInt 1500) (JInt 1800) (JFloat f0_9)])
       AssemblyAI).1 = Some n /\
    start n = JFloat s /\ end_ n = JFloat e /\ duration n = JFloat (F64.sub e s).
Proof.
  match goal with |- exists n s e, ?d = _ /\ _ => destruct d as [n|] eqn:E end;
    [| by vm_compute in E].
  destruct (assemblyai_times_are_floats _ n E) as (s & e & d & Hs & He & Hd & ->).
  exists n, s, e. auto.
Defined.

(** ** The search for matching blocks ends *)

(** X18.  The loop [while queue:] of [get_matching_blocks] ends: after at
    most [2 * len(a) + 1] turns the queue is empty, and the sizes of the
    matching blocks add up to at most [min(len(a), len(b))]. *)
Theorem matching_blocks_search_ends (a b : str) :
  let sm := new_matcher a b in
  let la := Z.of_nat (length a) in
  let lb := Z.of_nat (length b) in
  (blocks_loop sm (enough_fuel sm) [(0, la, 0, lb)] []).1 = [] /\
  0 <= sum_sizes (get_matching_blocks sm) <= Z.min la lb.
Proof. apply get_matching_blocks_spec. Qed.
